(** * Verification of the cron plugin's scheduling core

    A shallow embedding of [cron.ts] (schedule matcher, script runner,
    template resolver) and [cron-tick.ts] (tick scheduler), with the
    repository contract of [cron-repository.ts] and the row types of
    [cron-schema.ts].  Effects are kept in a state monad over a world that
    holds the two stores and the trace of what was exchanged with the
    collaborators; the collaborators of a tick (stores, log, configuration)
    are taken to answer, the only failures followed being those of the
    scripts and of the delivery. *)

From Stdlib Require Import ZArith Ascii String List Bool Lia.
From stdpp Require Import gmap strings list.

Open Scope Z_scope.

(** ** The JavaScript runtime: strings

    A JavaScript string is a sequence of code units.  It is modelled by
    Rocq's [string]; a character of the model stands for the code unit of
    the same number, so the model covers the strings whose code units are
    all below 256. *)

Module JS.

Definition LF : string := String "010"%char "".

(** [s.length] *)
Definition length (s : string) : Z := Z.of_nat (String.length s).

(** [s.startsWith(p)] *)
Definition startsWith (p s : string) : bool := String.prefix p s.

(** [s.includes(p)] *)
Fixpoint includes (p s : string) : bool :=
  String.prefix p s ||
  match s with
  | EmptyString => false
  | String _ s' => includes p s'
  end.

(** [s.slice(n)] for [0 <= n] *)
Fixpoint slice (n : nat) (s : string) : string :=
  match n, s with
  | O, _ => s
  | S _, EmptyString => EmptyString
  | S k, String _ s' => slice k s'
  end.

(** [s.substring(0, n)] for [0 <= n] *)
Fixpoint substring0 (n : nat) (s : string) : string :=
  match n, s with
  | O, _ => EmptyString
  | S _, EmptyString => EmptyString
  | S k, String c s' => String c (substring0 k s')
  end.

(** [s.split(sep)] for a separator that is not empty.  The scan goes left
    to right; where the separator matches, the current piece is closed and
    the scan resumes after the match ([skip] counts the code units of the
    match still to pass), so matches never overlap.  The head of the
    result is the piece being built. *)
Fixpoint split_from (sep : string) (skip : nat) (s : string) : list string :=
  match s with
  | EmptyString => [EmptyString]
  | String c s' =>
      match skip with
      | S k => split_from sep k s'
      | O =>
          if String.prefix sep s
          then EmptyString :: split_from sep (String.length sep - 1) s'
          else match split_from sep 0 s' with
               | piece :: pieces => String c piece :: pieces
               | [] => [String c EmptyString]
               end
      end
  end.

Fixpoint chars (s : string) : list string :=
  match s with
  | EmptyString => []
  | String c s' => String c EmptyString :: chars s'
  end.

(** [s.split(sep)]; an empty separator splits between code units. *)
Definition split (sep s : string) : list string :=
  match sep with
  | EmptyString => chars s
  | String _ _ => split_from sep 0 s
  end.

(** [pieces.join(sep)] *)
Fixpoint join (sep : string) (pieces : list string) : string :=
  match pieces with
  | [] => EmptyString
  | [piece] => piece
  | piece :: rest => piece +:+ sep +:+ join sep rest
  end.

(** [s.replace(/\n$/, "")]: without the multiline flag [$] is the end of
    the input, so the only possible match is a final line feed. *)
Fixpoint replace_final_LF (s : string) : string :=
  match s with
  | EmptyString => EmptyString
  | String c s' =>
      if (Ascii.eqb c "010" && String.eqb s' EmptyString)%bool
      then EmptyString
      else String c (replace_final_LF s')
  end.

(** Truthiness of a string: every string but the empty one. *)
Definition truthy_string (s : string) : bool := negb (String.eqb s EmptyString).

(** Truthiness of an optional string property. *)
Definition truthy_opt_string (o : option string) : bool :=
  match o with
  | Some s => truthy_string s
  | None => false
  end.

End JS.

(** ** Row types of [cron-schema.ts] *)

Module CronScript.
Record t : Type := mk {
  name : string;
  command : string;
  timeout : option Z;
  cwd : option string
}.
End CronScript.

(** What [exitCode] holds at run time.  The type of the row says a
    number; the code of a rejection of [execAsync] is the exit code of the
    process, or the name of a system error ([ENOENT] for a working
    directory that does not exist,
    [ERR_CHILD_PROCESS_STDIO_MAXBUFFER] for too much output). *)
Inductive ExitCode : Type :=
| ExitNumber (n : Z)
| ExitName (code : string).

Module CronScriptResult.
Record t : Type := mk {
  name : string;
  exitCode : ExitCode;
  stdout : string;
  stderr : string;
  durationMs : Z;
  error : option string
}.
End CronScriptResult.

(** ** Template resolver ([resolveScriptTemplates] of [cron.ts]) *)

(** The token [{{name}}] of a result. *)
Definition placeholder (result : CronScriptResult.t) : string :=
  "{{" +:+ CronScriptResult.name result +:+ "}}".

(** The text put in place of the token, before the final line feed is
    removed. *)
Definition replacement_raw (result : CronScriptResult.t) : string :=
  match CronScriptResult.error result with
  | Some err =>
      if JS.truthy_string err
      then if JS.truthy_string (CronScriptResult.stdout result)
           then CronScriptResult.stdout result +:+ JS.LF +:+ "[script error: " +:+ err +:+ "]"
           else "[script error: " +:+ err +:+ "]"
      else CronScriptResult.stdout result
  | None => CronScriptResult.stdout result
  end.

Definition replacement (result : CronScriptResult.t) : string :=
  JS.replace_final_LF (replacement_raw result).

(** One turn of the loop: [resolved.split(placeholder).join(replacement)]. *)
Definition resolve_step (resolved : string) (result : CronScriptResult.t) : string :=
  JS.join (replacement result) (JS.split (placeholder result) resolved).

Definition resolveScriptTemplates (message : string) (results : list CronScriptResult.t) : string :=
  fold_left resolve_step results message.

(** ** The JavaScript runtime: numbers

    A number is a binary64 value.  The finite ones are the dyadic rationals
    [n / 2^k] that binary64 can represent, kept in lowest terms ([k = 0] or
    [n] odd) so that equal values are equal terms; the negative zero is
    identified with zero, which no operation used here can tell apart.
    Every arithmetic result is the exact result rounded to nearest, ties to
    even, as the runtime does; so is the value of a numeral, of however
    many digits (the engine of Node reads decimal numerals exactly). *)

Module Number.

Inductive t : Type :=
| NaN
| Inf (negative : bool)
| Fin (n : Z) (k : nat).

Definition int (z : Z) : t := Fin z 0.

(** Lowest terms of [m / 2^k]. *)
Fixpoint reduce (m : Z) (k : nat) : t :=
  match k with
  | O => Fin m 0
  | S k' => if Z.even m then reduce (m / 2) k' else Fin m k
  end.

(** The canonical form of [m * 2^q]. *)
Definition normalize (m q : Z) : t :=
  if 0 <=? q then Fin (m * 2 ^ q) 0 else reduce m (Z.to_nat (- q)).

(** [floor (log2 (n / d))] for positive [n] and [d]. *)
Definition floor_log2_ratio (n d : Z) : Z :=
  let e0 := Z.log2 n - Z.log2 d in
  if n * 2 ^ Z.max 0 (- e0) <? d * 2 ^ Z.max 0 e0 then e0 - 1 else e0.

(** Rounding of the positive rational [n / d]: a significand of at most 53
    bits at the exponent of the value, or at the least exponent [-1074]
    in the subnormal range; a result of [2^1024] or more is infinite. *)
Definition round_pos (negative : bool) (n d : Z) : t :=
  let e := floor_log2_ratio n d in
  let q := Z.max (e - 52) (-1074) in
  let num := n * 2 ^ Z.max 0 (- q) in
  let den := d * 2 ^ Z.max 0 q in
  let m := num / den in
  let r := num mod den in
  let m' := if 2 * r <? den then m
            else if den <? 2 * r then m + 1
            else if Z.even m then m else m + 1 in
  if 2 ^ 1024 <=? m' * 2 ^ q then Inf negative
  else normalize (if negative then - m' else m') q.

(** The number nearest to the rational [n / d], for [0 < d]. *)
Definition of_ratio (n d : Z) : t :=
  if n =? 0 then Fin 0 0
  else if 0 <? n then round_pos false n d
  else round_pos true (- n) d.

Definition of_Z (z : Z) : t := of_ratio z 1.

Definition isFinite (x : t) : bool :=
  match x with
  | Fin _ _ => true
  | _ => false
  end.

(** [x < y]; false when an operand is [NaN]. *)
Definition ltb (x y : t) : bool :=
  match x, y with
  | NaN, _ | _, NaN => false
  | Inf nx, Inf ny => nx && negb ny
  | Inf nx, Fin _ _ => nx
  | Fin _ _, Inf ny => negb ny
  | Fin n1 k1, Fin n2 k2 => n1 * 2 ^ Z.of_nat k2 <? n2 * 2 ^ Z.of_nat k1
  end.

(** [x > y] *)
Definition gtb (x y : t) : bool := ltb y x.

(** [x === y] *)
Definition strict_eqb (x y : t) : bool :=
  match x, y with
  | Inf nx, Inf ny => Bool.eqb nx ny
  | Fin n1 k1, Fin n2 k2 => (n1 =? n2) && Nat.eqb k1 k2
  | _, _ => false
  end.

(** [x <= y] *)
Definition leb (x y : t) : bool := ltb x y || strict_eqb x y.

(** SameValueZero, the comparison of [Array.prototype.includes]. *)
Definition same_value_zero (x y : t) : bool :=
  match x, y with
  | NaN, NaN => true
  | _, _ => strict_eqb x y
  end.

Definition opp (x : t) : t :=
  match x with
  | NaN => NaN
  | Inf n => Inf (negb n)
  | Fin n k => Fin (- n) k
  end.

(** [x + y] *)
Definition add (x y : t) : t :=
  match x, y with
  | NaN, _ | _, NaN => NaN
  | Inf nx, Inf ny => if Bool.eqb nx ny then Inf nx else NaN
  | Inf nx, Fin _ _ => Inf nx
  | Fin _ _, Inf ny => Inf ny
  | Fin n1 k1, Fin n2 k2 =>
      of_ratio (n1 * 2 ^ Z.of_nat k2 + n2 * 2 ^ Z.of_nat k1) (2 ^ Z.of_nat (k1 + k2))
  end.

(** [x - y] *)
Definition sub (x y : t) : t := add x (opp y).

(** [x % y]: the remainder of the truncated division, with the sign of
    [x]; it is exact. *)
Definition rem (x y : t) : t :=
  match x, y with
  | NaN, _ | _, NaN => NaN
  | Inf _, _ => NaN
  | Fin _ _, Inf _ => x
  | Fin n1 k1, Fin n2 k2 =>
      if n2 =? 0 then NaN
      else of_ratio (Z.rem (n1 * 2 ^ Z.of_nat k2) (n2 * 2 ^ Z.of_nat k1))
                    (2 ^ Z.of_nat (k1 + k2))
  end.

(** ToLength: truncation to an integer, clamped to [0, 2^53 - 1]. *)
Definition toLength (x : t) : Z :=
  match x with
  | NaN => 0
  | Inf negative => if negative then 0 else 2 ^ 53 - 1
  | Fin n k => Z.min (Z.max 0 (Z.quot n (2 ^ Z.of_nat k))) (2 ^ 53 - 1)
  end.

(** *** Numeric strings *)

(** The white space and line terminators among the code units below 256:
    TAB, LF, VT, FF, CR, SP and NBSP. *)
Definition is_white_space (c : ascii) : bool :=
  match c with
  | "009" | "010" | "011" | "012" | "013" | " " | "160" => true
  | _ => false
  end%char.

Fixpoint trim_start (s : string) : string :=
  match s with
  | EmptyString => EmptyString
  | String c s' => if is_white_space c then trim_start s' else s
  end.

(** Removal of trailing white space. *)
Fixpoint trim_end (s : string) : string :=
  match s with
  | EmptyString => EmptyString
  | String c s' =>
      match trim_end s' with
      | EmptyString => if is_white_space c then EmptyString else String c EmptyString
      | rest => String c rest
      end
  end.

(** The value of a digit in a radix up to 16. *)
Definition digit_value (radix : Z) (c : ascii) : option Z :=
  let n := Z.of_nat (nat_of_ascii c) in
  let v := if (48 <=? n) && (n <=? 57) then n - 48
           else if (97 <=? n) && (n <=? 102) then n - 87
           else if (65 <=? n) && (n <=? 70) then n - 55
           else 16 in
  if v <? radix then Some v else None.

(** The longest prefix of digits: its value, its length and what follows. *)
Fixpoint digits_from (radix acc : Z) (count : nat) (s : string) : Z * nat * string :=
  match s with
  | EmptyString => (acc, count, EmptyString)
  | String c s' =>
      match digit_value radix c with
      | Some v => digits_from radix (radix * acc + v) (S count) s'
      | None => (acc, count, s)
      end
  end.

Definition digits (radix : Z) (s : string) : Z * nat * string :=
  digits_from radix 0 0 s.

(** A leading sign: whether it is a minus, and what follows. *)
Definition sign (s : string) : bool * string :=
  match s with
  | String "-" s' => (true, s')
  | String "+" s' => (false, s')
  | _ => (false, s)
  end.

(** [parseInt(s, 10)]: leading white space is skipped, then an optional
    sign and the longest prefix of decimal digits are read; what follows
    is ignored.  With the radix given as 10 no [0x] prefix is honoured. *)
Definition parseInt10 (s : string) : t :=
  let '(negative, body) := sign (trim_start s) in
  match digits 10 body with
  | (_, O, _) => NaN
  | (v, S _, _) => of_Z (if negative then - v else v)
  end.

(** An exponent part [e], [e+] or [e-] followed by digits and nothing
    else; [None] when it is malformed. *)
Definition exponent_part (s : string) : option Z :=
  match s with
  | EmptyString => Some 0
  | String c s' =>
      if Ascii.eqb c "e" || Ascii.eqb c "E"
      then let '(negative, body) := sign s' in
           match digits 10 body with
           | (v, S _, EmptyString) => Some (if negative then - v else v)
           | _ => None
           end
      else None
  end.

(** [mantissa * 10^exponent] rounded. *)
Definition of_decimal (negative : bool) (mantissa exponent : Z) : t :=
  let m := if negative then - mantissa else mantissa in
  if 0 <=? exponent then of_ratio (m * 10 ^ exponent) 1
  else of_ratio m (10 ^ (- exponent)).

(** StrUnsignedDecimalLiteral *)
Definition unsigned_decimal (negative : bool) (s : string) : t :=
  if String.eqb s "Infinity" then Inf negative
  else
    let '(ip, ni, r1) := digits 10 s in
    let '(fp, nf, r2) :=
      match r1 with
      | String "." r => digits 10 r
      | _ => (0, O, r1)
      end in
    if Nat.eqb (ni + nf) 0 then NaN
    else
      match exponent_part r2 with
      | Some e => of_decimal negative (ip * 10 ^ Z.of_nat nf + fp) (e - Z.of_nat nf)
      | None => NaN
      end.

(** NonDecimalIntegerLiteral: [0x], [0o] or [0b] and digits of that radix. *)
Definition non_decimal (s : string) : option t :=
  match s with
  | String "0" (String c body) =>
      let radix := if Ascii.eqb c "x" || Ascii.eqb c "X" then Some 16
                   else if Ascii.eqb c "o" || Ascii.eqb c "O" then Some 8
                   else if Ascii.eqb c "b" || Ascii.eqb c "B" then Some 2
                   else None in
      match radix with
      | Some r =>
          match digits r body with
          | (v, S _, EmptyString) => Some (of_Z v)
          | _ => Some NaN
          end
      | None => None
      end
  | _ => None
  end.

(** [Number(s)]: the conversion of a string to a number. *)
Definition of_string (s : string) : t :=
  let body := trim_end (trim_start s) in
  match body with
  | EmptyString => Fin 0 0
  | _ =>
      match non_decimal body with
      | Some x => x
      | None => let '(negative, rest) := sign body in unsigned_decimal negative rest
      end
  end.

End Number.

(** ** The JavaScript runtime: dates

    A [Date] as the code observes it, through its getters.  The calendar
    fields are those of the local time zone of the host. *)

Module Date.
Record t : Type := mk {
  getTime : Z;
  getMinutes : Z;
  getHours : Z;
  getDate : Z;
  getMonth : Z;
  getDay : Z
}.
End Date.

(** ** Completions: a value returned or an error thrown *)

Inductive Completion (E A : Type) : Type :=
| Return (a : A)
| Throw (e : E).
Arguments Return {E A} a.
Arguments Throw {E A} e.

Definition bindC {E A B : Type} (c : Completion E A) (k : A -> Completion E B) : Completion E B :=
  match c with
  | Return a => k a
  | Throw e => Throw e
  end.

(** ** Schedule matcher ([parseCronSchedule] and [shouldRunCron] of [cron.ts]) *)

(** The errors of the parser, one constructor per message template. *)
Inductive ScheduleError : Type :=
| InvalidCronSchedule                 (* "Invalid cron schedule" *)
| InvalidStep (part : string)         (* "Invalid step: ${part}" *)
| ValueOutOfRange (v : Number.t)      (* "Value out of range: ${v}" *)
| InvalidRange (part : string).       (* "Invalid range: ${part}" *)

Record CronSchedule : Type := mkCronSchedule {
  minute : list Number.t;
  hour : list Number.t;
  day : list Number.t;
  month : list Number.t;
  weekday : list Number.t
}.

(** [Array.from({ length: max - min + 1 }, (_, i) => min + i)] for the
    integer bounds of a field. *)
Definition full_range (min max : Z) : list Z := seqZ min (max - min + 1).

(** [Array.from({ length }, (_, i) => start + i)] *)
Definition Array_from (length : Number.t) (start : Number.t) : list Number.t :=
  map (fun i => Number.add start (Number.int i)) (seqZ 0 (Number.toLength length)).

(** The loop that checks a list of values: the first one that is not a
    number of the field is thrown. *)
Fixpoint check_values (min max : Z) (values : list Number.t) : Completion ScheduleError unit :=
  match values with
  | [] => Return tt
  | v :: rest =>
      if negb (Number.isFinite v) || Number.ltb v (Number.int min) || Number.gtb v (Number.int max)
      then Throw (ValueOutOfRange v)
      else check_values min max rest
  end.

(** The inner function [parse] of [parseCronSchedule]. *)
Definition parse (part : string) (min max : Z) : Completion ScheduleError (list Number.t) :=
  if String.eqb part "*" then Return (map Number.int (full_range min max))
  else if JS.startsWith "*/" part then
    let step := Number.parseInt10 (JS.slice 2 part) in
    if negb (Number.isFinite step) || Number.leb step (Number.int 0)
    then Throw (InvalidStep part)
    else Return (map Number.int
                   (filter (fun v => Number.strict_eqb (Number.rem (Number.int (v - min)) step)
                                                       (Number.int 0) = true)
                           (full_range min max)))
  else if JS.includes "," part then
    let values := map Number.of_string (JS.split "," part) in
    bindC (check_values min max values) (fun _ => Return values)
  else if JS.includes "-" part then
    match map Number.of_string (JS.split "-" part) with
    | start :: end_ :: _ =>
        if negb (Number.isFinite start) || negb (Number.isFinite end_)
           || Number.ltb start (Number.int min) || Number.gtb end_ (Number.int max)
           || Number.gtb start end_
        then Throw (InvalidRange part)
        else Return (Array_from (Number.add (Number.sub end_ start) (Number.int 1)) start)
    | _ => Throw (InvalidRange part)
    end
  else
    let value := Number.parseInt10 part in
    if negb (Number.isFinite value) || Number.ltb value (Number.int min) || Number.gtb value (Number.int max)
    then Throw (ValueOutOfRange value)
    else Return [value].

Definition parseCronSchedule (schedule : string) : Completion ScheduleError CronSchedule :=
  match JS.split " " schedule with
  | [p0; p1; p2; p3; p4] =>
      bindC (parse p0 0 59) (fun minute =>
      bindC (parse p1 0 23) (fun hour =>
      bindC (parse p2 1 31) (fun day =>
      bindC (parse p3 1 12) (fun month =>
      bindC (parse p4 0 6) (fun weekday =>
      Return (mkCronSchedule minute hour day month weekday))))))
  | _ => Throw InvalidCronSchedule
  end.

(** [values.includes(x)] *)
Definition Array_includes (values : list Number.t) (x : Number.t) : bool :=
  existsb (fun v => Number.same_value_zero v x) values.

Definition shouldRunCron (schedule : string) (date : Date.t) : bool :=
  match parseCronSchedule schedule with
  | Return cron =>
      Array_includes (minute cron) (Number.int (Date.getMinutes date))
      && Array_includes (hour cron) (Number.int (Date.getHours date))
      && Array_includes (day cron) (Number.int (Date.getDate date))
      && Array_includes (month cron) (Number.int (Date.getMonth date + 1))
      && Array_includes (weekday cron) (Number.int (Date.getDay date))
  | Throw _ => false
  end.

(** ** Remaining row types of [cron-schema.ts] *)

Module CronJobRow.
Record t : Type := mk {
  name : string;
  schedule : string;
  session : string;
  message : string;
  scripts : option (list CronScript.t);
  once : option bool;
  runAt : option Z
}.
End CronJobRow.

Inductive RunStatus : Type := success | failure.

Module CronRunRow.
Record t : Type := mk {
  id : string;
  cronName : string;
  session : string;
  startedAt : Z;
  status : RunStatus;
  durationMs : Z;
  error : option string;
  message : string;
  scriptResults : option (list CronScriptResult.t)
}.
End CronRunRow.

(** ** The world around the scheduler

    What the code exchanges with its collaborators is kept as a trace of
    events, each with the answer the collaborator gave.  The answers come
    from the environment, which may answer every interaction differently:
    its oracles take the number of interactions made so far. *)

(** What [execAsync] settles to: the captured output, or a rejection seen
    through the cast [{ code?, stdout?, stderr?, message? }]. *)
Inductive ExecOutcome : Type :=
| ExecResolved (stdout stderr : string)
| ExecRejected (code : option ExitCode) (stdout stderr : option string) (message : option string).

(** A thrown value: an [Error] with its message, or anything else with its
    conversion to a string. *)
Inductive Thrown : Type :=
| ThrownError (message : string)
| ThrownOther (asString : string).

(** How the delivery fares in the race against the timer of the job:
    fulfilled, rejected, or still pending when the timer fires. *)
Inductive InjectOutcome : Type :=
| InjectFulfilled
| InjectRejected (err : Thrown)
| InjectPending.

Record DaemonConfig : Type := mkDaemonConfig {
  cronScriptsEnabled : option bool
}.

(** The messages of [ctx.log], one constructor per template. *)
Inductive LogMessage : Type :=
| RunningCron (name session : string)            (* info *)
| CronScriptsDisabled (name : string)            (* info *)
| ExecutingScripts (count : Z) (name : string)   (* info *)
| ScriptsFailed (count : Z) (name : string)      (* warn *)
| Completed (name : string) (durationMs : Z)     (* info *)
| AutoRemoved (name : string)                    (* info *)
| CronError (name errorMsg : string).            (* error *)

Inductive Event : Type :=
| EvExec (command : string) (cwd : option string) (timeout : Z) (outcome : ExecOutcome)
| EvGetMainConfig (cfg : option DaemonConfig)
| EvInject (session message : string) (outcome : InjectOutcome)
| EvLog (msg : LogMessage)
| EvInsertRun (run : CronRunRow.t)
| EvDeleteJob (name : string) (wasPresent : bool).

Record Env : Type := mkEnv {
  env_newDate : nat -> Date.t;
  env_dateNow : nat -> Z;
  env_exec : nat -> string -> option string -> Z -> ExecOutcome;
  env_mainConfig : nat -> option DaemonConfig;
  env_inject : nat -> string -> string -> InjectOutcome;
  env_randomUUID : nat -> string
}.

Record World : Type := mkWorld {
  interactions : nat;
  jobsRepo : list CronJobRow.t;
  runsRepo : list CronRunRow.t;
  trace : list Event
}.

(** *** The state monad of the effects *)

Definition M (A : Type) : Type := World -> A * World.

Definition ret {A : Type} (a : A) : M A := fun w => (a, w).

Definition bind {A B : Type} (m : M A) (k : A -> M B) : M B :=
  fun w => let '(a, w') := m w in k a w'.

Notation "x <- m ;; k" := (bind m (fun x => k))
  (at level 100, m at next level, right associativity).
Notation "m ;;; k" := (bind m (fun _ => k))
  (at level 100, right associativity).

(** One more interaction that leaves no event (a reading of the clock),
    and one that leaves an event. *)
Definition advance (w : World) : World :=
  mkWorld (S (interactions w)) (jobsRepo w) (runsRepo w) (trace w).

Definition emit (ev : Event) (w : World) : World :=
  mkWorld (S (interactions w)) (jobsRepo w) (runsRepo w) (trace w ++ [ev]).

(** [new Date()] *)
Definition newDate (env : Env) : M Date.t :=
  fun w => (env_newDate env (interactions w), advance w).

(** [Date.now()] *)
Definition dateNow (env : Env) : M Z :=
  fun w => (env_dateNow env (interactions w), advance w).

(** [execAsync(command, { cwd, timeout, maxBuffer: 1024 * 1024 })] *)
Definition execAsync (env : Env) (command : string) (cwd : option string) (timeout : Z) : M ExecOutcome :=
  fun w => let outcome := env_exec env (interactions w) command cwd timeout in
           (outcome, emit (EvExec command cwd timeout outcome) w).

(** [ctx.getMainConfig("daemon")] *)
Definition getMainConfig_daemon (env : Env) : M (option DaemonConfig) :=
  fun w => let cfg := env_mainConfig env (interactions w) in
           (cfg, emit (EvGetMainConfig cfg) w).

(** The race of [ctx.inject(session, message, { from: "cron", silent: true })]
    against the timer of [CRON_TIMEOUT_MS]. *)
Definition inject_race (env : Env) (session message : string) : M InjectOutcome :=
  fun w => let outcome := env_inject env (interactions w) session message in
           (outcome, emit (EvInject session message outcome) w).

(** [ctx.log.info], [ctx.log.warn] and [ctx.log.error] *)
Definition log (msg : LogMessage) : M unit :=
  fun w => (tt, emit (EvLog msg) w).

(** *** The repository ([cron-repository.ts]) over the stores

    The stores are taken to be initialised and to answer every call. *)

(** [getCrons] *)
Definition getCrons : M (list CronJobRow.t) :=
  fun w => (jobsRepo w, w).

Definition has_name (name : string) (job : CronJobRow.t) : bool :=
  String.eqb (CronJobRow.name job) name.

(** [removeCron]: the row of that key is deleted; the answer tells whether
    there was one. *)
Definition removeCron (name : string) : M bool :=
  fun w => let wasPresent := existsb (has_name name) (jobsRepo w) in
           (wasPresent,
            mkWorld (S (interactions w))
                    (List.filter (fun job => negb (has_name name job)) (jobsRepo w))
                    (runsRepo w)
                    (trace w ++ [EvDeleteJob name wasPresent])).

(** [addCron]: insert, or replace the row of the same name. *)
Definition addCron (job : CronJobRow.t) : M unit :=
  fun w => let existing := existsb (has_name (CronJobRow.name job)) (jobsRepo w) in
           (tt,
            mkWorld (S (interactions w))
                    (if existing
                     then map (fun old => if has_name (CronJobRow.name job) old then job else old)
                              (jobsRepo w)
                     else jobsRepo w ++ [job])
                    (runsRepo w)
                    (trace w)).

(** A run before the store gives it an id. *)
Definition RunFields : Type := string -> CronRunRow.t.

(** [addCronRun]: the row gets a fresh id and is appended to the history. *)
Definition addCronRun (env : Env) (run : RunFields) : M unit :=
  fun w => let row := run (env_randomUUID env (interactions w)) in
           (tt,
            mkWorld (S (interactions w)) (jobsRepo w) (runsRepo w ++ [row])
                    (trace w ++ [EvInsertRun row])).

(** ** Script runner ([executeCronScript] and [executeCronScripts] of [cron.ts]) *)

Definition DEFAULT_SCRIPT_TIMEOUT : Z := 30000.
Definition MAX_SCRIPT_OUTPUT : Z := 50000.

(** [out.length > MAX_SCRIPT_OUTPUT ? `${out.substring(0, MAX_SCRIPT_OUTPUT)}\n... (truncated)` : out] *)
Definition truncate_output (out : string) : string :=
  if JS.length out >? MAX_SCRIPT_OUTPUT
  then JS.substring0 (Z.to_nat MAX_SCRIPT_OUTPUT) out +:+ JS.LF +:+ "... (truncated)"
  else out.

(** [script.cwd || undefined] *)
Definition cwd_option (cwd : option string) : option string :=
  match cwd with
  | Some dir => if JS.truthy_string dir then Some dir else None
  | None => None
  end.

(** The result built from what [execAsync] settled to: the [return] of the
    [try] block for a fulfilment, that of the [catch] block for a rejection. *)
Definition script_result (script : CronScript.t) (outcome : ExecOutcome) (durationMs : Z)
  : CronScriptResult.t :=
  match outcome with
  | ExecResolved stdout stderr =>
      CronScriptResult.mk (CronScript.name script) (ExitNumber 0)
        (truncate_output stdout) (truncate_output stderr) durationMs None
  | ExecRejected code stdout stderr message =>
      CronScriptResult.mk (CronScript.name script) (default (ExitNumber 1) code)
        (default "" stdout) (default "" stderr) durationMs message
  end.

Definition executeCronScript (env : Env) (script : CronScript.t) : M CronScriptResult.t :=
  let timeout := default DEFAULT_SCRIPT_TIMEOUT (CronScript.timeout script) in
  start <- dateNow env ;;
  outcome <- execAsync env (CronScript.command script) (cwd_option (CronScript.cwd script)) timeout ;;
  finish <- dateNow env ;;
  ret (script_result script outcome (finish - start)).

(** The loop [for (const script of scripts) results.push(await executeCronScript(script))]. *)
Fixpoint executeCronScripts_from (env : Env) (results : list CronScriptResult.t)
    (scripts : list CronScript.t) : M (list CronScriptResult.t) :=
  match scripts with
  | [] => ret results
  | script :: rest =>
      result <- executeCronScript env script ;;
      executeCronScripts_from env (results ++ [result]) rest
  end.

Definition executeCronScripts (env : Env) (scripts : list CronScript.t) : M (list CronScriptResult.t) :=
  executeCronScripts_from env [] scripts.

(** ** Tick scheduler ([createCronTickLoop] of [cron-tick.ts]) *)

Definition CRON_TIMEOUT_MS : Z := 5 * 60 * 1000.

(** Truthiness of an optional number and of an optional boolean. *)
Definition truthy_number (o : option Z) : bool :=
  match o with
  | Some z => negb (z =? 0)
  | None => false
  end.

Definition truthy_bool (o : option bool) : bool := default false o.

(** [Math.floor(nowTs / 60000)] *)
Definition minute_bucket (nowTs : Z) : Z := nowTs / 60000.

(** [lastRun] is a plain object used as a map from job names to minute
    buckets.  Its own properties are the buckets written by the loop; a
    name that was never written reads as [undefined], unless it is the
    name of a member that every object inherits from [Object.prototype],
    which reads as that member, a function or an object. *)
Definition Object_prototype_members : list string :=
  ["constructor"; "__defineGetter__"; "__defineSetter__"; "hasOwnProperty";
   "__lookupGetter__"; "__lookupSetter__"; "isPrototypeOf"; "propertyIsEnumerable";
   "toString"; "valueOf"; "__proto__"; "toLocaleString"].

Definition inherited_member (key : string) : bool :=
  existsb (String.eqb key) Object_prototype_members.

Inductive Member : Type :=
| MemberNumber (n : Z)
| MemberInherited
| MemberUndefined.

(** [lastRun[key]] *)
Definition lastRun_get (lastRun : gmap string Z) (key : string) : Member :=
  match lastRun !! key with
  | Some n => MemberNumber n
  | None => if inherited_member key then MemberInherited else MemberUndefined
  end.

(** [lastRun[key]] as a condition: a function or an object is truthy. *)
Definition fired (lastRun : gmap string Z) (key : string) : bool :=
  match lastRun_get lastRun key with
  | MemberNumber n => negb (n =? 0)
  | MemberInherited => true
  | MemberUndefined => false
  end.

(** [currentMinute > (lastRun[key] || 0)]: a function or an object is
    kept by [||] and compares as [NaN], so the test is false. *)
Definition later_than_last (lastRun : gmap string Z) (key : string) (currentMinute : Z) : bool :=
  match lastRun_get lastRun key with
  | MemberNumber n => n <? currentMinute
  | MemberInherited => false
  | MemberUndefined => 0 <? currentMinute
  end.

(** The value of [shouldExecute] for one job. *)
Definition shouldExecute (lastRun : gmap string Z) (now : Date.t) (cron : CronJobRow.t) : bool :=
  let key := CronJobRow.name cron in
  let nowTs := Date.getTime now in
  if truthy_number (CronJobRow.runAt cron)
  then (default 0 (CronJobRow.runAt cron) <=? nowTs) && negb (fired lastRun key)
  else
    let currentMinute := minute_bucket nowTs in
    later_than_last lastRun key currentMinute && shouldRunCron (CronJobRow.schedule cron) now.

(** [cfg?.cronScriptsEnabled] as a condition. *)
Definition scripts_enabled (cfg : option DaemonConfig) : bool :=
  match cfg with
  | Some c => truthy_bool (cronScriptsEnabled c)
  | None => false
  end.

(** The first part of the [try] block: the message to send and the results
    of the scripts, if they ran. *)
Definition prepare_message (env : Env) (cron : CronJobRow.t)
  : M (string * option (list CronScriptResult.t)) :=
  match CronJobRow.scripts cron with
  | Some ((_ :: _) as scripts) =>
      cfg <- getMainConfig_daemon env ;;
      if negb (scripts_enabled cfg)
      then log (CronScriptsDisabled (CronJobRow.name cron)) ;;;
           ret (CronJobRow.message cron, None)
      else
        log (ExecutingScripts (Z.of_nat (List.length scripts)) (CronJobRow.name cron)) ;;;
        scriptResults <- executeCronScripts env scripts ;;
        let resolvedMessage := resolveScriptTemplates (CronJobRow.message cron) scriptResults in
        let failedScripts :=
          List.filter (fun r => JS.truthy_opt_string (CronScriptResult.error r)) scriptResults in
        (if 0 <? Z.of_nat (List.length failedScripts)
         then log (ScriptsFailed (Z.of_nat (List.length failedScripts)) (CronJobRow.name cron))
         else ret tt) ;;;
        ret (resolvedMessage, Some scriptResults)
  | _ => ret (CronJobRow.message cron, None)
  end.

(** [err instanceof Error ? err.message : String(err)] *)
Definition error_message (err : Thrown) : string :=
  match err with
  | ThrownError message => message
  | ThrownOther asString => asString
  end.

(** The error of the timer: [CRON_TIMEOUT_MS / 1000] prints as [300]. *)
Definition timeout_error (name : string) : Thrown :=
  ThrownError ("Cron job '" +:+ name +:+ "' timed out after 300s").

(** The [catch] block. *)
Definition record_failure (env : Env) (cron : CronJobRow.t) (startTime : Z) (err : Thrown) : M unit :=
  finish <- dateNow env ;;
  let durationMs := finish - startTime in
  let errorMsg := error_message err in
  log (CronError (CronJobRow.name cron) errorMsg) ;;;
  addCronRun env (fun id =>
    CronRunRow.mk id (CronJobRow.name cron) (CronJobRow.session cron) startTime failure
                  durationMs (Some errorMsg) (CronJobRow.message cron) None).

(** The end of the [try] block, after the race is won by the delivery;
    the value is [toRemove] as it is left. *)
Definition record_success (env : Env) (cron : CronJobRow.t) (startTime : Z)
    (resolvedMessage : string) (scriptResults : option (list CronScriptResult.t))
    (toRemove : list string) : M (list string) :=
  finish <- dateNow env ;;
  let durationMs := finish - startTime in
  log (Completed (CronJobRow.name cron) durationMs) ;;;
  addCronRun env (fun id =>
    CronRunRow.mk id (CronJobRow.name cron) (CronJobRow.session cron) startTime success
                  durationMs None resolvedMessage scriptResults) ;;;
  if truthy_bool (CronJobRow.once cron)
  then log (AutoRemoved (CronJobRow.name cron)) ;;;
       ret (toRemove ++ [CronJobRow.name cron])
  else ret toRemove.

(** The body of [if (shouldExecute)] after the mark in [lastRun]; the
    value is [toRemove] as the body leaves it.  Releasing the timer in
    [finally] leaves no event. *)
Definition execute_cron (env : Env) (cron : CronJobRow.t) (toRemove : list string)
  : M (list string) :=
  log (RunningCron (CronJobRow.name cron) (CronJobRow.session cron)) ;;;
  startTime <- dateNow env ;;
  prepared <- prepare_message env cron ;;
  outcome <- inject_race env (CronJobRow.session cron) prepared.1 ;;
  match outcome with
  | InjectFulfilled =>
      record_success env cron startTime prepared.1 prepared.2 toRemove
  | InjectRejected err =>
      record_failure env cron startTime err ;;;
      ret toRemove
  | InjectPending =>
      record_failure env cron startTime (timeout_error (CronJobRow.name cron)) ;;;
      ret toRemove
  end.

(** What the loop over the jobs carries: the map of the closure and the
    names queued for removal. *)
Record TickState : Type := mkTickState {
  lastRun : gmap string Z;
  toRemove : list string
}.

(** One turn of [for (const cron of crons)]. *)
Definition tick_cron (env : Env) (now : Date.t) (st : TickState) (cron : CronJobRow.t)
  : M TickState :=
  if shouldExecute (lastRun st) now cron
  then
    let marked := <[CronJobRow.name cron := minute_bucket (Date.getTime now)]> (lastRun st) in
    queued <- execute_cron env cron (toRemove st) ;;
    ret (mkTickState marked queued)
  else ret st.

Fixpoint tick_crons (env : Env) (now : Date.t) (st : TickState) (crons : list CronJobRow.t)
  : M TickState :=
  match crons with
  | [] => ret st
  | cron :: rest =>
      st' <- tick_cron env now st cron ;;
      tick_crons env now st' rest
  end.

(** [for (const name of toRemove) await removeCron(name)] *)
Fixpoint remove_crons (names : list string) : M unit :=
  match names with
  | [] => ret tt
  | name :: rest => removeCron name ;;; remove_crons rest
  end.

(** The tick, given the reading [now] of the clock it starts with. *)
Definition cronTick_at (env : Env) (now : Date.t) (lastRun0 : gmap string Z)
  : M (gmap string Z) :=
  crons <- getCrons ;;
  st <- tick_crons env now (mkTickState lastRun0 []) crons ;;
  (if 0 <? Z.of_nat (List.length (toRemove st)) then remove_crons (toRemove st) else ret tt) ;;;
  ret (lastRun st).

(** The function returned by [createCronTickLoop]; the map of its closure
    is passed in and returned. *)
Definition cronTick (env : Env) (lastRun0 : gmap string Z) : M (gmap string Z) :=
  now <- newDate env ;;
  cronTick_at env now lastRun0.

(** [createCronTickLoop]: the closure starts with an empty map. *)
Definition createCronTickLoop : gmap string Z := ∅.

(** *** Runs of the scheduler

    Between ticks the administrative surface may add and remove jobs.  A
    run keeps, for every tick, the reading of the clock and the events of
    that tick. *)

Inductive Step : Type :=
| StepTick
| StepAddCron (job : CronJobRow.t)
| StepRemoveCron (name : string).

Record TickReport : Type := mkTickReport {
  report_now : Date.t;
  report_events : list Event
}.

Definition restart_trace (w : World) : World :=
  mkWorld (interactions w) (jobsRepo w) (runsRepo w) [].

Fixpoint run (env : Env) (steps : list Step) (lastRun0 : gmap string Z) (w : World)
  : list TickReport * gmap string Z * World :=
  match steps with
  | [] => ([], lastRun0, w)
  | StepTick :: rest =>
      let now := env_newDate env (interactions w) in
      let '(lastRun1, w1) := cronTick env lastRun0 (restart_trace w) in
      let '(reports, lastRun2, w2) := run env rest lastRun1 w1 in
      (mkTickReport now (trace w1) :: reports, lastRun2, w2)
  | StepAddCron job :: rest => run env rest lastRun0 (snd (addCron job w))
  | StepRemoveCron name :: rest => run env rest lastRun0 (snd (removeCron name w))
  end.

(** How many times the job [name] was started among some events. *)
Definition started (name : string) (events : list Event) : nat :=
  List.length (List.filter (fun ev => match ev with
                                      | EvLog (RunningCron n _) => String.eqb n name
                                      | _ => false
                                      end) events).

(** The reading [ts] of the clock falls in the minute numbered [minute]
    from the epoch. *)
Definition in_minute (minute ts : Z) : bool :=
  (60000 * minute <=? ts) && (ts <? 60000 * (minute + 1)).

(** How many times the job [name] was started in the ticks of a run whose
    clock read a time of the minute [minute]. *)
Fixpoint started_in_minute (name : string) (minute : Z) (reports : list TickReport) : nat :=
  match reports with
  | [] => 0
  | r :: rest =>
      Nat.add (if in_minute minute (Date.getTime (report_now r))
               then started name (report_events r) else O)
              (started_in_minute name minute rest)
  end.

(** ** Readings of the specification, and inputs of the examples *)

(** What the specification says of two results of one name: the text of
    the later one is what the token is replaced by. *)
Definition later_result_wins (m : string) (r1 r2 : CronScriptResult.t) : Prop :=
  resolveScriptTemplates m [r1; r2] = resolve_step m r2.

Definition result_A : CronScriptResult.t := CronScriptResult.mk "x" (ExitNumber 0) "A" "" 1 None.
Definition result_B : CronScriptResult.t := CronScriptResult.mk "x" (ExitNumber 0) "B" "" 1 None.

Definition result_42 : CronScriptResult.t :=
  CronScriptResult.mk "x" (ExitNumber 0) ("42" +:+ JS.LF) "" 10 None.

(** The event that running a script leaves, given what the process
    settled to. *)
Definition exec_event (script : CronScript.t) (outcome : ExecOutcome) : Event :=
  EvExec (CronScript.command script) (cwd_option (CronScript.cwd script))
         (default DEFAULT_SCRIPT_TIMEOUT (CronScript.timeout script)) outcome.

(** What the environment answers to the script of index [i] of a list
    that starts in a world with [n] interactions made: every script before
    it has made three, a reading of the clock, the call of [execAsync] and
    a reading of the clock. *)
Definition script_outcome (env : Env) (n i : nat) (script : CronScript.t) : ExecOutcome :=
  env_exec env (S (n + 3 * i)) (CronScript.command script)
           (cwd_option (CronScript.cwd script))
           (default DEFAULT_SCRIPT_TIMEOUT (CronScript.timeout script)).

(** The time between the two readings of the clock around that script. *)
Definition script_duration (env : Env) (n i : nat) : Z :=
  env_dateNow env (S (S (n + 3 * i))) - env_dateNow env (n + 3 * i).

(** Readings of a trace: the commands run, the messages delivered, the
    runs recorded and the jobs deleted, each in the order of the trace. *)
Definition executed (events : list Event) : list string :=
  flat_map (fun ev => match ev with EvExec command _ _ _ => [command] | _ => [] end) events.

Definition delivered (events : list Event) : list (string * string * InjectOutcome) :=
  flat_map (fun ev => match ev with
                      | EvInject session message outcome => [(session, message, outcome)]
                      | _ => []
                      end) events.

Definition recorded (events : list Event) : list CronRunRow.t :=
  flat_map (fun ev => match ev with EvInsertRun run => [run] | _ => [] end) events.

Definition deleted (events : list Event) : list string :=
  flat_map (fun ev => match ev with EvDeleteJob name _ => [name] | _ => [] end) events.

(** An environment that answers every interaction of a kind the same way. *)
Definition constant_env (now : Date.t) (exec : ExecOutcome) (cfg : option DaemonConfig)
    (delivery : InjectOutcome) : Env :=
  mkEnv (fun _ => now) (fun _ => Date.getTime now) (fun _ _ _ _ => exec) (fun _ => cfg)
        (fun _ _ _ => delivery) (fun _ => "00000000-0000-4000-8000-000000000000").

Definition empty_world : World := mkWorld 0 [] [] [].

Fixpoint repeat_string (c : ascii) (n : nat) : string :=
  match n with
  | O => EmptyString
  | S k => String c (repeat_string c k)
  end.

(** A script that prints 50,001 characters and exits with the code 1. *)
Definition long_output : string := repeat_string "a" (Z.to_nat 50001).
Definition failing_script : CronScript.t :=
  CronScript.mk "big" "head -c 50001 /dev/zero | tr '\\0' a; exit 1" None None.
Definition failing_outcome : ExecOutcome :=
  ExecRejected (Some (ExitNumber 1)) (Some long_output) (Some "") (Some "Command failed").
Definition failing_env : Env :=
  constant_env (Date.mk 0 0 0 1 0 4) failing_outcome None InjectFulfilled.

Definition is_fulfilled (outcome : InjectOutcome) : bool :=
  match outcome with
  | InjectFulfilled => true
  | _ => false
  end.

(** The jobs that a tick attempts, in the order of the list: the decision
    for a job is taken with the marks of the jobs before it. *)
Fixpoint due_jobs (now : Date.t) (lastRun0 : gmap string Z) (crons : list CronJobRow.t)
  : list CronJobRow.t :=
  match crons with
  | [] => []
  | cron :: rest =>
      if shouldExecute lastRun0 now cron
      then cron :: due_jobs now (<[CronJobRow.name cron := minute_bucket (Date.getTime now)]> lastRun0) rest
      else due_jobs now lastRun0 rest
  end.

(** The map of the closure after the loop over the jobs. *)
Fixpoint marks (now : Date.t) (lastRun0 : gmap string Z) (crons : list CronJobRow.t)
  : gmap string Z :=
  match crons with
  | [] => lastRun0
  | cron :: rest =>
      if shouldExecute lastRun0 now cron
      then marks now (<[CronJobRow.name cron := minute_bucket (Date.getTime now)]> lastRun0) rest
      else marks now lastRun0 rest
  end.

Definition is_success (s : RunStatus) : bool :=
  match s with
  | success => true
  | failure => false
  end.

(** The names that a list of attempts, each a job with the run it
    recorded, queues for removal: those of the one-time jobs whose run is
    a success. *)
Definition queued (attempts : list (CronJobRow.t * CronRunRow.t)) : list string :=
  flat_map (fun a => if truthy_bool (CronJobRow.once a.1) && is_success (CronRunRow.status a.2)
                     then [CronJobRow.name a.1] else []) attempts.

(** The store without the jobs of some names. *)
Definition without (names : list string) (jobs : list CronJobRow.t) : list CronJobRow.t :=
  List.filter (fun job => negb (existsb (String.eqb (CronJobRow.name job)) names)) jobs.

(** A one-time job whose time has passed, and a delivery that is rejected. *)
Definition once_job : CronJobRow.t :=
  CronJobRow.mk "once-1" "once" "main" "one-time" None (Some true) (Some 1700000000000).

Definition a_date : Date.t := Date.mk 1700000060000 14 22 14 10 2.

Definition rejecting_env : Env :=
  constant_env a_date (ExecResolved ("42" +:+ JS.LF) "")
               (Some (mkDaemonConfig (Some true)))
               (InjectRejected (ThrownError "injection failed")).

Definition world_with (jobs : list CronJobRow.t) : World := mkWorld 0 jobs [] [].

(** A job with a script, every minute. *)
Definition script_job : CronJobRow.t :=
  CronJobRow.mk "report" "* * * * *" "main" "Result: {{x}}"
                (Some [CronScript.mk "x" "echo 42" None None]) None None.

(** The configuration is absent, or its flag is not [true]. *)
Definition flag_not_true (cfg : option DaemonConfig) : Prop :=
  match cfg with
  | None => True
  | Some c => cronScriptsEnabled c <> Some true
  end.

Definition silent_env : Env :=
  constant_env a_date (ExecResolved ("42" +:+ JS.LF) "") None InjectFulfilled.

(** A job of every minute whose name is that of an inherited member. *)
Definition constructor_job : CronJobRow.t :=
  CronJobRow.mk "constructor" "* * * * *" "main" "hello" None None None.

(** A job is recurring when [cron.runAt] is not taken as set. *)
Definition recurring (job : CronJobRow.t) : Prop :=
  truthy_number (CronJobRow.runAt job) = false.

(** Every job of the name [k] that a run meets, in the store it starts
    with or added on the way, is recurring. *)
Definition recurring_name (k : string) (steps : list Step) (w : World) : Prop :=
  (forall job, In job (jobsRepo w) -> CronJobRow.name job = k -> recurring job)
  /\ (forall job, In (StepAddCron job) steps -> CronJobRow.name job = k -> recurring job).

(** *** The grammar of schedules in the words of the specification

    "A schedule string must have exactly 5 whitespace-separated fields";
    "accepted forms per field: [*], [*/N] (N > 0), [a,b,c] (explicit
    list), [a-b] (inclusive range, a <= b), or a single integer", every
    value within the bounds of the field.  An integer is read as a numeral
    of decimal digits. *)

Definition spec_is_whitespace (c : ascii) : bool :=
  match c with
  | "009" | "010" | "011" | "012" | "013" | " " => true
  | _ => false
  end%char.

(** The fields of a string: its maximal runs of characters that are not
    white space.  [cur] is the field being read, if one is. *)
Fixpoint spec_fields_from (cur : option string) (s : string) : list string :=
  match s with
  | EmptyString => match cur with Some f => [f] | None => [] end
  | String c s' =>
      if spec_is_whitespace c
      then match cur with
           | Some f => f :: spec_fields_from None s'
           | None => spec_fields_from None s'
           end
      else spec_fields_from (Some (default EmptyString cur +:+ String c EmptyString)) s'
  end.

Definition spec_fields (s : string) : list string := spec_fields_from None s.

Definition is_digit (c : ascii) : bool :=
  let n := nat_of_ascii c in (48 <=? n)%nat && (n <=? 57)%nat.

Fixpoint numeral_from (acc : Z) (s : string) : option Z :=
  match s with
  | EmptyString => Some acc
  | String c s' =>
      if is_digit c
      then numeral_from (10 * acc + (Z.of_nat (nat_of_ascii c) - 48)) s'
      else None
  end.

(** The value of a numeral: a string of decimal digits that is not empty. *)
Definition numeral (s : string) : option Z :=
  match s with
  | EmptyString => None
  | String _ _ => numeral_from 0 s
  end.

Inductive spec_field (min max : Z) : string -> Prop :=
| field_any : spec_field min max "*"
| field_step (ds : string) (n : Z) :
    numeral ds = Some n -> 0 < n ->
    spec_field min max ("*/" +:+ ds)
| field_list (items : list string) :
    (2 <= length items)%nat ->
    Forall (fun ds => exists v, numeral ds = Some v /\ min <= v <= max) items ->
    spec_field min max (JS.join "," items)
| field_range (a b : string) (va vb : Z) :
    numeral a = Some va -> numeral b = Some vb ->
    min <= va -> va <= vb -> vb <= max ->
    spec_field min max (a +:+ "-" +:+ b)
| field_single (ds : string) (v : Z) :
    numeral ds = Some v -> min <= v <= max ->
    spec_field min max ds.

Definition spec_valid_fields (f0 f1 f2 f3 f4 : string) : Prop :=
  spec_field 0 59 f0 /\ spec_field 0 23 f1 /\ spec_field 1 31 f2
  /\ spec_field 1 12 f3 /\ spec_field 0 6 f4.

(** A schedule that the specification accepts. *)
Definition spec_valid_schedule (s : string) : Prop :=
  exists f0 f1 f2 f3 f4,
    spec_fields s = [f0; f1; f2; f3; f4] /\ spec_valid_fields f0 f1 f2 f3 f4.

Definition TAB : string := String "009"%char "".

(** Five valid fields separated by tabs, and by two spaces. *)
Definition tab_separated : string := "*" +:+ TAB +:+ "*" +:+ TAB +:+ "*" +:+ TAB +:+ "*" +:+ TAB +:+ "*".
Definition double_spaced : string := "0  *  *  *  *".

(** Schedules whose first field is not of the grammar: a numeral followed
    by letters, and a range without its first value. *)
Definition trailing_text : string := "5abc * * * *".
Definition open_range : string := "-5 * * * *".

(** 2023-11-14, a Tuesday, at 22:05:20. *)
Definition five_past : Date.t := Date.mk 1699999520000 5 22 14 10 2.

(** The least integer that rounds to an infinite number:
    [2^1024 - 2^970]. *)
Definition OVERFLOW : Z := 2 ^ 1024 - 2 ^ 970.

(** The step of a field, if it has one, is below [OVERFLOW]. *)
Definition step_is_finite (field : string) : Prop :=
  forall ds n, field = "*/" +:+ ds -> numeral ds = Some n -> n < OVERFLOW.

(** Five fields joined by single spaces. *)
Definition single_spaced (f0 f1 f2 f3 f4 : string) : string :=
  f0 +:+ " " +:+ f1 +:+ " " +:+ f2 +:+ " " +:+ f3 +:+ " " +:+ f4.

(** Every character of a string passes a test; no character of a string
    is a given one. *)
Fixpoint string_forall (p : ascii -> bool) (s : string) : bool :=
  match s with
  | EmptyString => true
  | String c s' => p c && string_forall p s'
  end.

Definition no_char (c : ascii) (s : string) : bool :=
  string_forall (fun x => negb (Ascii.eqb x c)) s.

Definition starts_with_digit (f : string) : Prop :=
  exists c s, f = String c s /\ is_digit c = true.

(** A step of 310 digits: [1] and 309 zeros. *)
Definition huge_step : string := "*/1" +:+ repeat_string "0" 309.

(** ** Fields as they are written, and the values they stand for

    A field of the grammar as a term: its numerals are kept as they are
    written. *)



(** The values of a list of numerals, each within the bounds. *)
Fixpoint numerals_in (min max : Z) (items : list string) : option (list Z) :=
  match items with
  | [] => Some []
  | ds :: rest =>
      match numeral ds, numerals_in min max rest with
      | Some v, Some vs => if (min <=? v) && (v <=? max) then Some (v :: vs) else None
      | _, _ => None
      end
  end.



(** The first value of a list of numerals that is outside the bounds. *)
Fixpoint first_outside (min max : Z) (items : list string) : option Z :=
  match items with
  | [] => None
  | ds :: rest =>
      match numeral ds with
      | Some v => if (min <=? v) && (v <=? max) then first_outside min max rest else Some v
      | None => None
      end
  end.

(** Bounds of a field: not negative, in order, and with room below
    [2^53], as those of the five fields are. *)
Definition field_bounds (min max : Z) : Prop :=
  0 <= min /\ min <= max /\ max + 1 < 2 ^ 53.


(** What may follow the digits and still be passed over by [parseInt]:
    nothing, or text that does not start with a digit. *)
Definition starts_without_digit (rest : string) : bool :=
  match rest with
  | EmptyString => true
  | String c _ => negb (is_digit c)
  end.

Definition MARKER : string := "... (truncated)".

(** A job is a one-time job when [cron.runAt] is taken as set. *)
Definition one_time (job : CronJobRow.t) : Prop :=
  truthy_number (CronJobRow.runAt job) = true.

(** Every job of the name [k] that a run meets is a one-time job. *)
Definition one_time_name (k : string) (steps : list Step) (w : World) : Prop :=
  (forall job, In job (jobsRepo w) -> CronJobRow.name job = k -> one_time job)
  /\ (forall job, In (StepAddCron job) steps -> CronJobRow.name job = k -> one_time job).

(** How many times the job [name] was started in the ticks of a run. *)
Fixpoint started_total (name : string) (reports : list TickReport) : nat :=
  match reports with
  | [] => O
  | r :: rest => Nat.add (started name (report_events r)) (started_total name rest)
  end.

(** The error recorded for a delivery that was not fulfilled. *)
Definition delivery_error (name : string) (outcome : InjectOutcome) : option string :=
  match outcome with
  | InjectFulfilled => None
  | InjectRejected err => Some (error_message err)
  | InjectPending => Some ("Cron job '" +:+ name +:+ "' timed out after 300s")
  end.

(** The runs of the history recorded for the job [name]. *)
Definition run_of (name : string) (r : CronRunRow.t) : bool :=
  String.eqb (CronRunRow.cronName r) name.

(** A job that is recurring and whose schedule [parseCronSchedule]
    refuses. *)
Definition unschedulable (job : CronJobRow.t) : Prop :=
  recurring job
  /\ match parseCronSchedule (CronJobRow.schedule job) with
     | Throw _ => True
     | Return _ => False
     end.

(** Every job of the name [k] that a run meets is unschedulable. *)
Definition unschedulable_name (k : string) (steps : list Step) (w : World) : Prop :=
  (forall job, In job (jobsRepo w) -> CronJobRow.name job = k -> unschedulable job)
  /\ (forall job, In (StepAddCron job) steps -> CronJobRow.name job = k -> unschedulable job).

Definition bad_schedule_job : CronJobRow.t :=
  CronJobRow.mk "nightly" "0 24 * * *" "main" "report" None None None.

(** ** The repository: one job by its name ([getCron] of [cron-repository.ts]) *)

(** [jobsRepo.findById(name)] *)
Definition getCron (name : string) : M (option CronJobRow.t) :=
  fun w => (List.find (has_name name) (jobsRepo w), w).

(** ** The tool [cron_cancel] ([buildCronA2ATools] of [cron-a2a-tools.ts]) *)

Record ToolResult : Type := mkToolResult {
  result_text : string;
  isError : bool
}.

Definition cron_cancel (name : string) : M ToolResult :=
  removed <- removeCron name ;;
  if negb removed
  then ret (mkToolResult ("Cron job '" +:+ name +:+ "' not found") true)
  else ret (mkToolResult ("Cron job '" +:+ name +:+ "' cancelled") false).

(** ** The arguments of [wopr cron add] ([cronCommandHandler] of [cron-commands.ts]) *)

Record AddFlags : Type := mkAddFlags {
  flag_now : bool;
  flag_once : bool;
  scriptsFile : option string
}.

(** The callback of [rest.filter((a, i) => ...)], called on the elements
    [todo] that start at the index [i] of [rest]; the flags it writes are
    threaded through. *)
Fixpoint filter_args (rest : list string) (i : nat) (todo : list string) (flags : AddFlags)
  : list string * AddFlags :=
  match todo with
  | [] => ([], flags)
  | a :: todo' =>
      if String.eqb a "--now"
      then filter_args rest (S i) todo' (mkAddFlags true (flag_once flags) (scriptsFile flags))
      else if String.eqb a "--once"
      then filter_args rest (S i) todo' (mkAddFlags (flag_now flags) true (scriptsFile flags))
      else if String.eqb a "--scripts-file" && JS.truthy_opt_string (rest !! S i)
      then filter_args rest (S i) todo' (mkAddFlags (flag_now flags) (flag_once flags) (rest !! S i))
      else if (0 <? i)%nat
              && match rest !! pred i with
                 | Some b => String.eqb b "--scripts-file"
                 | None => false
                 end
      then filter_args rest (S i) todo' flags
      else let '(kept, flags') := filter_args rest (S i) todo' flags in (a :: kept, flags')
  end.

(** [filtered] and [flags] after the filter. *)
Definition add_filter (rest : list string) : list string * AddFlags :=
  filter_args rest 0 rest (mkAddFlags false false None).

(** The two switches of the subcommand. *)
Definition is_switch (a : string) : bool := String.eqb a "--now" || String.eqb a "--once".

Definition is_scripts_file (a : string) : bool := String.eqb a "--scripts-file".

(** The same filter with the neighbours of an argument read from the list
    itself: [prev] is the argument before [todo], if there is one. *)
Fixpoint filter_words (prev : option string) (todo : list string) (flags : AddFlags)
  : list string * AddFlags :=
  match todo with
  | [] => ([], flags)
  | a :: todo' =>
      if String.eqb a "--now"
      then filter_words (Some a) todo' (mkAddFlags true (flag_once flags) (scriptsFile flags))
      else if String.eqb a "--once"
      then filter_words (Some a) todo' (mkAddFlags (flag_now flags) true (scriptsFile flags))
      else if String.eqb a "--scripts-file" && JS.truthy_opt_string (head todo')
      then filter_words (Some a) todo' (mkAddFlags (flag_now flags) (flag_once flags) (head todo'))
      else if match prev with
              | Some b => String.eqb b "--scripts-file"
              | None => false
              end
      then filter_words (Some a) todo' flags
      else let '(kept, flags') := filter_words (Some a) todo' flags in (a :: kept, flags')
  end.

(** The word [word] is among the arguments. *)
Definition has_word (word : string) (args : list string) : bool :=
  existsb (String.eqb word) args.

(** None of the arguments is [--scripts-file]. *)
Definition no_scripts_file (args : list string) : Prop :=
  forall a, In a args -> a <> "--scripts-file".

(** ** Time specifications ([parseTimeSpec] of [cron.ts]) *)

(** [x * y] *)
Definition Number_mul (x y : Number.t) : Number.t :=
  match x, y with
  | Number.NaN, _ | _, Number.NaN => Number.NaN
  | Number.Inf nx, Number.Inf ny => Number.Inf (xorb nx ny)
  | Number.Inf nx, Number.Fin n _ => if n =? 0 then Number.NaN else Number.Inf (xorb nx (n <? 0))
  | Number.Fin n _, Number.Inf ny => if n =? 0 then Number.NaN else Number.Inf (xorb (n <? 0) ny)
  | Number.Fin n1 k1, Number.Fin n2 k2 => Number.of_ratio (n1 * n2) (2 ^ Z.of_nat (k1 + k2))
  end.

(** [Number.isNaN(x)] *)
Definition Number_isNaN (x : Number.t) : bool :=
  match x with
  | Number.NaN => true
  | _ => false
  end.

(** What [parseTimeSpec] asks of the runtime: the clock, the local time
    of today at an hour and a minute ([new Date()] after [setHours(h, m,
    0, 0)]), the same time a day later (after [setDate(getDate() + 1)]),
    and [Date.parse]. *)
Record Clock : Type := mkClock {
  clock_now : Z;
  clock_today_at : Number.t -> Number.t -> Number.t;
  clock_next_day : Number.t -> Number.t;
  clock_parse : string -> Number.t
}.

(** The units [s], [m], [h] and [d], and the milliseconds of each. *)
Definition is_unit (c : ascii) : bool :=
  Ascii.eqb c "s" || Ascii.eqb c "m" || Ascii.eqb c "h" || Ascii.eqb c "d".

Definition unit_ms (c : ascii) : Z :=
  if Ascii.eqb c "s" then 1000
  else if Ascii.eqb c "m" then 60000
  else if Ascii.eqb c "h" then 3600000
  else 86400000.

(** The longest prefix of digits of a string, and what follows it. *)
Fixpoint leading_digits (s : string) : string * string :=
  match s with
  | EmptyString => (EmptyString, EmptyString)
  | String c s' =>
      if is_digit c
      then let '(ds, rest) := leading_digits s' in (String c ds, rest)
      else (EmptyString, s)
  end.

(** [spec.match(/^\+(\d+)([smhd])$/)]: the two groups of a match. *)
Definition match_relative (spec : string) : option (string * ascii) :=
  match spec with
  | String "+" body =>
      match leading_digits body with
      | (String d ds, String u EmptyString) =>
          if is_unit u then Some (String d ds, u) else None
      | _ => None
      end
  | _ => None
  end.

(** [/^\d{10,13}$/.test(spec)] *)
Definition test_epoch (spec : string) : bool :=
  string_forall is_digit spec
  && (10 <=? String.length spec)%nat && (String.length spec <=? 13)%nat.

(** [/^\d{1,2}:\d{2}$/.test(spec)] *)
Definition test_clock (spec : string) : bool :=
  match leading_digits spec with
  | (hh, String ":" (String m1 (String m2 EmptyString))) =>
      (1 <=? String.length hh)%nat && (String.length hh <=? 2)%nat && is_digit m1 && is_digit m2
  | _ => false
  end.

Definition parseTimeSpec (clock : Clock) (spec : string) : Completion string Number.t :=
  let now := Number.of_Z (clock_now clock) in
  if String.eqb spec "now" then Return now
  else
    match (if JS.startsWith "+" spec then match_relative spec else None) with
    | Some (digits, unit) =>
        let val := Number.parseInt10 digits in
        let mult := Number.int (unit_ms unit) in
        Return (Number.add now (Number_mul val mult))
    | None =>
        if test_epoch spec then
          let ts := Number.parseInt10 spec in
          Return (if Number.ltb ts (Number.int (10 ^ 12))
                  then Number_mul ts (Number.int 1000) else ts)
        else if test_clock spec then
          let parts := map Number.of_string (JS.split ":" spec) in
          let d := clock_today_at clock (nth 0 parts Number.NaN) (nth 1 parts Number.NaN) in
          Return (if Number.ltb d now then clock_next_day clock d else d)
        else
          let parsed := clock_parse clock spec in
          if negb (Number_isNaN parsed) then Return parsed
          else Throw ("Invalid time spec: " +:+ spec)
    end.

(** A clock at 2023-11-14T22:13:20Z that knows no other form of time. *)
Definition a_clock : Clock :=
  mkClock 1700000000000 (fun _ _ => Number.NaN) (fun d => d) (fun _ => Number.NaN).

(** A text to put in place of a token that cannot make the token anew:
    it is not empty, it has no brace, and it does not occur in the
    token. *)
Definition fresh_text (token text : string) : Prop :=
  text <> ""
  /\ no_char "{" text = true /\ no_char "}" text = true
  /\ JS.includes text token = false.

(** * Properties *)

(** ** Strings *)

Section Strings.

Lemma append_cons (x : ascii) (a b : string) : String x a +:+ b = String x (a +:+ b).
Proof. reflexivity. Qed.

Lemma append_empty_r (s : string) : s +:+ "" = s.
Proof. induction s as [|c s IH]; [reflexivity|]. by rewrite append_cons, IH. Qed.

Lemma append_assoc (a b c : string) : (a +:+ b) +:+ c = a +:+ (b +:+ c).
Proof. induction a as [|x a IH]; [reflexivity|]. by rewrite !append_cons, IH. Qed.

(** Where the separator does not occur, [split] gives the string back
    as its only piece. *)
Lemma split_from_absent (sep s : string) :
  JS.includes sep s = false -> JS.split_from sep 0 s = [s].
Proof.
  induction s as [|c s IH]; intros H; [reflexivity|].
  cbn [JS.includes] in H. apply orb_false_iff in H as [Hp Hs].
  cbn [JS.split_from]. rewrite Hp, (IH Hs). reflexivity.
Qed.

Lemma includes_empty (s : string) : JS.includes "" s = true.
Proof. destruct s; reflexivity. Qed.

Lemma split_absent (sep s : string) :
  JS.includes sep s = false -> JS.split sep s = [s].
Proof.
  intros H. destruct sep as [|c sep].
  - rewrite includes_empty in H. discriminate.
  - apply split_from_absent, H.
Qed.

End Strings.

(** ** Template resolver *)

Section Templates.

Implicit Types (m s : string) (r : CronScriptResult.t) (rs : list CronScriptResult.t).

Lemma resolve_step_absent s r :
  JS.includes (placeholder r) s = false -> resolve_step s r = s.
Proof. intros H. unfold resolve_step. by rewrite (split_absent _ _ H). Qed.

Lemma resolve_app m rs1 rs2 :
  resolveScriptTemplates m (rs1 ++ rs2)
  = resolveScriptTemplates (resolveScriptTemplates m rs1) rs2.
Proof. apply fold_left_app. Qed.

Lemma resolve_cons m r rs :
  resolveScriptTemplates m (r :: rs) = resolveScriptTemplates (resolve_step m r) rs.
Proof. reflexivity. Qed.

(** A string in which no token of the results occurs is left as it is. *)
Lemma resolve_fixed rs : forall s,
  (forall r, In r rs -> JS.includes (placeholder r) s = false) ->
  resolveScriptTemplates s rs = s.
Proof.
  induction rs as [|r rs IH]; intros s H; [reflexivity|].
  rewrite resolve_cons, resolve_step_absent by (apply H; left; reflexivity).
  apply IH. intros r' Hr'. apply H. right. exact Hr'.
Qed.

Lemma placeholder_same_name r1 r2 :
  CronScriptResult.name r1 = CronScriptResult.name r2 -> placeholder r1 = placeholder r2.
Proof. unfold placeholder. by intros ->. Qed.

End Templates.

(** C2, as stated, fails: with the message [{{x}}] and two results named
    [x] with the outputs [A] and [B], the resolved text is [A], the output
    of the first result; the text of the second one would give [B]. *)
Lemma C2_first_result_wins_counterexample :
  CronScriptResult.name result_A = CronScriptResult.name result_B
  /\ resolveScriptTemplates "{{x}}" [result_A; result_B] = "A"
  /\ resolve_step "{{x}}" result_B = "B"
  /\ ~ later_result_wins "{{x}}" result_A result_B.
Proof.
  repeat split. unfold later_result_wins. vm_compute. discriminate.
Qed.

(** C9: when the resolved text holds no token of any result, resolving it
    again gives the same text. *)
Theorem C9_resolve_idempotent (m : string) (results : list CronScriptResult.t) :
  (forall r, In r results ->
             JS.includes (placeholder r) (resolveScriptTemplates m results) = false) ->
  resolveScriptTemplates (resolveScriptTemplates m results) results
  = resolveScriptTemplates m results.
Proof. intros H. apply resolve_fixed, H. Qed.

Lemma C9_resolve_idempotent_witness :
  resolveScriptTemplates (resolveScriptTemplates "Result: {{x}}" [result_42]) [result_42]
  = resolveScriptTemplates "Result: {{x}}" [result_42].
Proof.
  apply (C9_resolve_idempotent "Result: {{x}}" [result_42]).
  intros r [<- | []]. reflexivity.
Defined.

(** ** Script runner *)

Lemma bind_eq {A B : Type} (m : M A) (k : A -> M B) (w : World) :
  bind m k w = k (m w).1 (m w).2.
Proof. unfold bind. by destruct (m w). Qed.

Section Scripts.

Variable env : Env.

Lemma executeCronScript_eq (script : CronScript.t) (w : World) :
  let i := interactions w in
  let outcome := env_exec env (S i) (CronScript.command script)
                   (cwd_option (CronScript.cwd script))
                   (default DEFAULT_SCRIPT_TIMEOUT (CronScript.timeout script)) in
  executeCronScript env script w
  = (script_result script outcome (env_dateNow env (S (S i)) - env_dateNow env i),
     mkWorld (S (S (S i))) (jobsRepo w) (runsRepo w)
             (trace w ++ [exec_event script outcome])).
Proof. reflexivity. Qed.

Lemma executeCronScripts_from_spec (scripts : list CronScript.t) :
  forall (acc : list CronScriptResult.t) (w : World),
  exists runs : list (ExecOutcome * Z),
    length runs = length scripts
    /\ (executeCronScripts_from env acc scripts w).1
       = acc ++ zip_with (fun script r => script_result script r.1 r.2) scripts runs
    /\ trace (executeCronScripts_from env acc scripts w).2
       = trace w ++ zip_with (fun script r => exec_event script r.1) scripts runs
    /\ jobsRepo (executeCronScripts_from env acc scripts w).2 = jobsRepo w
    /\ runsRepo (executeCronScripts_from env acc scripts w).2 = runsRepo w.
Proof.
  induction scripts as [|script rest IH]; intros acc w.
  - exists []. cbn. by rewrite !app_nil_r.
  - cbn [executeCronScripts_from]. rewrite bind_eq, executeCronScript_eq.
    cbv zeta. cbn [fst snd].
    set (outcome := env_exec _ _ _ _ _). set (d := _ - _). set (w1 := mkWorld _ _ _ _).
    destruct (IH (acc ++ [script_result script outcome d]) w1)
      as (runs & Hlen & Hres & Htr & Hjobs & Hruns).
    exists ((outcome, d) :: runs). cbn [zip_with length fst snd].
    rewrite Hres, Htr, Hjobs, Hruns. subst w1. cbn [trace jobsRepo runsRepo].
    rewrite <- !app_assoc. cbn. by rewrite Hlen.
Qed.

Lemma executeCronScripts_from_imap (scripts : list CronScript.t) :
  forall (acc : list CronScriptResult.t) (w : World),
    (executeCronScripts_from env acc scripts w).1
    = acc ++ imap (fun i script =>
                     script_result script (script_outcome env (interactions w) i script)
                                   (script_duration env (interactions w) i)) scripts
    /\ trace (executeCronScripts_from env acc scripts w).2
       = trace w ++ imap (fun i script =>
                            exec_event script (script_outcome env (interactions w) i script))
                         scripts.
Proof.
  induction scripts as [|script rest IH]; intros acc w.
  - cbn. by rewrite !app_nil_r.
  - cbn [executeCronScripts_from]. rewrite bind_eq, executeCronScript_eq.
    cbv zeta. cbn [fst snd].
    set (outcome := env_exec _ _ _ _ _). set (d := _ - _). set (w1 := mkWorld _ _ _ _).
    destruct (IH (acc ++ [script_result script outcome d]) w1) as [Hres Htr].
    assert (Hidx : forall i, (interactions w1 + 3 * i = interactions w + 3 * S i)%nat)
      by (intros i; subst w1; cbn [interactions]; lia).
    assert (Hout : forall i s, script_outcome env (interactions w1) i s
                               = script_outcome env (interactions w) (S i) s)
      by (intros i s; unfold script_outcome; by rewrite Hidx).
    assert (Hdur : forall i, script_duration env (interactions w1) i
                             = script_duration env (interactions w) (S i))
      by (intros i; unfold script_duration; by rewrite Hidx).
    assert (H0 : (interactions w + 3 * 0 = interactions w)%nat) by lia.
    rewrite Hres, Htr. cbn [imap]. unfold compose.
    split.
    + rewrite <- app_assoc. cbn [app]. do 2 f_equal.
      * unfold script_outcome, script_duration. by rewrite H0.
      * apply imap_ext. intros i s _. by rewrite Hout, Hdur.
    + subst w1. cbn [trace]. rewrite <- app_assoc. cbn [app]. do 2 f_equal.
      * unfold script_outcome. by rewrite H0.
      * apply imap_ext. intros i s _. by rewrite Hout.
Qed.

End Scripts.

Lemma executed_exec_events (f : nat -> CronScript.t -> ExecOutcome) (scripts : list CronScript.t) :
  executed (imap (fun i script => exec_event script (f i script)) scripts)
  = map CronScript.command scripts.
Proof.
  revert f. induction scripts as [|s rest IH]; intros f; [done|].
  cbn [imap map].
  exact (f_equal (cons (CronScript.command s)) (IH (fun i => f (S i)))).
Qed.

(** C7: the scripts are run one after the other in the order of the list,
    whatever each of them settles to, and the results are one per script
    in the same order.  The call for the script of index [i] is the
    interaction that follows those of the scripts before it, and the
    result of the script is made from what that call settles to: for a
    fulfilment, the exit code 0, no error and the output cut to the cap;
    for a rejection, whatever its cause, the error is the message of the
    rejection, the exit code its code, or 1 when it has none, and the
    output what it carries.  No result is thrown, and the scripts after a
    failure are run all the same. *)
Theorem C7_executeCronScripts_in_order (env : Env) (scripts : list CronScript.t) (w : World) :
  let out := executeCronScripts env scripts w in
  length out.1 = length scripts
  /\ map CronScriptResult.name out.1 = map CronScript.name scripts
  /\ (exists events : list Event,
        trace out.2 = trace w ++ events
        /\ length events = length scripts
        /\ executed events = map CronScript.command scripts
        /\ forall i script,
             scripts !! i = Some script ->
             events !! i
             = Some (EvExec (CronScript.command script) (cwd_option (CronScript.cwd script))
                            (default DEFAULT_SCRIPT_TIMEOUT (CronScript.timeout script))
                            (script_outcome env (interactions w) i script)))
  /\ (forall i script,
        scripts !! i = Some script ->
        exists result,
          out.1 !! i = Some result
          /\ CronScriptResult.name result = CronScript.name script
          /\ CronScriptResult.durationMs result = script_duration env (interactions w) i
          /\ match script_outcome env (interactions w) i script with
             | ExecResolved stdout stderr =>
                 CronScriptResult.exitCode result = ExitNumber 0
                 /\ CronScriptResult.error result = None
                 /\ CronScriptResult.stdout result = truncate_output stdout
                 /\ CronScriptResult.stderr result = truncate_output stderr
             | ExecRejected code stdout stderr message =>
                 CronScriptResult.exitCode result = default (ExitNumber 1) code
                 /\ CronScriptResult.error result = message
                 /\ CronScriptResult.stdout result = default "" stdout
                 /\ CronScriptResult.stderr result = default "" stderr
             end).
Proof.
  cbv zeta. unfold executeCronScripts.
  destruct (executeCronScripts_from_imap env scripts [] w) as [Hres Htr].
  rewrite Hres, Htr. cbn [app]. clear Hres Htr.
  split; [by rewrite length_imap|].
  split.
  { generalize (interactions w). intros n.
    assert (H : forall (f : nat -> CronScript.t -> CronScriptResult.t),
              (forall i s, CronScriptResult.name (f i s) = CronScript.name s) ->
              map CronScriptResult.name (imap f scripts) = map CronScript.name scripts).
    { induction scripts as [|s rest IH]; intros f Hf; [done|].
      cbn [imap map]. rewrite Hf, (IH (f ∘ S)); [done|]. intros i s'. apply Hf. }
    apply H. intros i s. by destruct (script_outcome env n i s). }
  split.
  { eexists. split; [reflexivity|].
    split; [by rewrite length_imap|].
    split; [apply executed_exec_events|].
    intros i script Hs. by rewrite list_lookup_imap, Hs. }
  intros i script Hs. eexists. split.
  { rewrite list_lookup_imap, Hs. reflexivity. }
  by destruct (script_outcome env (interactions w) i script).
Qed.

(** C4, on the path of a script that fails: the output captured from the
    process is returned as it is.  A script that prints 50,001 characters
    and exits with the code 1 gives a result whose [stdout] has all the
    50,001 characters, above [MAX_SCRIPT_OUTPUT], without the marker. *)
Theorem C4_failed_script_output_not_capped :
  let result := (executeCronScript failing_env failing_script empty_world).1 in
  CronScriptResult.error result = Some "Command failed"
  /\ CronScriptResult.stdout result = long_output
  /\ JS.length (CronScriptResult.stdout result) = 50001
  /\ MAX_SCRIPT_OUTPUT < JS.length (CronScriptResult.stdout result)
  /\ CronScriptResult.stdout result <> truncate_output long_output.
Proof.
  cbv zeta. split; [reflexivity|]. split; [reflexivity|].
  assert (Hlen : JS.length long_output = 50001) by (vm_compute; reflexivity).
  change (CronScriptResult.stdout (executeCronScript failing_env failing_script empty_world).1)
    with long_output.
  rewrite Hlen. split; [reflexivity|]. split; [reflexivity|].
  intros Heq. apply (f_equal JS.length) in Heq. rewrite Hlen in Heq.
  vm_compute in Heq. discriminate.
Qed.

(** ** Tick scheduler *)

(** *** Readings of traces *)

Section Readings.

Implicit Types (evs : list Event).

Lemma executed_app evs1 evs2 : executed (evs1 ++ evs2) = executed evs1 ++ executed evs2.
Proof. apply flat_map_app. Qed.

Lemma delivered_app evs1 evs2 : delivered (evs1 ++ evs2) = delivered evs1 ++ delivered evs2.
Proof. apply flat_map_app. Qed.

Lemma recorded_app evs1 evs2 : recorded (evs1 ++ evs2) = recorded evs1 ++ recorded evs2.
Proof. apply flat_map_app. Qed.

Lemma deleted_app evs1 evs2 : deleted (evs1 ++ evs2) = deleted evs1 ++ deleted evs2.
Proof. apply flat_map_app. Qed.

Lemma started_app k evs1 evs2 : started k (evs1 ++ evs2) = (started k evs1 + started k evs2)%nat.
Proof. unfold started. by rewrite List.filter_app, length_app. Qed.

(** The events of the script runner are runs of commands and nothing else. *)
Lemma exec_events_readings (scripts : list CronScript.t) : forall runs : list (ExecOutcome * Z),
  length runs = length scripts ->
  let evs := zip_with (fun script r => exec_event script r.1) scripts runs in
  executed evs = map CronScript.command scripts
  /\ delivered evs = [] /\ recorded evs = [] /\ deleted evs = []
  /\ forall k, started k evs = O.
Proof.
  induction scripts as [|s rest IH]; intros [|r runs] Hlen; try done.
  injection Hlen as Hlen. destruct (IH runs Hlen) as (He & Hd & Hr & Hx & Hs).
  cbn. repeat split; try done. by f_equal.
Qed.

End Readings.

Create Rewrite HintDb readings.
#[local] Hint Rewrite executed_app delivered_app recorded_app deleted_app started_app : readings.

(** *** One attempt *)

Section Attempt.

Variable env : Env.

(** What [prepare_message] does: no script is run and the message is the
    template, or the flag is set, every script is run and the message is
    the template resolved with their results. *)
Lemma prepare_message_spec (cron : CronJobRow.t) (w : World) :
  let p := prepare_message env cron w in
  exists events : list Event,
    trace p.2 = trace w ++ events
    /\ runsRepo p.2 = runsRepo w /\ jobsRepo p.2 = jobsRepo w
    /\ delivered events = [] /\ recorded events = [] /\ deleted events = []
    /\ (forall k, started k events = O)
    /\ ((p.1 = (CronJobRow.message cron, None) /\ executed events = [])
        \/ (exists scripts results n,
              CronJobRow.scripts cron = Some scripts
              /\ scripts <> []
              /\ scripts_enabled (env_mainConfig env n) = true
              /\ p.1 = (resolveScriptTemplates (CronJobRow.message cron) results, Some results)
              /\ length results = length scripts
              /\ executed events = map CronScript.command scripts)).
Proof.
  cbv zeta. unfold prepare_message.
  destruct (CronJobRow.scripts cron) as [[|s rest]|] eqn:Hscripts;
    try (exists []; cbn; rewrite app_nil_r; repeat split; try done; by left).
  rewrite bind_eq. cbn [getMainConfig_daemon fst snd].
  destruct (scripts_enabled (env_mainConfig env (interactions w))) eqn:Hcfg; cbn [negb].
  - rewrite !bind_eq. cbn [log fst snd].
    set (w1 := emit _ (emit _ w)).
    destruct (executeCronScripts_from_spec env (s :: rest) [] w1)
      as (runs & Hlen & Hres & Htr & Hj & Hr').
    fold (executeCronScripts env (s :: rest) w1) in *.
    destruct (exec_events_readings (s :: rest) runs Hlen) as (He & Hd & Hr & Hx & Hs).
    set (out := executeCronScripts env (s :: rest) w1) in *.
    set (failed := List.filter _ _).
    assert (Hev : forall tail : list Event,
               delivered tail = [] -> recorded tail = [] -> deleted tail = [] ->
               executed tail = [] -> (forall k, started k tail = O) ->
               let events := [EvGetMainConfig (env_mainConfig env (interactions w));
                              EvLog (ExecutingScripts (Z.of_nat (length (s :: rest)))
                                                      (CronJobRow.name cron))]
                             ++ zip_with (fun script r => exec_event script r.1) (s :: rest) runs
                             ++ tail in
               delivered events = [] /\ recorded events = [] /\ deleted events = []
               /\ (forall k, started k events = O)
               /\ executed events = map CronScript.command (s :: rest)).
    { intros tail Htd Htr' Htx Hte Hts events. subst events.
      autorewrite with readings. rewrite He, Hd, Hr, Hx, Htd, Htr', Htx, Hte.
      repeat split; try done.
      - intros k. autorewrite with readings. by rewrite Hs, Hts.
      - by rewrite app_nil_r. }
    assert (Hl : length out.1 = length (s :: rest)).
    { rewrite Hres. cbn [app]. rewrite length_zip_with. lia. }
    destruct (0 <? Z.of_nat (length failed)).
    + destruct (Hev [EvLog (ScriptsFailed (Z.of_nat (length failed)) (CronJobRow.name cron))])
        as (Hd' & Hr2 & Hx' & Hs' & He'); try done.
      eexists. split; [|split; [|split; [|split; [exact Hd'|split; [exact Hr2|
               split; [exact Hx'|split; [exact Hs'|]]]]]]].
      * cbn [log ret fst snd emit trace]. rewrite Htr. subst w1. cbn [emit trace].
        by rewrite <- !app_assoc.
      * cbn [log ret fst snd emit runsRepo]. by rewrite Hr'.
      * cbn [log ret fst snd emit jobsRepo]. by rewrite Hj.
      * right. exists (s :: rest), out.1, (interactions w).
        repeat split; try done.
    + destruct (Hev []) as (Hd' & Hr2 & Hx' & Hs' & He'); try done.
      eexists. split; [|split; [|split; [|split; [exact Hd'|split; [exact Hr2|
               split; [exact Hx'|split; [exact Hs'|]]]]]]].
      * cbn [log ret fst snd emit trace]. rewrite Htr. subst w1. cbn [emit trace].
        by rewrite <- !app_assoc, app_nil_r.
      * cbn [log ret fst snd emit runsRepo]. by rewrite Hr'.
      * cbn [log ret fst snd emit jobsRepo]. by rewrite Hj.
      * right. exists (s :: rest), out.1, (interactions w).
        repeat split; try done.
  - rewrite bind_eq. cbn [log ret fst snd].
    eexists [_; _]. cbn. rewrite <- app_assoc. repeat split; try done. by left.
Qed.

Lemma started_running (k name session : string) :
  started k [EvLog (RunningCron name session)] = if String.eqb name k then 1%nat else O.
Proof. unfold started. cbn. by destruct (String.eqb name k). Qed.

Lemma record_success_spec (cron : CronJobRow.t) (startTime : Z) (sent : string)
    (results : option (list CronScriptResult.t)) (q : list string) (w : World) :
  let out := record_success env cron startTime sent results q w in
  exists (run : CronRunRow.t) (tail : list Event),
    trace out.2 = trace w ++ tail
    /\ runsRepo out.2 = runsRepo w ++ [run]
    /\ jobsRepo out.2 = jobsRepo w
    /\ out.1 = q ++ (if truthy_bool (CronJobRow.once cron) then [CronJobRow.name cron] else [])
    /\ delivered tail = [] /\ recorded tail = [run] /\ deleted tail = []
    /\ executed tail = [] /\ (forall k, started k tail = O)
    /\ CronRunRow.cronName run = CronJobRow.name cron
    /\ CronRunRow.session run = CronJobRow.session cron
    /\ CronRunRow.status run = success
    /\ CronRunRow.message run = sent
    /\ CronRunRow.scriptResults run = results.
Proof.
  cbv zeta. unfold record_success. rewrite !bind_eq.
  cbn [dateNow log addCronRun fst snd].
  destruct (truthy_bool (CronJobRow.once cron)).
  - rewrite bind_eq. eexists _, [_; _; _]. cbn.
    rewrite <- !app_assoc. repeat split; reflexivity.
  - eexists _, [_; _]. cbn.
    rewrite <- !app_assoc, app_nil_r. repeat split; reflexivity.
Qed.

Lemma record_failure_spec (cron : CronJobRow.t) (startTime : Z) (err : Thrown) (w : World) :
  let out := record_failure env cron startTime err w in
  exists (run : CronRunRow.t) (tail : list Event),
    trace out.2 = trace w ++ tail
    /\ runsRepo out.2 = runsRepo w ++ [run]
    /\ jobsRepo out.2 = jobsRepo w
    /\ delivered tail = [] /\ recorded tail = [run] /\ deleted tail = []
    /\ executed tail = [] /\ (forall k, started k tail = O)
    /\ CronRunRow.cronName run = CronJobRow.name cron
    /\ CronRunRow.session run = CronJobRow.session cron
    /\ CronRunRow.status run = failure
    /\ CronRunRow.error run = Some (error_message err)
    /\ CronRunRow.message run = CronJobRow.message cron
    /\ CronRunRow.scriptResults run = None.
Proof.
  cbv zeta. unfold record_failure. rewrite !bind_eq.
  cbn [dateNow log addCronRun fst snd].
  eexists _, [_; _]. cbn. rewrite <- !app_assoc. repeat split; reflexivity.
Qed.

(** What one attempt does: one delivery, one run recorded, nothing
    deleted; the job is queued when it is a one-time job and the
    delivery was fulfilled. *)
Lemma execute_cron_spec (cron : CronJobRow.t) (q : list string) (w : World) :
  let out := execute_cron env cron q w in
  exists (sent : string) (results : option (list CronScriptResult.t))
         (outcome : InjectOutcome) (run : CronRunRow.t) (events : list Event),
    trace out.2 = trace w ++ events
    /\ runsRepo out.2 = runsRepo w ++ [run]
    /\ jobsRepo out.2 = jobsRepo w
    /\ out.1 = q ++ (if truthy_bool (CronJobRow.once cron) && is_fulfilled outcome
                     then [CronJobRow.name cron] else [])
    /\ delivered events = [(CronJobRow.session cron, sent, outcome)]
    /\ recorded events = [run]
    /\ deleted events = []
    /\ (forall k, started k events = if String.eqb (CronJobRow.name cron) k then 1%nat else O)
    /\ CronRunRow.cronName run = CronJobRow.name cron
    /\ CronRunRow.session run = CronJobRow.session cron
    /\ CronRunRow.status run = (if is_fulfilled outcome then success else failure)
    /\ CronRunRow.message run = (if is_fulfilled outcome then sent else CronJobRow.message cron)
    /\ CronRunRow.scriptResults run = (if is_fulfilled outcome then results else None)
    /\ ((sent = CronJobRow.message cron /\ results = None /\ executed events = [])
        \/ (exists scripts rs n,
              CronJobRow.scripts cron = Some scripts
              /\ scripts <> []
              /\ scripts_enabled (env_mainConfig env n) = true
              /\ sent = resolveScriptTemplates (CronJobRow.message cron) rs
              /\ results = Some rs
              /\ length rs = length scripts
              /\ executed events = map CronScript.command scripts)).
Proof.
  cbv zeta. unfold execute_cron. rewrite !bind_eq.
  cbn [log dateNow fst snd].
  set (w1 := advance (emit _ w)).
  set (startTime := env_dateNow env _).
  destruct (prepare_message_spec cron w1)
    as (pev & Htr & Hruns & Hjobs & Hd & Hr & Hx & Hs & Hp).
  set (p := prepare_message env cron w1) in *.
  cbn [inject_race fst snd].
  set (sent := p.1.1). set (results := p.1.2).
  set (outcome := env_inject env _ _ _).
  set (w2 := emit _ p.2).
  exists sent, results, outcome.
  assert (Hex : forall tail, executed tail = [] ->
        (sent = CronJobRow.message cron /\ results = None
         /\ executed ([EvLog (RunningCron (CronJobRow.name cron) (CronJobRow.session cron))]
                      ++ pev ++ [EvInject (CronJobRow.session cron) sent outcome] ++ tail) = [])
        \/ (exists scripts rs n,
              CronJobRow.scripts cron = Some scripts
              /\ scripts <> []
              /\ scripts_enabled (env_mainConfig env n) = true
              /\ sent = resolveScriptTemplates (CronJobRow.message cron) rs
              /\ results = Some rs
              /\ length rs = length scripts
              /\ executed ([EvLog (RunningCron (CronJobRow.name cron) (CronJobRow.session cron))]
                      ++ pev ++ [EvInject (CronJobRow.session cron) sent outcome] ++ tail)
                 = map CronScript.command scripts)).
  { intros tail Ht. autorewrite with readings. rewrite Ht. cbn [executed flat_map app].
    rewrite app_nil_r. subst sent results.
    destruct Hp as [[Heq He] | (scripts & rs & n & H1 & H2 & H3 & Heq & H4 & H5)].
    - left. by rewrite Heq.
    - right. exists scripts, rs, n. by rewrite Heq. }
  clear Hp.
  assert (Hpre : forall (tail : list Event) (run : CronRunRow.t),
             delivered tail = [] -> recorded tail = [run] -> deleted tail = [] ->
             (forall k, started k tail = O) ->
             let events := [EvLog (RunningCron (CronJobRow.name cron) (CronJobRow.session cron))]
                           ++ pev ++ [EvInject (CronJobRow.session cron) sent outcome] ++ tail in
             delivered events = [(CronJobRow.session cron, sent, outcome)]
             /\ recorded events = [run]
             /\ deleted events = []
             /\ (forall k, started k events
                            = if String.eqb (CronJobRow.name cron) k then 1%nat else O)).
  { intros tail run Htd Htr' Htx Hts events. subst events.
    autorewrite with readings. rewrite Hd, Hr, Hx, Htd, Htx, Htr'.
    repeat split; try done.
    intros k. autorewrite with readings. rewrite Hs, Hts, started_running.
    cbn. destruct (String.eqb _ k); done. }
  assert (Hw2 : trace w2 = trace w ++ [EvLog (RunningCron (CronJobRow.name cron)
                                                (CronJobRow.session cron))]
                           ++ pev ++ [EvInject (CronJobRow.session cron) sent outcome]
                /\ runsRepo w2 = runsRepo w /\ jobsRepo w2 = jobsRepo w).
  { subst w2. cbn [emit trace runsRepo jobsRepo]. rewrite Htr, Hruns, Hjobs.
    subst w1. cbn [emit advance trace]. by rewrite <- !app_assoc. }
  destruct Hw2 as (Htr2 & Hruns2 & Hjobs2).
  assert (Hfail : forall err,
    let out := bind (record_failure env cron startTime err) (fun _ => ret q) w2 in
    outcome <> InjectFulfilled ->
    exists (run : CronRunRow.t) (events : list Event),
    trace out.2 = trace w ++ events
    /\ runsRepo out.2 = runsRepo w ++ [run]
    /\ jobsRepo out.2 = jobsRepo w
    /\ out.1 = q ++ (if truthy_bool (CronJobRow.once cron) && is_fulfilled outcome
                     then [CronJobRow.name cron] else [])
    /\ delivered events = [(CronJobRow.session cron, sent, outcome)]
    /\ recorded events = [run]
    /\ deleted events = []
    /\ (forall k, started k events = if String.eqb (CronJobRow.name cron) k then 1%nat else O)
    /\ CronRunRow.cronName run = CronJobRow.name cron
    /\ CronRunRow.session run = CronJobRow.session cron
    /\ CronRunRow.status run = (if is_fulfilled outcome then success else failure)
    /\ CronRunRow.message run = (if is_fulfilled outcome then sent else CronJobRow.message cron)
    /\ CronRunRow.scriptResults run = (if is_fulfilled outcome then results else None)
    /\ ((sent = CronJobRow.message cron /\ results = None /\ executed events = [])
        \/ (exists scripts rs n,
              CronJobRow.scripts cron = Some scripts
              /\ scripts <> []
              /\ scripts_enabled (env_mainConfig env n) = true
              /\ sent = resolveScriptTemplates (CronJobRow.message cron) rs
              /\ results = Some rs
              /\ length rs = length scripts
              /\ executed events = map CronScript.command scripts))).
  { intros err out Hne. subst out. rewrite bind_eq. cbn [ret fst snd].
    destruct (record_failure_spec cron startTime err w2)
      as (run & tail & Ht & Hrr & Hjj & Hd' & Hr2 & Hx' & He' & Hs' & F1 & F2 & F3 & F4 & F5 & F6).
    destruct (Hpre tail run Hd' Hr2 Hx' Hs') as (G1 & G2 & G3 & G4).
    assert (Hnf : is_fulfilled outcome = false) by (by destruct outcome).
    exists run, ([EvLog (RunningCron (CronJobRow.name cron) (CronJobRow.session cron))]
                  ++ pev ++ [EvInject (CronJobRow.session cron) sent outcome] ++ tail).
    rewrite Hnf, andb_false_r, app_nil_r.
    split; [by rewrite Ht, Htr2, <- !app_assoc|].
    split; [by rewrite Hrr, Hruns2|]. split; [by rewrite Hjj, Hjobs2|].
    split; [done|].
    split; [exact G1|]. split; [exact G2|]. split; [exact G3|]. split; [exact G4|].
    split; [done|]. split; [done|]. split; [done|]. split; [done|]. split; [done|].
    apply Hex, He'. }
  destruct outcome eqn:Hout.
  - (* fulfilled *)
    destruct (record_success_spec cron startTime sent results q w2)
      as (run & tail & Ht & Hrr & Hjj & Hq & Hd' & Hr2 & Hx' & He' & Hs' & F1 & F2 & F3 & F4 & F5).
    destruct (Hpre tail run Hd' Hr2 Hx' Hs') as (G1 & G2 & G3 & G4).
    exists run, ([EvLog (RunningCron (CronJobRow.name cron) (CronJobRow.session cron))]
                  ++ pev ++ [EvInject (CronJobRow.session cron) sent InjectFulfilled] ++ tail).
    cbn [is_fulfilled]. rewrite andb_true_r.
    split; [by rewrite Ht, Htr2, <- !app_assoc|].
    split; [by rewrite Hrr, Hruns2|]. split; [by rewrite Hjj, Hjobs2|].
    split; [exact Hq|].
    split; [exact G1|]. split; [exact G2|]. split; [exact G3|]. split; [exact G4|].
    split; [done|]. split; [done|]. split; [done|]. split; [done|]. split; [done|].
    apply Hex, He'.
  - (* rejected *)
    apply Hfail. discriminate.
  - (* pending: the timer fires *)
    apply Hfail. discriminate.
Qed.

End Attempt.

(** *** The loop over the jobs and the removals *)

Section Loop.

Variable env : Env.
Variable now : Date.t.

Lemma tick_crons_spec (crons : list CronJobRow.t) : forall (st : TickState) (w : World),
  let out := tick_crons env now st crons w in
  exists (attempts : list (CronJobRow.t * CronRunRow.t)) (events : list Event),
    map fst attempts = due_jobs now (lastRun st) crons
    /\ lastRun out.1 = marks now (lastRun st) crons
    /\ toRemove out.1 = toRemove st ++ queued attempts
    /\ trace out.2 = trace w ++ events
    /\ runsRepo out.2 = runsRepo w ++ map snd attempts
    /\ jobsRepo out.2 = jobsRepo w
    /\ deleted events = []
    /\ recorded events = map snd attempts
    /\ map (fun d => (d.1.1, is_fulfilled d.2)) (delivered events)
       = map (fun a => (CronJobRow.session a.1, is_success (CronRunRow.status a.2))) attempts
    /\ (forall k, started k events
                  = length (List.filter (has_name k) (due_jobs now (lastRun st) crons)))
    /\ Forall (fun a => CronRunRow.cronName a.2 = CronJobRow.name a.1
                        /\ CronRunRow.session a.2 = CronJobRow.session a.1) attempts.
Proof.
  induction crons as [|cron rest IH]; intros st w; cbv zeta.
  - exists [], []. cbn. rewrite !app_nil_r. repeat split; done.
  - cbn [tick_crons due_jobs marks]. rewrite bind_eq. unfold tick_cron.
    destruct (shouldExecute (lastRun st) now cron) eqn:Hdue.
    + rewrite bind_eq. cbn [ret fst snd].
      destruct (execute_cron_spec env cron (toRemove st) w)
        as (sent & results & outcome & run & ev1 & Htr & Hruns & Hjobs & Hq & Hd & Hr & Hx
            & Hs & F1 & F2 & F3 & _).
      set (out1 := execute_cron env cron (toRemove st) w) in *.
      set (marked := <[CronJobRow.name cron := minute_bucket (Date.getTime now)]> (lastRun st)).
      destruct (IH (mkTickState marked out1.1) out1.2)
        as (attempts & events & G1 & G2 & G3 & G4 & G5 & G6 & G7 & G8 & G8' & G9 & G10).
      cbv zeta in *. cbn [lastRun toRemove] in *.
      exists ((cron, run) :: attempts), (ev1 ++ events).
      split; [cbn; by rewrite G1|]. split; [exact G2|].
      split.
      { rewrite G3, Hq. cbn [queued flat_map fst snd]. fold (queued attempts).
        rewrite F3. rewrite <- app_assoc. by destruct (is_fulfilled outcome). }
      split; [by rewrite G4, Htr, <- app_assoc|].
      split; [by rewrite G5, Hruns, <- app_assoc|].
      split; [by rewrite G6, Hjobs|].
      autorewrite with readings.
      split; [by rewrite Hx, G7|]. split; [by rewrite Hr, G8|].
      split.
      { rewrite Hd, map_app, G8'. cbn [map fst snd app]. rewrite F3.
        by destruct (is_fulfilled outcome). }
      split.
      { intros k. autorewrite with readings. rewrite Hs, G9. cbn [List.filter].
        unfold has_name at 2. by destruct (String.eqb (CronJobRow.name cron) k). }
      constructor; [done | exact G10].
    + cbn [ret fst snd]. apply IH.
Qed.

Lemma without_cons (name : string) (names : list string) (jobs : list CronJobRow.t) :
  without names (List.filter (fun job => negb (has_name name job)) jobs)
  = without (name :: names) jobs.
Proof.
  unfold without. induction jobs as [|job jobs IH]; [reflexivity|].
  cbn [List.filter existsb]. unfold has_name at 1.
  destruct (String.eqb (CronJobRow.name job) name); cbn [negb orb List.filter].
  - exact IH.
  - destruct (existsb _ names); cbn [negb]; by rewrite IH.
Qed.

Lemma without_nil (jobs : list CronJobRow.t) : without [] jobs = jobs.
Proof.
  unfold without. induction jobs as [|job jobs IH]; [reflexivity|].
  cbn in IH |- *. by rewrite IH.
Qed.

Lemma remove_crons_spec (names : list string) : forall w : World,
  let out := remove_crons names w in
  exists dels : list Event,
    trace out.2 = trace w ++ dels
    /\ jobsRepo out.2 = without names (jobsRepo w)
    /\ runsRepo out.2 = runsRepo w
    /\ deleted dels = names
    /\ recorded dels = [] /\ delivered dels = [] /\ executed dels = []
    /\ (forall k, started k dels = O).
Proof.
  induction names as [|name rest IH]; intros w; cbv zeta.
  - exists []. cbn. by rewrite app_nil_r, without_nil.
  - cbn [remove_crons]. rewrite bind_eq. cbn [removeCron fst snd].
    set (w1 := mkWorld _ _ _ _).
    destruct (IH w1) as (dels & H1 & H2 & H3 & H4 & H5 & H6 & H7 & H8). cbv zeta in *.
    exists ([EvDeleteJob name (existsb (has_name name) (jobsRepo w))] ++ dels).
    rewrite H1, H2, H3. subst w1. cbn [trace jobsRepo runsRepo].
    split; [by rewrite <- app_assoc|]. split; [apply without_cons|]. split; [done|].
    autorewrite with readings. rewrite H4, H5, H6, H7.
    repeat split; try done.
Qed.

(** A tick: the scan of the jobs, then the removals. *)
Lemma cronTick_at_spec (lastRun0 : gmap string Z) (w : World) :
  let out := cronTick_at env now lastRun0 w in
  exists (attempts : list (CronJobRow.t * CronRunRow.t)) (scan dels : list Event),
    map fst attempts = due_jobs now lastRun0 (jobsRepo w)
    /\ out.1 = marks now lastRun0 (jobsRepo w)
    /\ trace out.2 = trace w ++ scan ++ dels
    /\ runsRepo out.2 = runsRepo w ++ map snd attempts
    /\ jobsRepo out.2 = without (queued attempts) (jobsRepo w)
    /\ deleted scan = []
    /\ recorded scan = map snd attempts
    /\ map (fun d => (d.1.1, is_fulfilled d.2)) (delivered scan)
       = map (fun a => (CronJobRow.session a.1, is_success (CronRunRow.status a.2))) attempts
    /\ deleted dels = queued attempts
    /\ recorded dels = [] /\ delivered dels = [] /\ executed dels = []
    /\ (forall k, started k (scan ++ dels)
                  = length (List.filter (has_name k) (due_jobs now lastRun0 (jobsRepo w))))
    /\ Forall (fun a => CronRunRow.cronName a.2 = CronJobRow.name a.1
                        /\ CronRunRow.session a.2 = CronJobRow.session a.1) attempts.
Proof.
  cbv zeta. unfold cronTick_at. rewrite !bind_eq. cbn [getCrons ret fst snd].
  destruct (tick_crons_spec (jobsRepo w) (mkTickState lastRun0 []) w)
    as (attempts & scan & G1 & G2 & G3 & G4 & G5 & G6 & G7 & G8 & G8' & G9 & G10).
  cbv zeta in *. cbn [lastRun toRemove app] in *.
  set (out := tick_crons env now (mkTickState lastRun0 []) (jobsRepo w) w) in *.
  exists attempts, scan.
  destruct (remove_crons_spec (toRemove out.1) out.2)
    as (dels & H1 & H2 & H3 & H4 & H5 & H6 & H7 & H8). cbv zeta in *.
  destruct (0 <? Z.of_nat (length (toRemove out.1))) eqn:Hlen.
  - exists dels. rewrite H1, H2, H3, G4, G5, G6, H4, G3, <- app_assoc.
    repeat split; try done.
    intros k. autorewrite with readings. by rewrite G9, H8.
  - exists []. cbn [ret fst snd].
    assert (Hnil : toRemove out.1 = []).
    { destruct (toRemove out.1); [done|]. cbn in Hlen. done. }
    rewrite G3 in Hnil. rewrite Hnil, without_nil, app_nil_r, G4, G5, G6.
    repeat split; try done.
Qed.

End Loop.

(** *** One-time jobs *)

(** C1, as stated, fails on the path of a failed attempt.  A one-time
    job whose time has passed is attempted on a tick; the delivery is
    rejected and the run is recorded as a failure; the job is not queued,
    no job is deleted, and the job is still in the store after the tick.
    On the next tick the job is not attempted again, its name being
    written in the map of the loop, and it stays in the store: the [catch]
    block lacks the queueing that the [try] block does for [cron.once]. *)
Theorem C1_failed_once_job_not_removed :
  let out := cronTick rejecting_env createCronTickLoop (world_with [once_job]) in
  let next := cronTick rejecting_env out.1 (restart_trace out.2) in
  CronJobRow.once once_job = Some true
  /\ delivered (trace out.2)
     = [("main", "one-time", InjectRejected (ThrownError "injection failed"))]
  /\ map CronRunRow.status (runsRepo out.2) = [failure]
  /\ deleted (trace out.2) = []
  /\ jobsRepo out.2 = [once_job]
  /\ trace next.2 = []
  /\ jobsRepo next.2 = [once_job].
Proof. cbv zeta. repeat split; vm_compute; reflexivity. Qed.

(** X24: on a tick, every attempt records one run; the jobs queued for
    removal are the one-time jobs whose attempt is recorded as a success,
    that is those whose delivery was fulfilled; the queued jobs are
    deleted from the store after the whole list has been scanned, and no
    job is deleted during the scan. *)
Theorem X24_once_jobs_removed_after_success
    (env : Env) (now : Date.t) (lastRun0 : gmap string Z) (w : World) :
  let out := cronTick_at env now lastRun0 w in
  exists (attempts : list (CronJobRow.t * CronRunRow.t)) (scan dels : list Event),
    map fst attempts = due_jobs now lastRun0 (jobsRepo w)
    /\ Forall (fun a => CronRunRow.cronName a.2 = CronJobRow.name a.1) attempts
    /\ runsRepo out.2 = runsRepo w ++ map snd attempts
    /\ map (fun d => is_fulfilled d.2) (delivered scan)
       = map (fun a => is_success (CronRunRow.status a.2)) attempts
    /\ trace out.2 = trace w ++ scan ++ dels
    /\ recorded scan = map snd attempts
    /\ deleted scan = []
    /\ recorded dels = [] /\ delivered dels = [] /\ executed dels = []
    /\ deleted dels = queued attempts
    /\ jobsRepo out.2 = without (queued attempts) (jobsRepo w).
Proof.
  cbv zeta.
  destruct (cronTick_at_spec env now lastRun0 w)
    as (attempts & scan & dels & H1 & H2 & H3 & H4 & H5 & H6 & H7 & H8 & H9 & H10 & H11
        & H12 & H13 & H14).
  exists attempts, scan, dels. cbv zeta in *.
  repeat split; try done.
  - eapply Forall_impl; [exact H14|]. by intros a [? ?].
  - apply (f_equal (map snd)) in H8. by rewrite !map_map in H8.
Qed.

(** *** The message of a recorded run *)

(** C5, where the delivery fails after the scripts ran: the message
    delivered is the resolved text, and the run recorded keeps the
    template and no results of the scripts. *)
Theorem C5_failure_record_keeps_template :
  let out := cronTick rejecting_env createCronTickLoop (world_with [script_job]) in
  executed (trace out.2) = ["echo 42"]
  /\ delivered (trace out.2)
     = [("main", "Result: 42", InjectRejected (ThrownError "injection failed"))]
  /\ map CronRunRow.status (runsRepo out.2) = [failure]
  /\ map CronRunRow.message (runsRepo out.2) = ["Result: {{x}}"]
  /\ map CronRunRow.scriptResults (runsRepo out.2) = [None].
Proof. cbv zeta. repeat split; vm_compute; reflexivity. Qed.

(** *** Scripts are disabled unless the flag is set *)

Lemma flag_not_true_disabled (cfg : option DaemonConfig) :
  flag_not_true cfg -> scripts_enabled cfg = false.
Proof.
  destruct cfg as [[[[]|]]|]; cbn; try done.
Qed.

(** C10: when the configuration is absent or its flag is not [true], a due
    job with scripts has none of them run; the template is delivered as it
    is, and the run recorded has the template as its message and no
    results of scripts. *)
Theorem C10_scripts_disabled_by_default
    (env : Env) (now : Date.t) (st : TickState) (cron : CronJobRow.t) (w : World)
    (scripts : list CronScript.t) :
  shouldExecute (lastRun st) now cron = true ->
  CronJobRow.scripts cron = Some scripts ->
  scripts <> [] ->
  (forall n, flag_not_true (env_mainConfig env n)) ->
  let out := tick_cron env now st cron w in
  exists (outcome : InjectOutcome) (run : CronRunRow.t) (events : list Event),
    trace out.2 = trace w ++ events
    /\ executed events = []
    /\ delivered events = [(CronJobRow.session cron, CronJobRow.message cron, outcome)]
    /\ recorded events = [run]
    /\ runsRepo out.2 = runsRepo w ++ [run]
    /\ CronRunRow.cronName run = CronJobRow.name cron
    /\ CronRunRow.message run = CronJobRow.message cron
    /\ CronRunRow.scriptResults run = None.
Proof.
  intros Hdue Hscripts Hne Hcfg. cbv zeta. unfold tick_cron. rewrite Hdue, bind_eq.
  cbn [ret fst snd].
  destruct (execute_cron_spec env cron (toRemove st) w)
    as (sent & results & outcome & run & events & Htr & Hruns & Hjobs & Hq & Hd & Hr & Hx
        & Hs & F1 & F2 & F3 & F4 & F5 & Hex).
  cbv zeta in *.
  destruct Hex as [(-> & -> & He) | (ss & rs & n & _ & _ & Hen & _)].
  - exists outcome, run, events. repeat split; try done.
    + rewrite F4. by destruct (is_fulfilled outcome).
    + rewrite F5. by destruct (is_fulfilled outcome).
  - rewrite (flag_not_true_disabled _ (Hcfg n)) in Hen. discriminate.
Qed.

Lemma C10_scripts_disabled_by_default_witness :
  exists (outcome : InjectOutcome) (run : CronRunRow.t) (events : list Event),
    trace (tick_cron silent_env a_date (mkTickState ∅ []) script_job (world_with [script_job])).2
    = trace (world_with [script_job]) ++ events
    /\ executed events = []
    /\ delivered events
       = [(CronJobRow.session script_job, CronJobRow.message script_job, outcome)]
    /\ recorded events = [run]
    /\ runsRepo (tick_cron silent_env a_date (mkTickState ∅ []) script_job
                           (world_with [script_job])).2
       = runsRepo (world_with [script_job]) ++ [run]
    /\ CronRunRow.cronName run = CronJobRow.name script_job
    /\ CronRunRow.message run = CronJobRow.message script_job
    /\ CronRunRow.scriptResults run = None.
Proof.
  apply (C10_scripts_disabled_by_default silent_env a_date (mkTickState ∅ []) script_job
           (world_with [script_job]) [CronScript.mk "x" "echo 42" None None]).
  - vm_compute. reflexivity.
  - reflexivity.
  - discriminate.
  - intros n. exact I.
Defined.
(** *** The map of the last minutes *)

Section LastRun.

Implicit Types (lr : gmap string Z) (k : string) (b : Z).

Lemma lastRun_get_ext lr lr' k : lr' !! k = lr !! k -> lastRun_get lr' k = lastRun_get lr k.
Proof. unfold lastRun_get. by intros ->. Qed.

Lemma later_than_last_ext lr lr' k b :
  lr' !! k = lr !! k -> later_than_last lr' k b = later_than_last lr k b.
Proof. unfold later_than_last. by intros ->%lastRun_get_ext. Qed.

Lemma fired_ext lr lr' k : lr' !! k = lr !! k -> fired lr' k = fired lr k.
Proof. unfold fired. by intros ->%lastRun_get_ext. Qed.

Lemma later_than_last_marked lr k b b' : lr !! k = Some b -> later_than_last lr k b' = (b <? b').
Proof. unfold later_than_last, lastRun_get. by intros ->. Qed.

Lemma fired_marked lr k b : lr !! k = Some b -> fired lr k = negb (b =? 0).
Proof. unfold fired, lastRun_get. by intros ->. Qed.

(** The test is that of a fixed last minute, or fails for every minute. *)
Lemma later_than_last_order lr k b b' :
  later_than_last lr k b = false -> later_than_last lr k b' = true -> b < b'.
Proof.
  unfold later_than_last. destruct (lastRun_get lr k) as [n| |]; [|done|].
  - intros H1%Z.ltb_ge H2%Z.ltb_lt. lia.
  - intros H1%Z.ltb_ge H2%Z.ltb_lt. lia.
Qed.

(** A name that objects inherit and that was never written is taken as
    written, with a value that is after every minute. *)
Lemma inherited_never_due lr (now : Date.t) (cron : CronJobRow.t) :
  inherited_member (CronJobRow.name cron) = true ->
  lr !! CronJobRow.name cron = None ->
  shouldExecute lr now cron = false.
Proof.
  intros Hin Hnone. unfold shouldExecute, fired, later_than_last, lastRun_get.
  rewrite Hnone, Hin. cbn [negb]. rewrite andb_false_r. by destruct (truthy_number _).
Qed.

Lemma in_minute_bucket (b ts : Z) : in_minute b ts = (minute_bucket ts =? b).
Proof.
  unfold in_minute, minute_bucket.
  pose proof (Z.div_mod ts 60000 ltac:(lia)) as Hdiv.
  pose proof (Z.mod_pos_bound ts 60000 ltac:(lia)) as Hmod.
  destruct (Z.eqb_spec (ts / 60000) b), (Z.leb_spec (60000 * b) ts),
    (Z.ltb_spec ts (60000 * (b + 1))); cbn; lia.
Qed.

End LastRun.

(** *** At most once in a minute *)

Section OncePerMinute.

Variable k : string.

Implicit Types (lr : gmap string Z) (crons : list CronJobRow.t) (now : Date.t).

Lemma has_name_true (job : CronJobRow.t) : has_name k job = true <-> CronJobRow.name job = k.
Proof. unfold has_name. apply String.eqb_eq. Qed.

Lemma has_name_false (job : CronJobRow.t) : has_name k job = false <-> CronJobRow.name job <> k.
Proof. unfold has_name. apply String.eqb_neq. Qed.

Lemma shouldExecute_recurring lr now (cron : CronJobRow.t) :
  recurring cron ->
  shouldExecute lr now cron
  = later_than_last lr (CronJobRow.name cron) (minute_bucket (Date.getTime now))
    && shouldRunCron (CronJobRow.schedule cron) now.
Proof. unfold recurring, shouldExecute. by intros ->. Qed.

(** Once the test on the minute of the tick fails for [k], no recurring
    job of that name is due in the tick. *)
Lemma due_jobs_marked now crons : forall lr,
  (forall job, In job crons -> CronJobRow.name job = k -> recurring job) ->
  later_than_last lr k (minute_bucket (Date.getTime now)) = false ->
  List.filter (has_name k) (due_jobs now lr crons) = []
  /\ marks now lr crons !! k = lr !! k.
Proof.
  induction crons as [|cron rest IH]; intros lr Hrec Hle; [done|].
  cbn [due_jobs marks].
  assert (Hrest : forall job, In job rest -> CronJobRow.name job = k -> recurring job)
    by (intros job Hin; apply Hrec; by right).
  destruct (has_name k cron) eqn:Hk.
  - apply has_name_true in Hk.
    rewrite shouldExecute_recurring by (apply Hrec; [by left | done]).
    rewrite Hk, Hle. cbn [andb]. by apply IH.
  - pose proof Hk as Hne. apply has_name_false in Hne.
    destruct (shouldExecute lr now cron).
    + cbn [List.filter]. rewrite Hk.
      destruct (IH (<[CronJobRow.name cron := minute_bucket (Date.getTime now)]> lr) Hrest)
        as [H1 H2].
      { rewrite <- Hle. apply later_than_last_ext. by rewrite lookup_insert_ne. }
      split; [exact H1|]. by rewrite H2, lookup_insert_ne.
    + by apply IH.
Qed.

(** In one tick a recurring name is started at most once, and then the
    test on the minute of the tick held before and the minute is
    written. *)
Lemma due_jobs_recurring now crons : forall lr,
  (forall job, In job crons -> CronJobRow.name job = k -> recurring job) ->
  (List.filter (has_name k) (due_jobs now lr crons) = []
   /\ marks now lr crons !! k = lr !! k)
  \/ (length (List.filter (has_name k) (due_jobs now lr crons)) = 1%nat
      /\ later_than_last lr k (minute_bucket (Date.getTime now)) = true
      /\ marks now lr crons !! k = Some (minute_bucket (Date.getTime now))).
Proof.
  induction crons as [|cron rest IH]; intros lr Hrec; [by left|].
  cbn [due_jobs marks].
  assert (Hrest : forall job, In job rest -> CronJobRow.name job = k -> recurring job)
    by (intros job Hin; apply Hrec; by right).
  destruct (has_name k cron) eqn:Hk.
  - pose proof Hk as Heq. apply has_name_true in Heq.
    rewrite shouldExecute_recurring by (apply Hrec; [by left | done]).
    rewrite Heq. pose proof (IH lr Hrest) as IHsame.
    destruct (later_than_last lr k _) eqn:Hlt; cbn [andb].
    2: { left. by apply due_jobs_marked. }
    destruct (shouldRunCron _ _).
    2: { exact IHsame. }
    right.
    destruct (due_jobs_marked now rest (<[k := minute_bucket (Date.getTime now)]> lr) Hrest)
      as [H1 H2].
    { rewrite (later_than_last_marked _ _ (minute_bucket (Date.getTime now)))
        by apply lookup_insert_eq.
      apply Z.ltb_irrefl. }
    cbn [List.filter]. rewrite Hk. cbn [length]. rewrite H1, H2, lookup_insert_eq. done.
  - pose proof Hk as Hne. apply has_name_false in Hne.
    destruct (shouldExecute lr now cron); [|by apply IH].
    cbn [List.filter]. rewrite Hk.
    destruct (IH (<[CronJobRow.name cron := minute_bucket (Date.getTime now)]> lr) Hrest)
      as [[H1 H2] | (H1 & H2 & H3)].
    + left. split; [exact H1|]. by rewrite H2, lookup_insert_ne.
    + right. split; [exact H1|]. split; [|exact H3].
      rewrite <- H2. symmetry. apply later_than_last_ext. by rewrite lookup_insert_ne.
Qed.

(** The store keeps its recurring names through the operations of the
    repository. *)
Lemma without_In (names : list string) (jobs : list CronJobRow.t) (job : CronJobRow.t) :
  In job (without names jobs) -> In job jobs.
Proof. unfold without. rewrite List.filter_In. tauto. Qed.

Lemma addCron_recurring (job : CronJobRow.t) (w : World) :
  (forall j, In j (jobsRepo w) -> CronJobRow.name j = k -> recurring j) ->
  (CronJobRow.name job = k -> recurring job) ->
  forall j, In j (jobsRepo (addCron job w).2) -> CronJobRow.name j = k -> recurring j.
Proof.
  intros Hw Hjob j. cbn [addCron snd jobsRepo].
  destruct (existsb _ _).
  - rewrite in_map_iff. intros (old & Hj & Hin).
    destruct (has_name _ old); [by subst j | subst j; by apply Hw].
  - rewrite in_app_iff. intros [Hin | [<- | []]]; [by apply Hw | done].
Qed.

Lemma removeCron_recurring (name : string) (w : World) :
  (forall j, In j (jobsRepo w) -> CronJobRow.name j = k -> recurring j) ->
  forall j, In j (jobsRepo (removeCron name w).2) -> CronJobRow.name j = k -> recurring j.
Proof.
  intros Hw j. cbn [removeCron snd jobsRepo]. rewrite List.filter_In.
  intros [Hin _]. by apply Hw.
Qed.

Variable env : Env.

Lemma run_once_per_minute (steps : list Step) : forall lr (w : World),
  recurring_name k steps w ->
  forall b,
    (started_in_minute k b (run env steps lr w).1.1 <= 1)%nat
    /\ (later_than_last lr k b = false -> started_in_minute k b (run env steps lr w).1.1 = O).
Proof.
  induction steps as [|step rest IH]; intros lr w [Hstore Hadd] b;
    [cbn; split; [lia | done]|].
  assert (Hadd' : forall job, In (StepAddCron job) rest -> CronJobRow.name job = k -> recurring job)
    by (intros job Hin; apply Hadd; by right).
  destruct step as [|job|name]; cbn [run].
  - (* a tick *)
    unfold cronTick. rewrite bind_eq. cbn [newDate fst snd restart_trace interactions].
    set (now := env_newDate env (interactions w)).
    set (w0 := advance _).
    destruct (cronTick_at_spec env now lr w0)
      as (attempts & scan & dels & H1 & H2 & H3 & H4 & H5 & H6 & H7 & H8 & H9 & H10 & H11
          & H12 & H13 & H14).
    cbv zeta in *.
    destruct (cronTick_at env now lr w0) as [lr1 w1] eqn:Htick. cbn [fst snd] in *.
    assert (Hstore1 : forall j, In j (jobsRepo w1) -> CronJobRow.name j = k -> recurring j).
    { intros j. rewrite H5. intros Hin%without_In. by apply Hstore. }
    specialize (IH lr1 w1 (conj Hstore1 Hadd')).
    destruct (run env rest lr1 w1) as [[reports lr2] w2]. cbn [fst snd] in *.
    cbn [started_in_minute report_now report_events].
    rewrite H3. change (trace w0) with (@nil Event). cbn [app]. rewrite H13.
    change (jobsRepo w0) with (jobsRepo w) in *.
    rewrite in_minute_bucket.
    destruct (due_jobs_recurring now (jobsRepo w) lr Hstore) as [[G1 G2] | (G1 & G2 & G3)].
    + rewrite G1. cbn [length]. rewrite H2 in IH.
      destruct (IH b) as [I1 I2]. rewrite (later_than_last_ext _ _ _ _ G2) in I2.
      destruct (_ =? b); cbn; split; done.
    + rewrite G1. rewrite H2 in IH.
      destruct (IH b) as [I1 I2]. rewrite (later_than_last_marked _ _ _ _ G3) in I2.
      destruct (Z.eqb_spec (minute_bucket (Date.getTime now)) b) as [Heq | Hne].
      * rewrite I2 by (apply Z.ltb_ge; lia). split; [done|]. intros Hle.
        rewrite Heq in G2. congruence.
      * cbn. split; [done|]. intros Hle. apply I2, Z.ltb_ge.
        pose proof (later_than_last_order _ _ _ _ Hle G2). lia.
  - (* a job is added *)
    apply IH. split; [|done].
    apply addCron_recurring; [done|]. apply Hadd. by left.
  - (* a job is removed *)
    apply IH. split; [|done].
    by apply removeCron_recurring.
Qed.

End OncePerMinute.

(** C6, as stated, fails for a job whose name is that of a member that
    every object inherits.  The job [constructor] of every minute has no
    time of its own and no minute recorded in the map of a new tick loop;
    at a date that its schedule matches, in a minute after minute 0, it is
    not due: [lastRun] is a plain object, under that name it reads as the
    constructor of objects, and no minute is after it.  Over two ticks
    the job is started no time and nothing is delivered.  So it is for
    every job of such a name, as long as the map has nothing written
    under the name. *)
Theorem C6_inherited_name_never_due :
  CronJobRow.runAt constructor_job = None
  /\ createCronTickLoop !! CronJobRow.name constructor_job = None
  /\ 0 < minute_bucket (Date.getTime a_date)
  /\ shouldRunCron (CronJobRow.schedule constructor_job) a_date = true
  /\ shouldExecute createCronTickLoop a_date constructor_job = false
  /\ (let out := run silent_env [StepTick; StepTick] createCronTickLoop
                     (world_with [constructor_job]) in
      map report_events out.1.1 = [[]; []] /\ runsRepo out.2 = [])
  /\ (forall (lastRun0 : gmap string Z) (now : Date.t) (cron : CronJobRow.t),
        inherited_member (CronJobRow.name cron) = true ->
        lastRun0 !! CronJobRow.name cron = None ->
        shouldExecute lastRun0 now cron = false).
Proof.
  split; [reflexivity|]. split; [reflexivity|]. split; [vm_compute; reflexivity|].
  split; [vm_compute; reflexivity|]. split; [vm_compute; reflexivity|].
  split; [cbv zeta; split; vm_compute; reflexivity|].
  apply inherited_never_due.
Qed.

(** X25: a recurring job whose name is not that of an inherited member is
    due on a tick exactly when the minute of the tick is after the last
    one written under its name, none written counting as minute 0, and
    its schedule matches; and in a run of ticks, with jobs added and
    removed in between, a recurring name is started at most once in the
    ticks of one minute, however many ticks read the clock in it. *)
Theorem X25_recurring_once_per_minute :
  (forall (lastRun0 : gmap string Z) (now : Date.t) (cron : CronJobRow.t),
      CronJobRow.runAt cron = None ->
      inherited_member (CronJobRow.name cron) = false ->
      shouldExecute lastRun0 now cron = true
      <-> exists minute,
            in_minute minute (Date.getTime now) = true
            /\ default 0 (lastRun0 !! CronJobRow.name cron) < minute
            /\ shouldRunCron (CronJobRow.schedule cron) now = true)
  /\ (forall (env : Env) (steps : list Step) (w : World) (k : string) (minute : Z),
        recurring_name k steps w ->
        (started_in_minute k minute (run env steps createCronTickLoop w).1.1 <= 1)%nat).
Proof.
  split.
  - intros lr now cron Hrun Hown.
    rewrite shouldExecute_recurring by (unfold recurring; by rewrite Hrun).
    rewrite andb_true_iff.
    assert (Hlater : forall b, later_than_last lr (CronJobRow.name cron) b
                               = (default 0 (lr !! CronJobRow.name cron) <? b)).
    { intros b. unfold later_than_last, lastRun_get. rewrite Hown.
      by destruct (lr !! CronJobRow.name cron). }
    rewrite Hlater, Z.ltb_lt. split.
    + intros [Hlt Hmatch]. exists (minute_bucket (Date.getTime now)).
      split; [|done]. rewrite in_minute_bucket. apply Z.eqb_refl.
    + intros (minute & Hin & Hlt & Hmatch). rewrite in_minute_bucket in Hin.
      apply Z.eqb_eq in Hin. by rewrite Hin.
  - intros env steps w k minute Hrec.
    apply (run_once_per_minute k env steps createCronTickLoop w Hrec minute).
Qed.

(** ** Schedule matcher *)

Section Matcher.

Lemma same_value_zero_int (v : Number.t) (z : Z) :
  Number.same_value_zero v (Number.int z) = true <-> v = Number.int z.
Proof.
  unfold Number.int. destruct v as [| neg | n j]; cbn; try (split; [discriminate | discriminate]).
  rewrite andb_true_iff, Z.eqb_eq, Nat.eqb_eq. split.
  - by intros [-> ->].
  - intros [= -> ->]. done.
Qed.

Lemma Array_includes_int (values : list Number.t) (z : Z) :
  Array_includes values (Number.int z) = true <-> In (Number.int z) values.
Proof.
  unfold Array_includes. rewrite existsb_exists. split.
  - intros (v & Hin & Hv). apply same_value_zero_int in Hv. by subst v.
  - intros Hin. exists (Number.int z). split; [done|]. by apply same_value_zero_int.
Qed.

End Matcher.

(** [shouldRunCron] answers [true] exactly when the parser returns and
    the minute, the hour, the day of the month, the month and the day of
    the week of the date are each in the set returned for that field, all
    five together; where the parser throws it answers [false]. *)
Lemma shouldRunCron_spec (schedule : string) (date : Date.t) :
  (shouldRunCron schedule date = true
   <-> exists cron,
         parseCronSchedule schedule = Return cron
         /\ In (Number.int (Date.getMinutes date)) (minute cron)
         /\ In (Number.int (Date.getHours date)) (hour cron)
         /\ In (Number.int (Date.getDate date)) (day cron)
         /\ In (Number.int (Date.getMonth date + 1)) (month cron)
         /\ In (Number.int (Date.getDay date)) (weekday cron))
  /\ (forall e, parseCronSchedule schedule = Throw e -> shouldRunCron schedule date = false).
Proof.
  unfold shouldRunCron. destruct (parseCronSchedule schedule) as [cron | e].
  - split; [|discriminate].
    rewrite !andb_true_iff, !Array_includes_int. split.
    + intros [[[[H1 H2] H3] H4] H5]. by exists cron.
    + intros (c & [= <-] & H1 & H2 & H3 & H4 & H5). done.
  - split; [|done]. split; [discriminate|]. by intros (c & Hc & _).
Qed.

(** Five valid fields separated by tabs, or by runs of two spaces, are a
    schedule for the specification, and [parseCronSchedule] raises on
    both. *)
Lemma whitespace_separated_refused :
  spec_valid_schedule tab_separated
  /\ parseCronSchedule tab_separated = Throw InvalidCronSchedule
  /\ spec_valid_schedule double_spaced
  /\ parseCronSchedule double_spaced = Throw InvalidCronSchedule.
Proof.
  assert (Hany : forall min max, spec_field min max "*") by (intros; constructor).
  split; [|split; [reflexivity|split; [|reflexivity]]].
  - exists "*", "*", "*", "*", "*". split; [reflexivity|]. repeat split; apply Hany.
  - exists "0", "*", "*", "*", "*". split; [reflexivity|].
    repeat split; try apply Hany. by apply (field_single 0 59 "0" 0).
Qed.

(** *** Numbers: integers that are represented exactly, or finitely *)

Section Rounding.

Lemma reduce_pow2 (k : nat) : forall n : Z,
  Number.reduce (n * 2 ^ Z.of_nat k) k = Number.Fin n 0.
Proof.
  induction k as [|k IH]; intros n.
  - cbn [Number.reduce]. change (2 ^ Z.of_nat 0) with 1. by rewrite Z.mul_1_r.
  - cbn [Number.reduce].
    replace (n * 2 ^ Z.of_nat (S k)) with (2 * (n * 2 ^ Z.of_nat k))
      by (rewrite Nat2Z.inj_succ, Z.pow_succ_r by lia; ring).
    rewrite Z.even_mul. cbn [Z.even orb].
    rewrite Z.mul_comm, Z.div_mul by lia. apply IH.
Qed.

(** For an integer, the exponent of the value is that of the integer. *)
Lemma floor_log2_ratio_int (n : Z) :
  0 < n -> Number.floor_log2_ratio n 1 = Z.log2 n.
Proof.
  intros Hn. unfold Number.floor_log2_ratio.
  change (Z.log2 1) with 0. rewrite Z.sub_0_r.
  pose proof (Z.log2_nonneg n) as Hl.
  rewrite (Z.max_l 0 (- Z.log2 n)), (Z.max_r 0 (Z.log2 n)) by lia.
  destruct (Z.log2_spec n Hn) as [Hlo _].
  replace (_ <? _) with false; [done|].
  symmetry. apply Z.ltb_ge. change (2 ^ 0) with 1. lia.
Qed.

(** An integer below [2^53] is a number as it is. *)
Lemma of_Z_exact (n : Z) : 0 <= n < 2 ^ 53 -> Number.of_Z n = Number.Fin n 0.
Proof.
  intros [Hlo Hhi]. unfold Number.of_Z, Number.of_ratio.
  destruct (Z.eqb_spec n 0) as [-> | Hne]; [done|].
  replace (0 <? n) with true by (symmetry; apply Z.ltb_lt; lia).
  unfold Number.round_pos. rewrite floor_log2_ratio_int by lia.
  assert (He : 0 <= Z.log2 n <= 52).
  { split; [apply Z.log2_nonneg|].
    assert (Z.log2 n < 53); [|lia]. apply Z.log2_lt_pow2; lia. }
  set (e := Z.log2 n) in *.
  rewrite (Z.max_l (e - 52) (-1074)) by lia.
  rewrite (Z.max_r 0 (- (e - 52))), (Z.max_l 0 (e - 52)) by lia.
  change (2 ^ 0) with 1. rewrite Z.mul_1_l, Z.div_1_r, Z.mod_1_r.
  set (num := n * 2 ^ (- (e - 52))).
  assert (Hpow : 2 ^ (e - 52) = 0 \/ e = 52).
  { destruct (Z.eq_dec e 52) as [-> | ?]; [by right | left].
    apply Z.pow_neg_r. lia. }
  assert (Hno : (2 ^ 1024 <=? num * 2 ^ (e - 52)) = false).
  { apply Z.leb_gt. destruct Hpow as [-> | ->].
    - rewrite Z.mul_0_r. done.
    - subst num. change (2 ^ (- (52 - 52))) with 1. change (2 ^ (52 - 52)) with 1.
      rewrite !Z.mul_1_r. eapply Z.lt_trans; [exact Hhi | done]. }
  change (2 * 0 <? 1) with true. cbv iota.
  rewrite Hno. unfold Number.normalize.
  destruct (Z.leb_spec 0 (e - 52)) as [Hq | Hq].
  - assert (e = 52) as -> by lia. subst num.
    change (2 ^ (- (52 - 52))) with 1. change (2 ^ (52 - 52)) with 1.
    by rewrite !Z.mul_1_r.
  - subst num. rewrite <- (Z2Nat.id (- (e - 52))) at 1 by lia. apply reduce_pow2.
Qed.

(** A positive integer below [OVERFLOW] is a finite positive number. *)
Lemma of_Z_finite (n : Z) :
  0 < n < OVERFLOW -> exists m, Number.of_Z n = Number.Fin m 0 /\ 0 < m.
Proof.
  intros [Hlo Hhi].
  destruct (Z.lt_ge_cases n (2 ^ 53)) as [Hsmall | Hbig].
  { exists n. split; [apply of_Z_exact; lia | done]. }
  unfold Number.of_Z, Number.of_ratio.
  replace (n =? 0) with false by (symmetry; apply Z.eqb_neq; lia).
  replace (0 <? n) with true by (symmetry; apply Z.ltb_lt; lia).
  unfold Number.round_pos. rewrite floor_log2_ratio_int by lia.
  assert (He : 53 <= Z.log2 n <= 1023).
  { split.
    - apply Z.log2_le_pow2; lia.
    - assert (Z.log2 n < 1024); [|lia]. apply Z.log2_lt_pow2; [lia|].
      unfold OVERFLOW in Hhi. lia. }
  destruct (Z.log2_spec n Hlo) as [Hn1 Hn2].
  set (e := Z.log2 n) in *.
  rewrite (Z.max_l (e - 52) (-1074)) by lia.
  set (q := e - 52). assert (Hq : 1 <= q <= 971) by lia.
  rewrite (Z.max_l 0 (- q)), (Z.max_r 0 q) by lia.
  change (2 ^ 0) with 1. rewrite Z.mul_1_r, Z.mul_1_l.
  assert (Hden : 0 < 2 ^ q) by (apply Z.pow_pos_nonneg; lia).
  pose proof (Z.div_mod n (2 ^ q) ltac:(lia)) as Hdm.
  pose proof (Z.mod_pos_bound n (2 ^ q) Hden) as Hr.
  set (m := n / 2 ^ q) in *. set (r := n mod 2 ^ q) in *.
  assert (Hpow : 2 ^ e = 2 ^ 52 * 2 ^ q).
  { subst q. rewrite <- Z.pow_add_r by lia. f_equal. lia. }
  assert (Hpow1 : 2 ^ (Z.succ e) = 2 ^ 53 * 2 ^ q).
  { subst q. rewrite <- Z.pow_add_r by lia. f_equal. lia. }
  assert (Hm : 2 ^ 52 <= m < 2 ^ 53) by nia.
  set (m' := if 2 * r <? 2 ^ q then m
             else if 2 ^ q <? 2 * r then m + 1 else if Z.even m then m else m + 1).
  assert (Hm' : (m' = m /\ 2 * r <= 2 ^ q) \/ (m' = m + 1 /\ 2 ^ q <= 2 * r)).
  { subst m'. destruct (Z.ltb_spec (2 * r) (2 ^ q)); [left; lia|].
    destruct (Z.ltb_spec (2 ^ q) (2 * r)); [right; lia|].
    destruct (Z.even m); [left | right]; lia. }
  assert (Hno : (2 ^ 1024 <=? m' * 2 ^ q) = false).
  { apply Z.leb_gt.
    destruct (Z.eq_dec q 971) as [Hq971 | Hq971].
    - rewrite Hq971 in *. unfold OVERFLOW in Hhi.
      change (2 ^ 1024) with (2 ^ 53 * 2 ^ 971).
      change (2 ^ 1024 - 2 ^ 970) with ((2 ^ 53 - 1) * 2 ^ 971 + 2 ^ 970) in Hhi.
      change (2 ^ 971) with (2 * 2 ^ 970) in *.
      destruct Hm' as [[-> _] | [-> Hge]]; nia.
    - assert (Hle : 2 ^ q <= 2 ^ 970) by (apply Z.pow_le_mono_r; lia).
      change (2 ^ 1024) with (2 ^ 54 * 2 ^ 970).
      assert (m' <= 2 ^ 53) by (destruct Hm' as [[-> _] | [-> _]]; lia).
      nia. }
  rewrite Hno. unfold Number.normalize.
  replace (0 <=? q) with true by (symmetry; apply Z.leb_le; lia).
  exists (m' * 2 ^ q). split; [done|].
  destruct Hm' as [[-> _] | [-> _]]; nia.
Qed.

End Rounding.

(** *** Strings of digits and separators *)

Section Characters.

Implicit Types (c x : ascii) (s a b : string).

Lemma prefix_char c x s :
  String.prefix (String c "") (String x s) = Ascii.eqb x c.
Proof.
  cbn [String.prefix]. destruct (ascii_dec c x) as [-> | Hne].
  - rewrite Ascii.eqb_refl. by destruct s.
  - symmetry. apply Ascii.eqb_neq. congruence.
Qed.

Lemma no_char_app c a b : no_char c (a +:+ b) = no_char c a && no_char c b.
Proof.
  unfold no_char. induction a as [|x a IH]; [done|].
  rewrite append_cons. cbn [string_forall]. by rewrite IH, andb_assoc.
Qed.

Lemma no_char_includes c s : no_char c s = true -> JS.includes (String c "") s = false.
Proof.
  unfold no_char. induction s as [|x s IH]; [done|].
  cbn [string_forall JS.includes]. rewrite prefix_char.
  intros [Hx Hs]%andb_true_iff. rewrite (IH Hs).
  by destruct (Ascii.eqb x c).
Qed.

Lemma includes_char_app c a b : JS.includes (String c "") (a +:+ String c b) = true.
Proof.
  induction a as [|x a IH].
  - change ("" +:+ String c b) with (String c b).
    cbn [JS.includes]. by rewrite prefix_char, Ascii.eqb_refl.
  - rewrite append_cons. cbn [JS.includes]. rewrite IH. apply orb_true_r.
Qed.

Lemma split_char_app c a b :
  no_char c a = true ->
  JS.split_from (String c "") 0 (a +:+ String c b) = a :: JS.split_from (String c "") 0 b.
Proof.
  unfold no_char. induction a as [|x a IH]; intros Ha.
  - change ("" +:+ String c b) with (String c b).
    cbn [JS.split_from]. by rewrite prefix_char, Ascii.eqb_refl.
  - cbn [string_forall] in Ha. apply andb_true_iff in Ha as [Hx Ha].
    rewrite append_cons. cbn [JS.split_from]. rewrite prefix_char.
    destruct (Ascii.eqb x c); [done|]. by rewrite (IH Ha).
Qed.

Lemma split_char_none c a :
  no_char c a = true -> JS.split_from (String c "") 0 a = [a].
Proof. intros Ha. by apply split_from_absent, no_char_includes. Qed.

Lemma digits_no_char c s :
  is_digit c = false -> string_forall is_digit s = true -> no_char c s = true.
Proof.
  intros Hc. unfold no_char. induction s as [|x s IH]; [done|].
  cbn [string_forall]. intros [Hx Hs]%andb_true_iff. rewrite (IH Hs), andb_true_r.
  apply negb_true_iff, Ascii.eqb_neq. intros ->. congruence.
Qed.

(** What a digit is and is not. *)
Lemma digit_props c :
  is_digit c = true ->
  Number.digit_value 10 c = Some (Z.of_nat (nat_of_ascii c) - 48)
  /\ Number.is_white_space c = false
  /\ Number.sign (String c "") = (false, String c "")
  /\ Ascii.eqb c "x" || Ascii.eqb c "X" = false
  /\ Ascii.eqb c "o" || Ascii.eqb c "O" = false
  /\ Ascii.eqb c "b" || Ascii.eqb c "B" = false
  /\ Ascii.eqb c "I" = false
  /\ Ascii.eqb c "*" = false.
Proof.
  destruct c as [[] [] [] [] [] [] [] []]; vm_compute; intros H;
    first [discriminate H | repeat split].
Qed.

Lemma sign_digit c s : is_digit c = true -> Number.sign (String c s) = (false, String c s).
Proof.
  intros Hc. destruct (digit_props c Hc) as (_ & _ & Hs & _).
  unfold Number.sign in *.
  destruct c as [[] [] [] [] [] [] [] []]; try done.
Qed.

Lemma numeral_from_spec s : forall (acc v : Z) (count : nat),
  numeral_from acc s = Some v ->
  string_forall is_digit s = true
  /\ Number.digits_from 10 acc count s = (v, (count + String.length s)%nat, "").
Proof.
  induction s as [|c s IH]; intros acc v count.
  - cbn. intros [= ->]. by rewrite Nat.add_0_r.
  - cbn [numeral_from string_forall Number.digits_from String.length].
    destruct (is_digit c) eqn:Hc; [|discriminate].
    destruct (digit_props c Hc) as (-> & _).
    intros H. destruct (IH _ _ (S count) H) as [H1 H2].
    rewrite H1, H2. split; [done|]. do 2 f_equal. lia.
Qed.

Lemma numeral_from_nonneg s : forall acc v,
  0 <= acc -> numeral_from acc s = Some v -> 0 <= v.
Proof.
  induction s as [|c s IH]; intros acc v Hacc; cbn [numeral_from].
  - intros [= <-]. done.
  - destruct (is_digit c) eqn:Hc; [|discriminate].
    apply IH. unfold is_digit in Hc. apply andb_true_iff in Hc as [H1 H2].
    apply Nat.leb_le in H1. lia.
Qed.

(** A numeral: a digit, then digits. *)
Lemma numeral_spec s v :
  numeral s = Some v ->
  exists c s', s = String c s' /\ is_digit c = true
               /\ string_forall is_digit s = true
               /\ Number.digits 10 s = (v, S (String.length s'), "")
               /\ 0 <= v.
Proof.
  destruct s as [|c s']; [discriminate|]. cbn [numeral]. intros H.
  exists c, s'. destruct (numeral_from_spec _ _ _ O H) as [H1 H2].
  pose proof H1 as H1'. cbn [string_forall] in H1'. apply andb_true_iff in H1' as [Hc _].
  repeat split; try done. by eapply numeral_from_nonneg.
Qed.

Lemma trim_start_digit c s : is_digit c = true -> Number.trim_start (String c s) = String c s.
Proof.
  intros Hc. destruct (digit_props c Hc) as (_ & Hw & _).
  cbn [Number.trim_start]. by rewrite Hw.
Qed.

Lemma trim_end_digits s : string_forall is_digit s = true -> Number.trim_end s = s.
Proof.
  induction s as [|c s IH]; [done|]. cbn [string_forall Number.trim_end].
  intros [Hc Hs]%andb_true_iff. rewrite (IH Hs).
  destruct (digit_props c Hc) as (_ & Hw & _). rewrite Hw. by destruct s.
Qed.

Lemma parseInt10_numeral s v : numeral s = Some v -> Number.parseInt10 s = Number.of_Z v.
Proof.
  intros (c & s' & -> & Hc & Hall & Hd & Hv)%numeral_spec.
  unfold Number.parseInt10. rewrite trim_start_digit, sign_digit, Hd by done. done.
Qed.

Lemma of_string_numeral s v : numeral s = Some v -> Number.of_string s = Number.of_Z v.
Proof.
  intros (c & s' & -> & Hc & Hall & Hd & Hv)%numeral_spec.
  unfold Number.of_string. rewrite trim_start_digit, trim_end_digits by done.
  destruct (digit_props c Hc) as (_ & _ & _ & Hx & Ho & Hb & HI & _).
  assert (Hnd : Number.non_decimal (String c s') = None).
  { unfold Number.non_decimal.
    assert (Hs' : match s' with
                  | String c2 body =>
                      (if Ascii.eqb c2 "x" || Ascii.eqb c2 "X" then Some 16
                       else if Ascii.eqb c2 "o" || Ascii.eqb c2 "O" then Some 8
                       else if Ascii.eqb c2 "b" || Ascii.eqb c2 "B" then Some 2
                       else @None Z) = None
                  | EmptyString => True
                  end).
    { destruct s' as [|c2 body]; [done|]. cbn [string_forall] in Hall.
      apply andb_true_iff in Hall as [_ Hall]. apply andb_true_iff in Hall as [Hc2 _].
      destruct (digit_props c2 Hc2) as (_ & _ & _ & -> & -> & -> & _). done. }
    destruct c as [[] [] [] [] [] [] [] []]; try done.
    destruct s' as [|c2 body]; [done|]. by rewrite Hs'. }
  rewrite Hnd, sign_digit by done.
  unfold Number.unsigned_decimal.
  replace (String.eqb (String c s') "Infinity") with false
    by (cbn [String.eqb]; by rewrite HI).
  rewrite Hd. cbn [Nat.add Nat.eqb Number.exponent_part Number.digits Number.digits_from].
  unfold Number.of_decimal. cbn [Z.of_nat Z.sub Z.opp Z.leb Z.compare].
  change (10 ^ 0) with 1. rewrite !Z.mul_1_r, Z.add_0_r. done.
Qed.

End Characters.

(** *** Fields of the grammar are parsed *)

Section Fields.

Variables min max : Z.
Hypothesis max_small : max < 2 ^ 53.

Lemma value_in_range (v : Z) :
  0 <= v -> min <= v <= max ->
  Number.of_Z v = Number.Fin v 0
  /\ negb (Number.isFinite (Number.Fin v 0))
     || Number.ltb (Number.Fin v 0) (Number.int min)
     || Number.gtb (Number.Fin v 0) (Number.int max) = false.
Proof.
  intros Hv [Hlo Hhi]. split; [apply of_Z_exact; lia|].
  unfold Number.gtb, Number.ltb, Number.int. cbn [Number.isFinite negb orb Z.of_nat].
  change (2 ^ 0) with 1. rewrite !Z.mul_1_r.
  apply orb_false_iff. split; apply Z.ltb_ge; lia.
Qed.

Lemma check_values_numerals (items : list string) :
  Forall (fun ds => exists v, numeral ds = Some v /\ min <= v <= max) items ->
  check_values min max (map Number.of_string items) = Return tt.
Proof.
  induction 1 as [|ds items (v & Hnum & Hr) _ IH]; [done|].
  cbn [map check_values]. rewrite (of_string_numeral _ _ Hnum).
  destruct (numeral_spec _ _ Hnum) as (_ & _ & _ & _ & _ & _ & Hv).
  destruct (value_in_range v Hv Hr) as [-> ->]. exact IH.
Qed.

Lemma numeral_starts_with_digit (ds : string) (v : Z) :
  numeral ds = Some v -> starts_with_digit ds.
Proof. intros (c & s & -> & Hc & _)%numeral_spec. by exists c, s. Qed.

Lemma starts_with_digit_app (a b : string) :
  starts_with_digit a -> starts_with_digit (a +:+ b).
Proof. intros (c & s & -> & Hc). exists c, (s +:+ b). by rewrite append_cons. Qed.

Lemma starts_with_digit_tests (f : string) :
  starts_with_digit f -> String.eqb f "*" = false /\ JS.startsWith "*/" f = false.
Proof.
  intros (c & s & -> & Hc). destruct (digit_props c Hc) as (_ & _ & _ & _ & _ & _ & _ & Hstar).
  split.
  - cbn [String.eqb]. by rewrite Hstar.
  - unfold JS.startsWith. cbn [String.prefix].
    destruct (ascii_dec "*" c) as [<- | _]; [discriminate Hc | done].
Qed.

Lemma numeral_no_char (c : ascii) (ds : string) (v : Z) :
  is_digit c = false -> numeral ds = Some v -> no_char c ds = true.
Proof.
  intros Hc (_ & _ & _ & _ & Hall & _)%numeral_spec. by apply digits_no_char.
Qed.

Lemma join_cons2 (sep a b : string) (rest : list string) :
  JS.join sep (a :: b :: rest) = a +:+ sep +:+ JS.join sep (b :: rest).
Proof. reflexivity. Qed.

Lemma split_join_char (c : ascii) (items : list string) :
  items <> [] ->
  Forall (fun ds => no_char c ds = true) items ->
  JS.split_from (String c "") 0 (JS.join (String c "") items) = items.
Proof.
  intros Hne Hall. induction Hall as [|a items Ha Hall IH]; [done|].
  destruct items as [|b rest].
  - cbn [JS.join]. by apply split_char_none.
  - rewrite join_cons2. change (String c "" +:+ ?x) with (String c x).
    rewrite split_char_app by done. f_equal. by apply IH.
Qed.

Lemma no_char_join (c sep : ascii) (items : list string) :
  Ascii.eqb sep c = false ->
  Forall (fun ds => no_char c ds = true) items ->
  no_char c (JS.join (String sep "") items) = true.
Proof.
  intros Hsep Hall. induction Hall as [|a items Ha Hall IH]; [done|].
  destruct items as [|b rest]; [done|].
  rewrite join_cons2, !no_char_app, Ha, IH. unfold no_char at 1. cbn [string_forall].
  by rewrite Hsep.
Qed.

(** A field of the grammar, with a finite step, is parsed. *)
Lemma parse_spec_field (f : string) :
  spec_field min max f -> step_is_finite f ->
  exists values, parse f min max = Return values.
Proof.
  intros Hf Hstep. unfold parse. destruct Hf as [| ds n Hnum Hn | items Hlen Hall
                                                | a b va vb Ha Hb H1 H2 H3 | ds v Hnum Hv].
  - eexists. reflexivity.
  - change (String.eqb ("*/" +:+ ds) "*") with false.
    change (JS.startsWith "*/" ("*/" +:+ ds)) with (String.prefix "" ds).
    replace (String.prefix "" ds) with true by (by destruct ds).
    change (JS.slice 2 ("*/" +:+ ds)) with ds.
    rewrite (parseInt10_numeral _ _ Hnum).
    destruct (of_Z_finite n) as (m & -> & Hm).
    { split; [done|]. by apply (Hstep ds n). }
    replace (Number.leb (Number.Fin m 0) (Number.int 0)) with false.
    + eexists. reflexivity.
    + unfold Number.leb, Number.ltb, Number.strict_eqb, Number.int. cbn [Z.of_nat].
      change (2 ^ 0) with 1. rewrite Z.mul_1_r. cbn [Z.mul].
      symmetry. apply orb_false_iff. split; [apply Z.ltb_ge; lia|].
      apply andb_false_iff. left. apply Z.eqb_neq. lia.
  - destruct items as [|a [|b rest]]; try (cbn in Hlen; lia).
    assert (Hdigit : starts_with_digit (JS.join "," (a :: b :: rest))).
    { rewrite join_cons2. apply starts_with_digit_app.
      inversion Hall as [|? ? (v & Hnum & _) _]; subst.
      by eapply numeral_starts_with_digit. }
    destruct (starts_with_digit_tests _ Hdigit) as [-> ->].
    replace (JS.includes "," (JS.join "," (a :: b :: rest))) with true
      by (rewrite join_cons2; symmetry; apply includes_char_app).
    unfold JS.split. rewrite split_join_char; [|done|].
    + rewrite (check_values_numerals _ Hall). eexists. reflexivity.
    + eapply Forall_impl; [exact Hall|]. intros ds (v & Hnum & _).
      by eapply numeral_no_char.
  - assert (Hdigit : starts_with_digit (a +:+ "-" +:+ b))
      by (eapply starts_with_digit_app, numeral_starts_with_digit; exact Ha).
    destruct (starts_with_digit_tests _ Hdigit) as [-> ->].
    replace (JS.includes "," (a +:+ "-" +:+ b)) with false.
    2:{ symmetry. apply no_char_includes. rewrite !no_char_app.
        rewrite (numeral_no_char "," a va), (numeral_no_char "," b vb) by done. done. }
    replace (JS.includes "-" (a +:+ "-" +:+ b)) with true
      by (symmetry; apply includes_char_app).
    unfold JS.split. change ("-" +:+ b) with (String "-" b).
    rewrite split_char_app by (by eapply numeral_no_char).
    rewrite split_char_none by (by eapply numeral_no_char).
    cbn [map]. rewrite (of_string_numeral _ _ Ha), (of_string_numeral _ _ Hb).
    destruct (numeral_spec _ _ Ha) as (_ & _ & _ & _ & _ & _ & Hva).
    destruct (numeral_spec _ _ Hb) as (_ & _ & _ & _ & _ & _ & Hvb).
    rewrite !of_Z_exact by lia.
    replace (_ || _) with false; [eexists; reflexivity|].
    unfold Number.gtb, Number.ltb, Number.int. cbn [Number.isFinite negb orb Z.of_nat].
    change (2 ^ 0) with 1. rewrite !Z.mul_1_r. symmetry.
    repeat (apply orb_false_iff; split); apply Z.ltb_ge; lia.
  - destruct (starts_with_digit_tests _ (numeral_starts_with_digit _ _ Hnum)) as [-> ->].
    rewrite !no_char_includes by (by eapply numeral_no_char).
    rewrite (parseInt10_numeral _ _ Hnum).
    destruct (numeral_spec _ _ Hnum) as (_ & _ & _ & _ & _ & _ & Hv0).
    destruct (value_in_range v Hv0 Hv) as [-> ->]. eexists. reflexivity.
Qed.

(** A field of the grammar has no space in it. *)
Lemma spec_field_no_space (f : string) : spec_field min max f -> no_char " " f = true.
Proof.
  intros [| ds n Hnum Hn | items Hlen Hall | a b va vb Ha Hb H1 H2 H3 | ds v Hnum Hv].
  - reflexivity.
  - rewrite no_char_app, (numeral_no_char " " ds n) by done. done.
  - apply no_char_join; [done|]. eapply Forall_impl; [exact Hall|].
    intros ds (v & Hnum & _). by eapply numeral_no_char.
  - rewrite !no_char_app, (numeral_no_char " " a va), (numeral_no_char " " b vb) by done.
    done.
  - by eapply numeral_no_char.
Qed.

End Fields.

Lemma split_single_spaced (f0 f1 f2 f3 f4 : string) :
  no_char " " f0 = true -> no_char " " f1 = true -> no_char " " f2 = true ->
  no_char " " f3 = true -> no_char " " f4 = true ->
  JS.split " " (single_spaced f0 f1 f2 f3 f4) = [f0; f1; f2; f3; f4].
Proof.
  intros H0 H1 H2 H3 H4. unfold single_spaced, JS.split.
  repeat (change (" " +:+ ?x) with (String " " x); rewrite split_char_app by done).
  by rewrite split_char_none.
Qed.

(** Why the steps are asked to be finite: a step of [10^309] reads as
    [Infinity], and the field is refused. *)
Example huge_step_refused :
  spec_field 0 59 huge_step /\ parse huge_step 0 59 = Throw (InvalidStep huge_step).
Proof.
  split; [|vm_compute; reflexivity].
  apply (field_step 0 59 ("1" +:+ repeat_string "0" 309) (10 ^ 309)); [|done].
  vm_compute. reflexivity.
Qed.

(** [parseCronSchedule] raises whenever cutting the string at every
    single space does not give exactly five parts; it returns exactly when
    there are five such parts and the field parser accepts each; and five
    fields of the grammar, their steps below the overflow of numbers,
    joined by single spaces, are parsed. *)
Lemma five_fields_single_spaces :
  (forall s, length (JS.split " " s) <> 5%nat -> parseCronSchedule s = Throw InvalidCronSchedule)
  /\ (forall s,
        (exists cron, parseCronSchedule s = Return cron)
        <-> exists p0 p1 p2 p3 p4,
              JS.split " " s = [p0; p1; p2; p3; p4]
              /\ (exists v, parse p0 0 59 = Return v)
              /\ (exists v, parse p1 0 23 = Return v)
              /\ (exists v, parse p2 1 31 = Return v)
              /\ (exists v, parse p3 1 12 = Return v)
              /\ (exists v, parse p4 0 6 = Return v))
  /\ (forall f0 f1 f2 f3 f4,
        spec_valid_fields f0 f1 f2 f3 f4 ->
        step_is_finite f0 -> step_is_finite f1 -> step_is_finite f2 ->
        step_is_finite f3 -> step_is_finite f4 ->
        exists cron, parseCronSchedule (single_spaced f0 f1 f2 f3 f4) = Return cron).
Proof.
  split; [|split].
  - intros s Hlen. unfold parseCronSchedule.
    destruct (JS.split " " s) as [|p0 [|p1 [|p2 [|p3 [|p4 [|p5 rest]]]]]]; try done.
  - intros s. unfold parseCronSchedule.
    destruct (JS.split " " s) as [|p0 [|p1 [|p2 [|p3 [|p4 [|p5 rest]]]]]];
      try (split; [by intros [? ?] | by intros (? & ? & ? & ? & ? & ? & _)]).
    split.
    + intros [cron H]. exists p0, p1, p2, p3, p4. split; [done|].
      destruct (parse p0 0 59); [|done]. destruct (parse p1 0 23); [|done].
      destruct (parse p2 1 31); [|done]. destruct (parse p3 1 12); [|done].
      destruct (parse p4 0 6); [|done]. repeat split; by eexists.
    + intros (q0 & q1 & q2 & q3 & q4 & [= <- <- <- <- <-]
              & [v0 ->] & [v1 ->] & [v2 ->] & [v3 ->] & [v4 ->]).
      eexists. reflexivity.
  - intros f0 f1 f2 f3 f4 (F0 & F1 & F2 & F3 & F4) S0 S1 S2 S3 S4.
    unfold parseCronSchedule.
    rewrite split_single_spaced by (by eapply spec_field_no_space).
    destruct (parse_spec_field 0 59 ltac:(done) f0 F0 S0) as [v0 ->].
    destruct (parse_spec_field 0 23 ltac:(done) f1 F1 S1) as [v1 ->].
    destruct (parse_spec_field 1 31 ltac:(done) f2 F2 S2) as [v2 ->].
    destruct (parse_spec_field 1 12 ltac:(done) f3 F3 S3) as [v3 ->].
    destruct (parse_spec_field 0 6 ltac:(done) f4 F4 S4) as [v4 ->].
    eexists. reflexivity.
Qed.

(** ** More of the schedule matcher: what the fields stand for *)

Section IntegerArithmetic.

(** A positive integer below [OVERFLOW] is the number of that value when
    it is below [2^53], and a number of [2^53] at least otherwise. *)
Lemma of_Z_round (n : Z) :
  0 < n < OVERFLOW ->
  exists m, Number.of_Z n = Number.Fin m 0
            /\ (n < 2 ^ 53 -> m = n) /\ (2 ^ 53 <= n -> 2 ^ 53 <= m).
Proof.
  intros [Hlo Hhi].
  destruct (Z.lt_ge_cases n (2 ^ 53)) as [Hsmall | Hbig].
  { exists n. split; [apply of_Z_exact; lia | split; [done | lia]]. }
  unfold Number.of_Z, Number.of_ratio.
  replace (n =? 0) with false by (symmetry; apply Z.eqb_neq; lia).
  replace (0 <? n) with true by (symmetry; apply Z.ltb_lt; lia).
  unfold Number.round_pos. rewrite floor_log2_ratio_int by lia.
  assert (He : 53 <= Z.log2 n <= 1023).
  { split.
    - apply Z.log2_le_pow2; lia.
    - assert (Z.log2 n < 1024); [|lia]. apply Z.log2_lt_pow2; [lia|].
      unfold OVERFLOW in Hhi. lia. }
  destruct (Z.log2_spec n Hlo) as [Hn1 Hn2].
  set (e := Z.log2 n) in *.
  rewrite (Z.max_l (e - 52) (-1074)) by lia.
  set (q := e - 52). assert (Hq : 1 <= q <= 971) by lia.
  rewrite (Z.max_l 0 (- q)), (Z.max_r 0 q) by lia.
  change (2 ^ 0) with 1. rewrite Z.mul_1_r, Z.mul_1_l.
  assert (Hden : 0 < 2 ^ q) by (apply Z.pow_pos_nonneg; lia).
  assert (Hden2 : 2 <= 2 ^ q).
  { change 2 with (2 ^ 1) at 1. apply Z.pow_le_mono_r; lia. }
  pose proof (Z.div_mod n (2 ^ q) ltac:(lia)) as Hdm.
  pose proof (Z.mod_pos_bound n (2 ^ q) Hden) as Hr.
  set (m := n / 2 ^ q) in *. set (r := n mod 2 ^ q) in *.
  assert (Hpow : 2 ^ e = 2 ^ 52 * 2 ^ q).
  { subst q. rewrite <- Z.pow_add_r by lia. f_equal. lia. }
  assert (Hpow1 : 2 ^ (Z.succ e) = 2 ^ 53 * 2 ^ q).
  { subst q. rewrite <- Z.pow_add_r by lia. f_equal. lia. }
  assert (Hm : 2 ^ 52 <= m < 2 ^ 53) by nia.
  set (m' := if 2 * r <? 2 ^ q then m
             else if 2 ^ q <? 2 * r then m + 1 else if Z.even m then m else m + 1).
  assert (Hm' : (m' = m /\ 2 * r <= 2 ^ q) \/ (m' = m + 1 /\ 2 ^ q <= 2 * r)).
  { subst m'. destruct (Z.ltb_spec (2 * r) (2 ^ q)); [left; lia|].
    destruct (Z.ltb_spec (2 ^ q) (2 * r)); [right; lia|].
    destruct (Z.even m); [left | right]; lia. }
  assert (Hno : (2 ^ 1024 <=? m' * 2 ^ q) = false).
  { apply Z.leb_gt.
    destruct (Z.eq_dec q 971) as [Hq971 | Hq971].
    - rewrite Hq971 in *. unfold OVERFLOW in Hhi.
      change (2 ^ 1024) with (2 ^ 53 * 2 ^ 971).
      change (2 ^ 1024 - 2 ^ 970) with ((2 ^ 53 - 1) * 2 ^ 971 + 2 ^ 970) in Hhi.
      change (2 ^ 971) with (2 * 2 ^ 970) in *.
      destruct Hm' as [[-> _] | [-> Hge]]; nia.
    - assert (Hle : 2 ^ q <= 2 ^ 970) by (apply Z.pow_le_mono_r; lia).
      change (2 ^ 1024) with (2 ^ 54 * 2 ^ 970).
      assert (m' <= 2 ^ 53) by (destruct Hm' as [[-> _] | [-> _]]; lia).
      nia. }
  rewrite Hno. unfold Number.normalize.
  replace (0 <=? q) with true by (symmetry; apply Z.leb_le; lia).
  exists (m' * 2 ^ q). split; [done|]. split; [lia|]. intros _.
  change (2 ^ 53) with (2 ^ 52 * 2).
  destruct Hm' as [[-> _] | [-> _]]; nia.
Qed.

Lemma add_int (a b : Z) :
  0 <= a + b < 2 ^ 53 -> Number.add (Number.Fin a 0) (Number.Fin b 0) = Number.Fin (a + b) 0.
Proof.
  intros H. unfold Number.add. cbn [Z.of_nat Nat.add]. change (2 ^ 0) with 1.
  rewrite !Z.mul_1_r. apply (of_Z_exact _ H).
Qed.

Lemma rem_int (a m : Z) :
  0 <= a < 2 ^ 53 -> 0 < m ->
  Number.rem (Number.int a) (Number.Fin m 0) = Number.int (a mod m).
Proof.
  intros Ha Hm. unfold Number.rem, Number.int.
  replace (m =? 0) with false by (symmetry; apply Z.eqb_neq; lia).
  cbn [Z.of_nat Nat.add]. change (2 ^ 0) with 1. rewrite !Z.mul_1_r.
  rewrite Z.rem_mod_nonneg by lia.
  pose proof (Z.mod_pos_bound a m Hm). apply of_Z_exact.
  assert (a mod m <= a) by (apply Z.mod_le; lia). lia.
Qed.

Lemma toLength_int (n : Z) : 0 <= n < 2 ^ 53 -> Number.toLength (Number.Fin n 0) = n.
Proof.
  intros H. unfold Number.toLength. cbn [Z.of_nat]. change (2 ^ 0) with 1.
  rewrite Z.quot_1_r. lia.
Qed.

Lemma filter_ext_in {A : Type} (p q : A -> bool) (l : list A) :
  (forall x, In x l -> p x = q x) -> List.filter p l = List.filter q l.
Proof.
  induction l as [|x l IH]; intros H; [done|]. cbn [List.filter].
  rewrite (H x) by (by left). rewrite IH; [done|]. intros y Hy. apply H. by right.
Qed.

Lemma stdpp_filter_bool {A : Type} (p : A -> bool) (l : list A) :
  filter (fun x => p x = true) l = List.filter p l.
Proof.
  induction l as [|x l IH]; [done|]. rewrite filter_cons. cbn [List.filter].
  rewrite IH. destruct (p x); by case_decide.
Qed.

Lemma In_seqZ (min len v : Z) : In v (seqZ min len) <-> min <= v < min + len.
Proof. rewrite <- list_elem_of_In, elem_of_seqZ. done. Qed.

Lemma Array_from_int_from (va : Z) (n : nat) : forall k,
  0 <= va -> 0 <= k -> va + k + Z.of_nat n < 2 ^ 53 ->
  map (fun i => Number.add (Number.Fin va 0) (Number.int i)) (seqZ k (Z.of_nat n))
  = map Number.int (seqZ (va + k) (Z.of_nat n)).
Proof.
  induction n as [|n IH]; intros k Hva Hk Hlt; [done|].
  rewrite !(seqZ_cons _ (Z.of_nat (S n))) by lia.
  replace (Z.pred (Z.of_nat (S n))) with (Z.of_nat n) by lia.
  cbn [map]. unfold Number.int at 1. rewrite add_int by lia. f_equal.
  rewrite IH by lia. do 2 f_equal. lia.
Qed.

Lemma Array_from_int (va len : Z) :
  0 <= va -> 0 <= len -> va + len < 2 ^ 53 ->
  Array_from (Number.Fin len 0) (Number.Fin va 0) = map Number.int (seqZ va len).
Proof.
  intros Hva Hlen Hlt. unfold Array_from. rewrite toLength_int by lia.
  rewrite <- (Z2Nat.id len) by lia. rewrite Array_from_int_from by lia.
  do 2 f_equal. lia.
Qed.

End IntegerArithmetic.

Section Overflow.

(** An integer of [OVERFLOW] at least is read as [Infinity]. *)
Lemma of_Z_overflow (n : Z) : OVERFLOW <= n -> Number.of_Z n = Number.Inf false.
Proof.
  intros Hn. assert (Hpos : 0 < n) by (unfold OVERFLOW in Hn; lia).
  unfold Number.of_Z, Number.of_ratio.
  replace (n =? 0) with false by (symmetry; apply Z.eqb_neq; lia).
  replace (0 <? n) with true by (symmetry; apply Z.ltb_lt; lia).
  unfold Number.round_pos. rewrite floor_log2_ratio_int by lia.
  assert (He : 1023 <= Z.log2 n).
  { apply Z.log2_le_pow2; [lia|]. unfold OVERFLOW in Hn. lia. }
  destruct (Z.log2_spec n Hpos) as [Hn1 Hn2].
  set (e := Z.log2 n) in *.
  rewrite (Z.max_l (e - 52) (-1074)) by lia.
  set (q := e - 52). assert (Hq : 971 <= q) by lia.
  rewrite (Z.max_l 0 (- q)), (Z.max_r 0 q) by lia.
  change (2 ^ 0) with 1. rewrite Z.mul_1_r, Z.mul_1_l.
  assert (Hden : 0 < 2 ^ q) by (apply Z.pow_pos_nonneg; lia).
  pose proof (Z.div_mod n (2 ^ q) ltac:(lia)) as Hdm.
  pose proof (Z.mod_pos_bound n (2 ^ q) Hden) as Hr.
  set (m := n / 2 ^ q) in *. set (r := n mod 2 ^ q) in *.
  assert (Hpow : 2 ^ e = 2 ^ 52 * 2 ^ q).
  { subst q. rewrite <- Z.pow_add_r by lia. f_equal. lia. }
  assert (Hpow1 : 2 ^ (Z.succ e) = 2 ^ 53 * 2 ^ q).
  { subst q. rewrite <- Z.pow_add_r by lia. f_equal. lia. }
  assert (Hm : 2 ^ 52 <= m < 2 ^ 53) by nia.
  set (m' := if 2 * r <? 2 ^ q then m
             else if 2 ^ q <? 2 * r then m + 1 else if Z.even m then m else m + 1).
  assert (Hm'ge : m <= m').
  { subst m'. destruct (_ <? _); [lia|]. destruct (_ <? _); [lia|].
    destruct (Z.even m); lia. }
  replace (2 ^ 1024 <=? m' * 2 ^ q) with true; [done|].
  symmetry. apply Z.leb_le.
  destruct (Z.eq_dec q 971) as [Hq971 | Hq971].
  - rewrite Hq971 in *. unfold OVERFLOW in Hn.
    change (2 ^ 1024) with (2 ^ 53 * 2 ^ 971).
    change (2 ^ 1024 - 2 ^ 970) with ((2 ^ 53 - 1) * 2 ^ 971 + 2 ^ 970) in Hn.
    assert (Hr970 : 2 ^ 971 = 2 * 2 ^ 970) by done.
    assert (Hmeq : m = 2 ^ 53 - 1) by nia.
    assert (Hrge : 2 ^ 970 <= r) by nia.
    assert (Hm'eq : m' = m + 1).
    { subst m'. destruct (Z.ltb_spec (2 * r) (2 ^ q)) as [Hlt|_]; [rewrite Hq971 in Hlt; lia|].
      destruct (Z.ltb_spec (2 ^ q) (2 * r)); [done|].
      rewrite Hmeq. done. }
    rewrite Hm'eq, Hmeq. lia.
  - assert (Hle : 2 ^ 972 <= 2 ^ q) by (apply Z.pow_le_mono_r; lia).
    change (2 ^ 1024) with (2 ^ 52 * 2 ^ 972). nia.
Qed.

(** The test of the bounds on the number read from a numeral. *)
Lemma out_of_range_numeral (min max v : Z) :
  0 <= v -> max < 2 ^ 53 ->
  negb (Number.isFinite (Number.of_Z v))
  || Number.ltb (Number.of_Z v) (Number.int min)
  || Number.gtb (Number.of_Z v) (Number.int max)
  = negb ((min <=? v) && (v <=? max)).
Proof.
  intros Hv Hmax.
  destruct (Z.lt_ge_cases v (2 ^ 53)) as [Hsmall | Hbig].
  - rewrite of_Z_exact by lia.
    unfold Number.gtb, Number.ltb, Number.int. cbn [Number.isFinite negb orb Z.of_nat].
    change (2 ^ 0) with 1. rewrite !Z.mul_1_r.
    rewrite negb_andb, <- !Z.ltb_antisym. done.
  - replace ((min <=? v) && (v <=? max)) with false
      by (symmetry; apply andb_false_iff; right; apply Z.leb_gt; lia).
    destruct (Z.lt_ge_cases v OVERFLOW) as [Hfin | Hinf].
    + destruct (of_Z_round v ltac:(lia)) as (m & -> & _ & Hm). specialize (Hm Hbig).
      unfold Number.gtb, Number.ltb, Number.int. cbn [Number.isFinite negb orb Z.of_nat].
      change (2 ^ 0) with 1. rewrite !Z.mul_1_r.
      replace (max <? m) with true by (symmetry; apply Z.ltb_lt; lia).
      apply orb_true_r.
    + by rewrite of_Z_overflow.
Qed.

End Overflow.

Section FieldValues.

Variables min max : Z.
Hypothesis min_nonneg : 0 <= min.
Hypothesis min_le_max : min <= max.
Hypothesis max_room : max + 1 < 2 ^ 53.

Lemma max_small : max < 2 ^ 53.
Proof. lia. Qed.

Lemma numeral_nonneg (ds : string) (v : Z) : numeral ds = Some v -> 0 <= v.
Proof. by intros (_ & _ & _ & _ & _ & _ & Hv)%numeral_spec. Qed.

Lemma numeral_tests (ds : string) (v : Z) :
  numeral ds = Some v ->
  String.eqb ds "*" = false /\ JS.startsWith "*/" ds = false
  /\ JS.includes "," ds = false /\ JS.includes "-" ds = false.
Proof.
  pose proof max_small as Hmax_small.
  intros Hnum.
  destruct (starts_with_digit_tests _ (numeral_starts_with_digit _ _ Hnum)) as [-> ->].
  rewrite !no_char_includes by (by eapply numeral_no_char). done.
Qed.

(** A single numeral. *)
Lemma parse_single_cases (ds : string) (v : Z) :
  numeral ds = Some v ->
  parse ds min max
  = if (min <=? v) && (v <=? max) then Return [Number.int v]
    else Throw (ValueOutOfRange (Number.of_Z v)).
Proof.
  pose proof max_small as Hmax_small.
  intros Hnum. pose proof (numeral_nonneg _ _ Hnum) as Hv. unfold parse.
  destruct (numeral_tests _ _ Hnum) as (-> & -> & -> & ->).
  rewrite (parseInt10_numeral _ _ Hnum), out_of_range_numeral by done.
  destruct ((min <=? v) && (v <=? max)) eqn:Hin.
  - cbn [negb]. rewrite of_Z_exact; [done|].
    apply andb_true_iff in Hin as [_ H2%Z.leb_le]. lia.
  - done.
Qed.

(** A step. *)
Lemma parse_step_cases (ds : string) (n : Z) :
  numeral ds = Some n ->
  parse ("*/" +:+ ds) min max
  = if (0 <? n) && (n <? OVERFLOW)
    then Return (map Number.int
                   (List.filter (fun v => (v - min) mod n =? 0) (seqZ min (max - min + 1))))
    else Throw (InvalidStep ("*/" +:+ ds)).
Proof.
  pose proof max_small as Hmax_small.
  intros Hnum. pose proof (numeral_nonneg _ _ Hnum) as Hn. unfold parse.
  change (String.eqb ("*/" +:+ ds) "*") with false.
  change (JS.startsWith "*/" ("*/" +:+ ds)) with (String.prefix "" ds).
  replace (String.prefix "" ds) with true by (by destruct ds).
  change (JS.slice 2 ("*/" +:+ ds)) with ds.
  rewrite (parseInt10_numeral _ _ Hnum).
  destruct (Z.ltb_spec 0 n) as [Hpos | Hzero]; cbn [andb].
  2:{ assert (n = 0) as -> by lia. done. }
  destruct (Z.ltb_spec n OVERFLOW) as [Hfin | Hinf].
  2:{ by rewrite of_Z_overflow. }
  destruct (of_Z_round n ltac:(lia)) as (m & -> & Hsmall & Hbig).
  assert (Hm : 0 < m).
  { destruct (Z.lt_ge_cases n (2 ^ 53)) as [H | H]; [rewrite Hsmall by done; lia|].
    specialize (Hbig H). lia. }
  replace (Number.leb (Number.Fin m 0) (Number.int 0)) with false.
  2:{ unfold Number.leb, Number.ltb, Number.strict_eqb, Number.int. cbn [Z.of_nat].
      change (2 ^ 0) with 1. rewrite Z.mul_1_r. cbn [Z.mul].
      symmetry. apply orb_false_iff. split; [apply Z.ltb_ge; lia|].
      apply andb_false_iff. left. apply Z.eqb_neq. lia. }
  cbn [Number.isFinite negb orb]. do 2 f_equal.
  unfold full_range. rewrite stdpp_filter_bool. apply filter_ext_in.
  intros v [Hv1 Hv2]%In_seqZ.
  rewrite rem_int by lia.
  unfold Number.strict_eqb, Number.int. cbn [Nat.eqb]. rewrite andb_true_r.
  destruct (Z.lt_ge_cases n (2 ^ 53)) as [H | H]; [by rewrite Hsmall|].
  specialize (Hbig H). by rewrite !Z.mod_small by lia.
Qed.

Lemma is_finite_of_Z (v : Z) :
  0 <= v -> Number.isFinite (Number.of_Z v) = (v <? OVERFLOW).
Proof.
  pose proof max_small as Hmax_small.
  intros Hv. destruct (Z.ltb_spec v OVERFLOW) as [Hfin | Hinf].
  - destruct (Z.eq_dec v 0) as [-> | Hne]; [done|].
    by destruct (of_Z_round v ltac:(lia)) as (m & -> & _).
  - by rewrite of_Z_overflow.
Qed.

Lemma gtb_of_Z (a b : Z) :
  0 <= a < OVERFLOW -> 0 <= b < 2 ^ 53 ->
  Number.gtb (Number.of_Z a) (Number.Fin b 0) = (b <? a).
Proof.
  pose proof max_small as Hmax_small.
  intros Ha Hb. unfold Number.gtb, Number.ltb.
  destruct (Z.lt_ge_cases a (2 ^ 53)) as [H | H].
  - rewrite of_Z_exact by lia. cbn [Z.of_nat]. change (2 ^ 0) with 1. by rewrite !Z.mul_1_r.
  - destruct (of_Z_round a ltac:(lia)) as (m & -> & _ & Hm). specialize (Hm H).
    cbn [Z.of_nat]. change (2 ^ 0) with 1. rewrite !Z.mul_1_r.
    destruct (Z.ltb_spec b m), (Z.ltb_spec b a); lia.
Qed.

(** A range. *)
Lemma parse_range_cases (a b : string) (va vb : Z) :
  numeral a = Some va -> numeral b = Some vb ->
  parse (a +:+ "-" +:+ b) min max
  = if (min <=? va) && (va <=? vb) && (vb <=? max)
    then Return (map Number.int (seqZ va (vb - va + 1)))
    else Throw (InvalidRange (a +:+ "-" +:+ b)).
Proof.
  pose proof max_small as Hmax_small.
  intros Ha Hb. pose proof (numeral_nonneg _ _ Ha) as Hva.
  pose proof (numeral_nonneg _ _ Hb) as Hvb. unfold parse.
  assert (Hdigit : starts_with_digit (a +:+ "-" +:+ b))
    by (eapply starts_with_digit_app, numeral_starts_with_digit; exact Ha).
  destruct (starts_with_digit_tests _ Hdigit) as [-> ->].
  replace (JS.includes "," (a +:+ "-" +:+ b)) with false.
  2:{ symmetry. apply no_char_includes. rewrite !no_char_app.
      rewrite (numeral_no_char "," a va), (numeral_no_char "," b vb) by done. done. }
  replace (JS.includes "-" (a +:+ "-" +:+ b)) with true
    by (symmetry; apply includes_char_app).
  unfold JS.split. change ("-" +:+ b) with (String "-" b).
  rewrite split_char_app by (by eapply numeral_no_char).
  rewrite split_char_none by (by eapply numeral_no_char).
  cbn [map]. rewrite (of_string_numeral _ _ Ha), (of_string_numeral _ _ Hb).
  destruct ((min <=? va) && (va <=? vb) && (vb <=? max)) eqn:Hout.
  - rename Hout into Hin. apply andb_true_iff in Hin as [[H1%Z.leb_le H2%Z.leb_le]%andb_true_iff H3%Z.leb_le].
    rewrite !of_Z_exact by lia.
    replace (_ || _) with false.
    2:{ unfold Number.gtb, Number.ltb, Number.int. cbn [Number.isFinite negb orb Z.of_nat].
        change (2 ^ 0) with 1. rewrite !Z.mul_1_r. symmetry.
        repeat (apply orb_false_iff; split); apply Z.ltb_ge; lia. }
    f_equal. unfold Number.sub, Number.opp, Number.int.
    rewrite add_int by lia. rewrite add_int by lia.
    replace (vb + - va + 1) with (vb - va + 1) by lia.
    apply Array_from_int; lia.
  - replace (_ || _) with true; [done|]. symmetry.
    rewrite !is_finite_of_Z by done.
    destruct (Z.ltb_spec va OVERFLOW) as [Fa | Fa]; [|done].
    destruct (Z.ltb_spec vb OVERFLOW) as [Fb | Fb]; [|done].
    cbn [negb orb].
    apply andb_false_iff in Hout as [[H | H]%andb_false_iff | H]; apply Z.leb_gt in H.
    + rewrite of_Z_exact by lia.
      replace (Number.ltb (Number.Fin va 0) (Number.int min)) with true; [done|].
      unfold Number.ltb, Number.int. cbn [Z.of_nat]. change (2 ^ 0) with 1.
      rewrite !Z.mul_1_r. symmetry. by apply Z.ltb_lt.
    + destruct (Z.lt_ge_cases vb (2 ^ 53)) as [Sb | Sb].
      * rewrite (of_Z_exact vb) by lia. rewrite gtb_of_Z by lia.
        replace (vb <? va) with true by (symmetry; by apply Z.ltb_lt).
        apply orb_true_r.
      * unfold Number.int. rewrite (gtb_of_Z vb max) by lia.
        replace (max <? vb) with true by (symmetry; apply Z.ltb_lt; lia).
        rewrite orb_true_r. done.
    + unfold Number.int. rewrite (gtb_of_Z vb max) by lia.
      replace (max <? vb) with true by (symmetry; by apply Z.ltb_lt).
      rewrite orb_true_r. done.
Qed.

Lemma numerals_in_spec (items : list string) : forall vs,
  numerals_in min max items = Some vs ->
  Forall (fun ds => exists v, numeral ds = Some v /\ min <= v <= max) items
  /\ map Number.of_string items = map Number.int vs.
Proof.
  pose proof max_small as Hmax_small.
  induction items as [|ds rest IH]; intros vs; cbn [numerals_in].
  - intros [= <-]. done.
  - destruct (numeral ds) as [v|] eqn:Hnum; [|done].
    destruct (numerals_in min max rest) as [vs'|]; [|done].
    destruct ((min <=? v) && (v <=? max)) eqn:Hin; [|done].
    apply andb_true_iff in Hin as [H1%Z.leb_le H2%Z.leb_le].
    intros [= <-]. destruct (IH vs' eq_refl) as [F M]. split.
    + constructor; [by exists v | done].
    + cbn [map]. rewrite M, (of_string_numeral _ _ Hnum), of_Z_exact by lia. done.
Qed.

Lemma list_tests (items : list string) :
  (2 <= length items)%nat ->
  Forall (fun ds => exists v, numeral ds = Some v) items ->
  String.eqb (JS.join "," items) "*" = false
  /\ JS.startsWith "*/" (JS.join "," items) = false
  /\ JS.includes "," (JS.join "," items) = true
  /\ JS.split "," (JS.join "," items) = items.
Proof.
  pose proof max_small as Hmax_small.
  intros Hlen Hall. destruct items as [|a [|b rest]]; try (cbn in Hlen; lia).
  assert (Hdigit : starts_with_digit (JS.join "," (a :: b :: rest))).
  { rewrite join_cons2. apply starts_with_digit_app.
    inversion Hall as [|? ? (v & Hnum) _]; subst.
    by eapply numeral_starts_with_digit. }
  destruct (starts_with_digit_tests _ Hdigit) as [-> ->].
  split; [done|]. split; [done|]. split.
  - rewrite join_cons2. apply includes_char_app.
  - unfold JS.split. apply split_join_char; [done|].
    eapply Forall_impl; [exact Hall|]. intros ds (v & Hnum).
    by eapply numeral_no_char.
Qed.

(** A list. *)
Lemma parse_list_values (items : list string) (vs : list Z) :
  (2 <= length items)%nat ->
  numerals_in min max items = Some vs ->
  parse (JS.join "," items) min max = Return (map Number.int vs).
Proof.
  pose proof max_small as Hmax_small.
  intros Hlen Hvs. destruct (numerals_in_spec _ _ Hvs) as [Hall Hmap]. unfold parse.
  destruct (list_tests items Hlen) as (-> & -> & -> & ->).
  { eapply Forall_impl; [exact Hall|]. intros ds (v & ? & _). by exists v. }
  rewrite (check_values_numerals min max Hmax_small _ Hall). cbn [bindC]. by rewrite Hmap.
Qed.

Lemma check_values_first (items : list string) :
  Forall (fun ds => exists v, numeral ds = Some v) items ->
  check_values min max (map Number.of_string items)
  = match first_outside min max items with
    | Some v => Throw (ValueOutOfRange (Number.of_Z v))
    | None => Return tt
    end.
Proof.
  pose proof max_small as Hmax_small.
  induction 1 as [|ds rest (v & Hnum) _ IH]; [done|].
  cbn [map check_values first_outside]. rewrite Hnum, (of_string_numeral _ _ Hnum).
  rewrite out_of_range_numeral by (by eapply numeral_nonneg || done).
  destruct ((min <=? v) && (v <=? max)); cbn [negb]; [exact IH | done].
Qed.

(** A list with a value outside the bounds. *)
Lemma parse_list_outside (items : list string) (v : Z) :
  (2 <= length items)%nat ->
  Forall (fun ds => exists v, numeral ds = Some v) items ->
  first_outside min max items = Some v ->
  parse (JS.join "," items) min max = Throw (ValueOutOfRange (Number.of_Z v)).
Proof.
  pose proof max_small as Hmax_small.
  intros Hlen Hall Hfirst. unfold parse.
  destruct (list_tests items Hlen Hall) as (-> & -> & -> & ->).
  by rewrite (check_values_first _ Hall), Hfirst.
Qed.



End FieldValues.

(** X1: a step field [*/N], with [N] a numeral, is refused when [N] is 0
    or reads as an infinite number, and otherwise gives, in increasing
    order, the values of the field that are a multiple of [N] away from the
    least one. *)
Theorem X1_step_field_values (min max : Z) (ds : string) (n : Z) :
  field_bounds min max ->
  numeral ds = Some n ->
  parse ("*/" +:+ ds) min max
  = if (0 <? n) && (n <? OVERFLOW)
    then Return (map Number.int
                   (List.filter (fun v => (v - min) mod n =? 0) (seqZ min (max - min + 1))))
    else Throw (InvalidStep ("*/" +:+ ds)).
Proof. intros (H1 & H2 & H3). by apply parse_step_cases. Qed.

Lemma X1_step_field_values_witness :
  parse ("*/" +:+ "15") 0 59
  = if (0 <? 15) && (15 <? OVERFLOW)
    then Return (map Number.int
                   (List.filter (fun v => (v - 0) mod 15 =? 0) (seqZ 0 (59 - 0 + 1))))
    else Throw (InvalidStep ("*/" +:+ "15")).
Proof.
  apply (X1_step_field_values 0 59 "15" 15); [|reflexivity].
  unfold field_bounds. lia.
Defined.

(** X2: a range [a-b] of two numerals gives the values from [a] to [b],
    both included, when [a] is not below the least value of the field, [b]
    not above the greatest and [a] not above [b]; otherwise it is refused
    as an invalid range. *)
Theorem X2_range_field_values (min max : Z) (a b : string) (va vb : Z) :
  field_bounds min max ->
  numeral a = Some va -> numeral b = Some vb ->
  parse (a +:+ "-" +:+ b) min max
  = if (min <=? va) && (va <=? vb) && (vb <=? max)
    then Return (map Number.int (seqZ va (vb - va + 1)))
    else Throw (InvalidRange (a +:+ "-" +:+ b)).
Proof. intros (H1 & H2 & H3). by apply parse_range_cases. Qed.

Lemma X2_range_field_values_witness :
  parse ("5" +:+ "-" +:+ "2") 0 59
  = if (0 <=? 5) && (5 <=? 2) && (2 <=? 59)
    then Return (map Number.int (seqZ 5 (2 - 5 + 1)))
    else Throw (InvalidRange ("5" +:+ "-" +:+ "2")).
Proof.
  apply (X2_range_field_values 0 59 "5" "2" 5 2); [|reflexivity|reflexivity].
  unfold field_bounds. lia.
Defined.

(** X3: a list of two numerals or more gives their values in the order
    written, repeated values included, when all are within the bounds of
    the field; otherwise the first value outside the bounds is reported as
    out of range. *)
Theorem X3_list_field_values (min max : Z) (items : list string) :
  field_bounds min max ->
  (2 <= length items)%nat ->
  Forall (fun ds => exists v, numeral ds = Some v) items ->
  (forall vs, numerals_in min max items = Some vs ->
              parse (JS.join "," items) min max = Return (map Number.int vs))
  /\ (forall v, first_outside min max items = Some v ->
                parse (JS.join "," items) min max = Throw (ValueOutOfRange (Number.of_Z v))).
Proof.
  intros (H1 & H2 & H3) Hlen Hall. split.
  - intros vs Hvs. by apply parse_list_values.
  - intros v Hv. by apply parse_list_outside.
Qed.

Lemma X3_list_field_values_witness :
  (forall vs, numerals_in 0 59 ["30"; "0"; "30"] = Some vs ->
              parse (JS.join "," ["30"; "0"; "30"]) 0 59 = Return (map Number.int vs))
  /\ (forall v, first_outside 0 59 ["30"; "0"; "30"] = Some v ->
                parse (JS.join "," ["30"; "0"; "30"]) 0 59
                = Throw (ValueOutOfRange (Number.of_Z v))).
Proof.
  apply (X3_list_field_values 0 59 ["30"; "0"; "30"]).
  - unfold field_bounds. lia.
  - cbn. lia.
  - repeat constructor; eexists; reflexivity.
Defined.

(** X4: a single numeral gives its value when it is within the bounds of
    the field, and is reported as out of range otherwise, with the number
    it reads as. *)
Theorem X4_single_field_value (min max : Z) (ds : string) (v : Z) :
  field_bounds min max ->
  numeral ds = Some v ->
  parse ds min max
  = if (min <=? v) && (v <=? max) then Return [Number.int v]
    else Throw (ValueOutOfRange (Number.of_Z v)).
Proof. intros (H1 & H2 & H3). by apply parse_single_cases. Qed.

Lemma X4_single_field_value_witness :
  parse "60" 0 59
  = if (0 <=? 60) && (60 <=? 59) then Return [Number.int 60]
    else Throw (ValueOutOfRange (Number.of_Z 60)).
Proof.
  apply (X4_single_field_value 0 59 "60" 60); [|reflexivity].
  unfold field_bounds. lia.
Defined.




Section Lenient.

Lemma not_digit_value (c : ascii) : is_digit c = false -> Number.digit_value 10 c = None.
Proof.
  destruct c as [[] [] [] [] [] [] [] []]; vm_compute; intros H;
    first [discriminate H | reflexivity].
Qed.

Lemma digits_from_app (ds rest : string) : forall (acc v : Z) (count : nat),
  numeral_from acc ds = Some v -> starts_without_digit rest = true ->
  Number.digits_from 10 acc count (ds +:+ rest) = (v, (count + String.length ds)%nat, rest).
Proof.
  induction ds as [|c ds IH]; intros acc v count.
  - cbn [numeral_from]. intros [= ->] Hrest. change ("" +:+ rest) with rest.
    rewrite Nat.add_0_r. destruct rest as [|x rest]; [done|].
    cbn [starts_without_digit] in Hrest. apply negb_true_iff in Hrest.
    cbn [Number.digits_from]. by rewrite (not_digit_value _ Hrest).
  - cbn [numeral_from]. destruct (is_digit c) eqn:Hc; [|done]. intros Hv Hrest.
    rewrite append_cons. cbn [Number.digits_from String.length].
    destruct (digit_props c Hc) as (-> & _).
    rewrite (IH _ _ (S count) Hv Hrest). do 2 f_equal. lia.
Qed.

Lemma parseInt10_app (ds rest : string) (v : Z) :
  numeral ds = Some v -> starts_without_digit rest = true ->
  Number.parseInt10 (ds +:+ rest) = Number.of_Z v.
Proof.
  intros Hnum Hrest.
  destruct (numeral_spec _ _ Hnum) as (c & s' & -> & Hc & _).
  unfold Number.parseInt10. rewrite append_cons, trim_start_digit, sign_digit by done.
  rewrite <- append_cons. unfold Number.digits.
  rewrite (digits_from_app _ _ 0 v 0 Hnum Hrest). done.
Qed.

End Lenient.

(** X6: the single value branch reads the leading digits of a part and
    passes over what follows: a numeral followed by text that does not
    start with a digit and holds no comma, no hyphen, is parsed as the
    numeral alone, value or error alike. *)
Theorem X6_text_after_numeral_ignored (min max : Z) (ds rest : string) (v : Z) :
  numeral ds = Some v ->
  starts_without_digit rest = true ->
  no_char "," rest = true ->
  no_char "-" rest = true ->
  parse (ds +:+ rest) min max = parse ds min max.
Proof.
  intros Hnum Hrest Hcomma Hhyphen. unfold parse.
  assert (Hdigit : starts_with_digit (ds +:+ rest))
    by (eapply starts_with_digit_app, numeral_starts_with_digit; exact Hnum).
  destruct (starts_with_digit_tests _ Hdigit) as [-> ->].
  destruct (starts_with_digit_tests _ (numeral_starts_with_digit _ _ Hnum)) as [-> ->].
  rewrite !no_char_includes
    by (rewrite ?no_char_app, ?Hcomma, ?Hhyphen, ?andb_true_r; by eapply numeral_no_char).
  by rewrite (parseInt10_app _ _ _ Hnum Hrest), (parseInt10_numeral _ _ Hnum).
Qed.

Lemma X6_text_after_numeral_ignored_witness :
  parse ("5" +:+ "abc") 0 59 = parse "5" 0 59.
Proof.
  apply (X6_text_after_numeral_ignored 0 59 "5" "abc" 5); reflexivity.
Defined.

(** ** More of the template resolver *)

Section MoreTemplates.

Implicit Types (s t a b tok : string) (c x : ascii).

Lemma eqb_app_nonempty s c : String.eqb (s +:+ String c "") "" = false.
Proof. destruct s; reflexivity. Qed.

Lemma replace_final_LF_snoc s c :
  JS.replace_final_LF (s +:+ String c "")
  = if Ascii.eqb c "010" then s else s +:+ String c "".
Proof.
  induction s as [|x s IH].
  - change ("" +:+ String c "") with (String c ""). cbn [JS.replace_final_LF String.eqb].
    rewrite andb_true_r. by destruct (Ascii.eqb c "010").
  - rewrite append_cons. cbn [JS.replace_final_LF].
    rewrite eqb_app_nonempty, andb_false_r, IH.
    by destruct (Ascii.eqb c "010").
Qed.

Lemma prefix_app tok b : String.prefix tok (tok +:+ b) = true.
Proof.
  induction tok as [|c tok IH]; [by destruct b|].
  rewrite append_cons. cbn [String.prefix]. by destruct (ascii_dec c c).
Qed.

Lemma split_from_skip sep t : forall b,
  JS.split_from sep (String.length t) (t +:+ b) = JS.split_from sep 0 b.
Proof.
  induction t as [|c t IH]; intros b; [done|].
  rewrite append_cons. cbn [String.length JS.split_from]. apply IH.
Qed.

(** Where the separator stands at the head, a piece ends there and the
    scan resumes after it. *)
Lemma split_from_here tok b :
  tok <> "" ->
  JS.split_from tok 0 (tok +:+ b) = "" :: JS.split_from tok 0 b.
Proof.
  intros Hne. destruct tok as [|c t]; [done|].
  rewrite append_cons. cbn [JS.split_from]. rewrite <- append_cons, prefix_app.
  cbn [String.length Nat.sub]. rewrite Nat.sub_0_r. f_equal. apply split_from_skip.
Qed.

(** Text without the first character of the separator is passed over. *)
Lemma split_from_before c t a b :
  no_char c a = true ->
  JS.split_from (String c t) 0 (a +:+ String c t +:+ b)
  = a :: JS.split_from (String c t) 0 b.
Proof.
  unfold no_char. induction a as [|x a IH]; intros Ha.
  - change ("" +:+ ?r) with r. apply split_from_here. done.
  - cbn [string_forall] in Ha. apply andb_true_iff in Ha as [Hx Ha].
    rewrite append_cons. cbn [JS.split_from String.prefix].
    destruct (ascii_dec c x) as [-> | _]; [by rewrite Ascii.eqb_refl in Hx|].
    by rewrite (IH Ha).
Qed.

Lemma split_from_nonempty sep s : forall skip, JS.split_from sep skip s <> [].
Proof.
  induction s as [|c s IH]; intros skip; [done|]. cbn [JS.split_from].
  destruct skip; [|apply IH]. destruct (String.prefix _ _); [done|].
  by destruct (JS.split_from sep 0 s).
Qed.

Lemma join_cons sep a pieces :
  pieces <> [] -> JS.join sep (a :: pieces) = a +:+ sep +:+ JS.join sep pieces.
Proof. by destruct pieces. Qed.

Lemma length_append a b : String.length (a +:+ b) = (String.length a + String.length b)%nat.
Proof. induction a as [|c a IH]; [done|]. rewrite append_cons. cbn. by rewrite IH. Qed.

Lemma length_substring0 (n : nat) : forall s,
  String.length (JS.substring0 n s) = Nat.min n (String.length s).
Proof.
  induction n as [|n IH]; intros s; [done|]. destruct s as [|c s]; [done|].
  cbn. by rewrite IH.
Qed.

End MoreTemplates.

(** X7: a message in which no token of the results occurs is returned as
    it is. *)
Theorem X7_message_without_tokens_unchanged
    (message : string) (results : list CronScriptResult.t) :
  (forall r, In r results -> JS.includes (placeholder r) message = false) ->
  resolveScriptTemplates message results = message.
Proof. apply resolve_fixed. Qed.

Lemma X7_message_without_tokens_unchanged_witness :
  resolveScriptTemplates "No placeholders here" [result_42] = "No placeholders here".
Proof.
  apply (X7_message_without_tokens_unchanged "No placeholders here" [result_42]).
  intros r [<- | []]. reflexivity.
Defined.

(** X8: in the turn of a result, text before its token that holds no
    opening brace is kept, the token is replaced by the text of the result,
    and what follows the token is treated in the same way; in particular a
    message made of such text, the token, and text without the token
    becomes the first text, the replacement and the last text. *)
Theorem X8_token_replaced_in_place (a b : string) (r : CronScriptResult.t) :
  no_char "{" a = true ->
  resolve_step (a +:+ placeholder r +:+ b) r = a +:+ replacement r +:+ resolve_step b r
  /\ (JS.includes (placeholder r) b = false ->
      resolveScriptTemplates (a +:+ placeholder r +:+ b) [r] = a +:+ replacement r +:+ b).
Proof.
  intros Ha.
  assert (Hstep : resolve_step (a +:+ placeholder r +:+ b) r
                  = a +:+ replacement r +:+ resolve_step b r).
  { unfold resolve_step, JS.split, placeholder.
    change ("{{" +:+ ?n) with (String "{" (String "{" n)).
    rewrite split_from_before by done.
    rewrite join_cons by apply split_from_nonempty. done. }
  split; [exact Hstep|]. intros Hb.
  cbn [resolveScriptTemplates fold_left]. by rewrite Hstep, (resolve_step_absent b r Hb).
Qed.

Lemma X8_token_replaced_in_place_witness :
  resolve_step ("Result: " +:+ placeholder result_42 +:+ "") result_42
  = "Result: " +:+ replacement result_42 +:+ resolve_step "" result_42
  /\ (JS.includes (placeholder result_42) "" = false ->
      resolveScriptTemplates ("Result: " +:+ placeholder result_42 +:+ "") [result_42]
      = "Result: " +:+ replacement result_42 +:+ "").
Proof. apply (X8_token_replaced_in_place "Result: " "" result_42). reflexivity. Defined.

(** X9: the text that replaces a token.  For a result without error whose
    output is a text followed by a line feed, it is that text, whatever
    line feeds the text itself ends with; for a result with an error, it is
    the marker of the error, after the output and a line feed when there is
    output, and nothing of it is cut. *)
Theorem X9_replacement_text
    (name out stderr err : string) (code : ExitCode) (d : Z) :
  replacement (CronScriptResult.mk name code (out +:+ JS.LF) stderr d None) = out
  /\ (err <> "" ->
      replacement (CronScriptResult.mk name code "" stderr d (Some err))
      = "[script error: " +:+ err +:+ "]"
      /\ (out <> "" ->
          replacement (CronScriptResult.mk name code out stderr d (Some err))
          = out +:+ JS.LF +:+ "[script error: " +:+ err +:+ "]")).
Proof.
  split.
  - unfold replacement, replacement_raw. cbn [CronScriptResult.error CronScriptResult.stdout].
    unfold JS.LF. by rewrite replace_final_LF_snoc.
  - intros Herr. unfold replacement, replacement_raw.
    cbn [CronScriptResult.error CronScriptResult.stdout].
    assert (Ht : JS.truthy_string err = true).
    { unfold JS.truthy_string. apply negb_true_iff, String.eqb_neq. done. }
    rewrite Ht. split.
    + cbn [JS.truthy_string String.eqb negb].
      rewrite <- append_assoc. by rewrite replace_final_LF_snoc.
    + intros Hout.
      replace (JS.truthy_string out) with true
        by (symmetry; apply negb_true_iff, String.eqb_neq; done).
      rewrite <- !append_assoc. by rewrite replace_final_LF_snoc.
Qed.

(** ** More of the script runner *)

Lemma truncate_output_cases (out : string) :
  (JS.length out <= MAX_SCRIPT_OUTPUT -> truncate_output out = out)
  /\ (MAX_SCRIPT_OUTPUT < JS.length out ->
      truncate_output out
      = JS.substring0 (Z.to_nat MAX_SCRIPT_OUTPUT) out +:+ JS.LF +:+ MARKER
      /\ JS.length (truncate_output out) = MAX_SCRIPT_OUTPUT + 16)
  /\ JS.length (truncate_output out) <= MAX_SCRIPT_OUTPUT + 16.
Proof.
  unfold truncate_output, MARKER.
  assert (Hlong : MAX_SCRIPT_OUTPUT < JS.length out ->
                  JS.length (JS.substring0 (Z.to_nat MAX_SCRIPT_OUTPUT) out
                             +:+ JS.LF +:+ "... (truncated)") = MAX_SCRIPT_OUTPUT + 16).
  { unfold JS.length, MAX_SCRIPT_OUTPUT. intros Hlt.
    rewrite length_append, length_substring0.
    change (String.length (JS.LF +:+ "... (truncated)")) with 16%nat. lia. }
  destruct (Z.gtb_spec (JS.length out) MAX_SCRIPT_OUTPUT) as [Hgt | Hle].
  - split; [lia|]. split; [intros _; split; [done | apply Hlong; lia]|].
    rewrite Hlong by lia. lia.
  - split; [done|]. split; [lia|]. unfold MAX_SCRIPT_OUTPUT in *. lia.
Qed.

(** X10: for a script that completes, the result has the exit code 0 and
    no error; an output of at most 50,000 characters is returned as it is,
    and a longer one is cut to its first 50,000 characters followed by a
    line feed and the marker, 50,016 characters in all. *)
Theorem X10_completed_script_output_capped
    (env : Env) (script : CronScript.t) (w : World) (out err : string) :
  (forall n command cwd timeout, env_exec env n command cwd timeout = ExecResolved out err) ->
  let result := (executeCronScript env script w).1 in
  CronScriptResult.name result = CronScript.name script
  /\ CronScriptResult.exitCode result = ExitNumber 0
  /\ CronScriptResult.error result = None
  /\ CronScriptResult.stdout result = truncate_output out
  /\ CronScriptResult.stderr result = truncate_output err
  /\ (JS.length out <= MAX_SCRIPT_OUTPUT -> CronScriptResult.stdout result = out)
  /\ (MAX_SCRIPT_OUTPUT < JS.length out ->
      CronScriptResult.stdout result
      = JS.substring0 (Z.to_nat MAX_SCRIPT_OUTPUT) out +:+ JS.LF +:+ MARKER
      /\ JS.length (CronScriptResult.stdout result) = MAX_SCRIPT_OUTPUT + 16)
  /\ JS.length (CronScriptResult.stdout result) <= MAX_SCRIPT_OUTPUT + 16
  /\ JS.length (CronScriptResult.stderr result) <= MAX_SCRIPT_OUTPUT + 16.
Proof.
  intros Hexec. cbv zeta. rewrite executeCronScript_eq. cbv zeta. cbn [fst].
  rewrite Hexec. cbn [script_result CronScriptResult.name CronScriptResult.exitCode
                        CronScriptResult.error CronScriptResult.stdout CronScriptResult.stderr].
  destruct (truncate_output_cases out) as (H1 & H2 & H3).
  destruct (truncate_output_cases err) as (_ & _ & H4).
  repeat split; try done; by apply H2.
Qed.

Lemma X10_completed_script_output_capped_witness :
  let result := (executeCronScript silent_env failing_script empty_world).1 in
  CronScriptResult.name result = CronScript.name failing_script
  /\ CronScriptResult.exitCode result = ExitNumber 0
  /\ CronScriptResult.error result = None
  /\ CronScriptResult.stdout result = truncate_output ("42" +:+ JS.LF)
  /\ CronScriptResult.stderr result = truncate_output ""
  /\ (JS.length ("42" +:+ JS.LF) <= MAX_SCRIPT_OUTPUT
      -> CronScriptResult.stdout result = "42" +:+ JS.LF)
  /\ (MAX_SCRIPT_OUTPUT < JS.length ("42" +:+ JS.LF) ->
      CronScriptResult.stdout result
      = JS.substring0 (Z.to_nat MAX_SCRIPT_OUTPUT) ("42" +:+ JS.LF) +:+ JS.LF +:+ MARKER
      /\ JS.length (CronScriptResult.stdout result) = MAX_SCRIPT_OUTPUT + 16)
  /\ JS.length (CronScriptResult.stdout result) <= MAX_SCRIPT_OUTPUT + 16
  /\ JS.length (CronScriptResult.stderr result) <= MAX_SCRIPT_OUTPUT + 16.
Proof.
  apply (X10_completed_script_output_capped silent_env failing_script empty_world
           ("42" +:+ JS.LF) "").
  reflexivity.
Defined.

(** ** More of the tick scheduler *)

Section MoreTick.

Variable env : Env.

(** The attempt, cut at the race: what was prepared, how the delivery
    fared, and the block that follows. *)
Lemma execute_cron_outcome (cron : CronJobRow.t) (q : list string) (w : World) :
  let w1 := advance (emit (EvLog (RunningCron (CronJobRow.name cron) (CronJobRow.session cron))) w) in
  let startTime := env_dateNow env (S (interactions w)) in
  let p := prepare_message env cron w1 in
  let outcome := env_inject env (interactions p.2) (CronJobRow.session cron) p.1.1 in
  let w2 := emit (EvInject (CronJobRow.session cron) p.1.1 outcome) p.2 in
  execute_cron env cron q w
  = match outcome with
    | InjectFulfilled => record_success env cron startTime p.1.1 p.1.2 q w2
    | InjectRejected err => (q, (record_failure env cron startTime err w2).2)
    | InjectPending =>
        (q, (record_failure env cron startTime (timeout_error (CronJobRow.name cron)) w2).2)
    end.
Proof.
  cbv zeta. unfold execute_cron. rewrite !bind_eq. cbn [log dateNow inject_race fst snd].
  destruct (env_inject env _ _ _); [done| |]; by rewrite bind_eq.
Qed.

Lemma record_success_error (cron : CronJobRow.t) (startTime : Z) (sent : string)
    (results : option (list CronScriptResult.t)) (q : list string) (w : World) :
  exists run, runsRepo (record_success env cron startTime sent results q w).2 = runsRepo w ++ [run]
              /\ CronRunRow.error run = None /\ CronRunRow.startedAt run = startTime.
Proof.
  unfold record_success. rewrite !bind_eq. cbn [dateNow log addCronRun fst snd].
  destruct (truthy_bool (CronJobRow.once cron)).
  - rewrite bind_eq. eexists. cbn. repeat split; reflexivity.
  - eexists. cbn. repeat split; reflexivity.
Qed.

(** What one attempt records, by the outcome of the delivery. *)
Lemma execute_cron_record (cron : CronJobRow.t) (q : list string) (w : World) :
  let out := execute_cron env cron q w in
  exists (sent : string) (outcome : InjectOutcome) (run : CronRunRow.t) (events : list Event),
    trace out.2 = trace w ++ events
    /\ delivered events = [(CronJobRow.session cron, sent, outcome)]
    /\ recorded events = [run]
    /\ runsRepo out.2 = runsRepo w ++ [run]
    /\ CronRunRow.cronName run = CronJobRow.name cron
    /\ CronRunRow.session run = CronJobRow.session cron
    /\ CronRunRow.status run = (if is_fulfilled outcome then success else failure)
    /\ CronRunRow.error run = delivery_error (CronJobRow.name cron) outcome
    /\ (is_fulfilled outcome = true -> CronRunRow.message run = sent).
Proof.
  cbv zeta.
  destruct (execute_cron_spec env cron q w)
    as (sent & results & outcome & run & events & Htr & Hruns & Hjobs & Hq & Hd & Hr & Hx
        & Hs & F1 & F2 & F3 & F4 & F5 & _).
  cbv zeta in *. exists sent, outcome, run, events.
  repeat split; try done.
  2:{ intros Hf. by rewrite F4, Hf. }
  (* the error of the run, read off the block that wrote it *)
  pose proof (execute_cron_outcome cron q w) as Hcut. cbv zeta in Hcut.
  set (w1 := advance _) in Hcut. set (p := prepare_message env cron w1) in Hcut.
  set (o := env_inject env _ _ _) in Hcut. set (w2 := emit _ p.2) in Hcut.
  destruct (prepare_message_spec env cron w1)
    as (pev & Ptr & Pruns & _ & Pd & _).
  cbv zeta in Ptr, Pruns. fold p in Ptr, Pruns.
  assert (Hw2 : runsRepo w2 = runsRepo w) by (subst w2; cbn; by rewrite Pruns).
  assert (Ho : outcome = o).
  { assert (Hdel : delivered (trace (execute_cron env cron q w).2)
                   = delivered (trace w) ++ [(CronJobRow.session cron, p.1.1, o)]).
    { rewrite Hcut. destruct o eqn:Eo.
      - destruct (record_success_spec env cron (env_dateNow env (S (interactions w)))
                    p.1.1 p.1.2 q w2) as (r & tl & T & _ & _ & _ & D & _).
        cbv zeta in T. rewrite T. subst w2. cbn [emit trace]. rewrite Ptr. subst w1.
        cbn [emit advance trace]. autorewrite with readings. rewrite Pd, D. cbn.
        by rewrite !app_nil_r.
      - cbn [snd].
        destruct (record_failure_spec env cron (env_dateNow env (S (interactions w))) err w2)
          as (r & tl & T & _ & _ & D & _).
        cbv zeta in T. rewrite T. subst w2. cbn [emit trace]. rewrite Ptr. subst w1.
        cbn [emit advance trace]. autorewrite with readings. rewrite Pd, D. cbn.
        by rewrite !app_nil_r.
      - cbn [snd].
        destruct (record_failure_spec env cron (env_dateNow env (S (interactions w)))
                    (timeout_error (CronJobRow.name cron)) w2)
          as (r & tl & T & _ & _ & D & _).
        cbv zeta in T. rewrite T. subst w2. cbn [emit trace]. rewrite Ptr. subst w1.
        cbn [emit advance trace]. autorewrite with readings. rewrite Pd, D. cbn.
        by rewrite !app_nil_r. }
    rewrite Htr in Hdel. autorewrite with readings in Hdel. rewrite Hd in Hdel.
    apply app_inv_head in Hdel. by injection Hdel. }
  rewrite Hcut in Hruns. subst outcome. destruct o eqn:Eo.
  - destruct (record_success_error cron (env_dateNow env (S (interactions w)))
                p.1.1 p.1.2 q w2) as (r & R & E & _).
    rewrite R, Hw2 in Hruns. apply app_inv_head in Hruns. injection Hruns as <-. exact E.
  - cbn [snd] in Hruns.
    destruct (record_failure_spec env cron (env_dateNow env (S (interactions w))) err w2)
      as (r & tl & _ & R & _ & _ & _ & _ & _ & _ & _ & _ & _ & E & _).
    cbv zeta in R. rewrite R, Hw2 in Hruns. apply app_inv_head in Hruns.
    injection Hruns as <-. exact E.
  - cbn [snd] in Hruns.
    destruct (record_failure_spec env cron (env_dateNow env (S (interactions w)))
                (timeout_error (CronJobRow.name cron)) w2)
      as (r & tl & _ & R & _ & _ & _ & _ & _ & _ & _ & _ & _ & E & _).
    cbv zeta in R. rewrite R, Hw2 in Hruns. apply app_inv_head in Hruns.
    injection Hruns as <-. exact E.
Qed.

(** The events of one attempt: the start, those of the preparation, the
    delivery, and a tail that runs no script and delivers nothing. *)
Lemma execute_cron_trace (cron : CronJobRow.t) (q : list string) (w : World) :
  let w1 := advance (emit (EvLog (RunningCron (CronJobRow.name cron) (CronJobRow.session cron))) w) in
  let p := prepare_message env cron w1 in
  let outcome := env_inject env (interactions p.2) (CronJobRow.session cron) p.1.1 in
  exists tail : list Event,
    executed tail = [] /\ delivered tail = []
    /\ forall pev, trace p.2 = trace w1 ++ pev ->
         trace (execute_cron env cron q w).2
         = trace w ++ [EvLog (RunningCron (CronJobRow.name cron) (CronJobRow.session cron))]
             ++ pev ++ [EvInject (CronJobRow.session cron) p.1.1 outcome] ++ tail.
Proof.
  cbv zeta. pose proof (execute_cron_outcome cron q w) as Hcut. cbv zeta in Hcut.
  set (w1 := advance _) in *. set (p := prepare_message env cron w1) in *.
  set (o := env_inject env _ _ _) in *. set (w2 := emit _ p.2) in Hcut.
  assert (Hgen : forall (out : list string * World) (tl : list Event),
            trace out.2 = trace w2 ++ tl ->
            forall pev, trace p.2 = trace w1 ++ pev ->
            trace out.2
            = trace w ++ [EvLog (RunningCron (CronJobRow.name cron) (CronJobRow.session cron))]
                ++ pev ++ [EvInject (CronJobRow.session cron) p.1.1 o] ++ tl).
  { intros out tl T pev Ptr. rewrite T. subst w2. cbn [emit trace]. rewrite Ptr. subst w1.
    cbn [emit advance trace]. by rewrite <- !app_assoc. }
  rewrite Hcut. destruct o eqn:Eo.
  - destruct (record_success_spec env cron (env_dateNow env (S (interactions w)))
                p.1.1 p.1.2 q w2) as (r & tl & T & _ & _ & _ & D & _ & _ & E & _).
    exists tl. split; [done|]. split; [done|]. by apply Hgen.
  - destruct (record_failure_spec env cron (env_dateNow env (S (interactions w))) err w2)
      as (r & tl & T & _ & _ & D & _ & _ & E & _).
    exists tl. split; [done|]. split; [done|]. by apply Hgen.
  - destruct (record_failure_spec env cron (env_dateNow env (S (interactions w)))
                (timeout_error (CronJobRow.name cron)) w2)
      as (r & tl & T & _ & _ & D & _ & _ & E & _).
    exists tl. split; [done|]. split; [done|]. by apply Hgen.
Qed.

Lemma prepare_message_enabled (cron : CronJobRow.t) (w : World) (scripts : list CronScript.t) :
  CronJobRow.scripts cron = Some scripts -> scripts <> [] ->
  scripts_enabled (env_mainConfig env (interactions w)) = true ->
  (prepare_message env cron w).1.2 <> None.
Proof.
  intros Hs Hne Hcfg. unfold prepare_message. rewrite Hs.
  destruct scripts as [|s rest]; [done|].
  rewrite bind_eq. cbn [getMainConfig_daemon fst snd]. rewrite Hcfg. cbn [negb].
  rewrite !bind_eq. cbn [log fst snd]. by destruct (0 <? _).
Qed.

Lemma executeCronScripts_interactions (scripts : list CronScript.t) (w w' : World) :
  interactions w' = interactions w ->
  (executeCronScripts env scripts w').1 = (executeCronScripts env scripts w).1.
Proof.
  intros Hi. unfold executeCronScripts.
  destruct (executeCronScripts_from_imap env scripts [] w) as [-> _].
  destruct (executeCronScripts_from_imap env scripts [] w') as [-> _].
  by rewrite Hi.
Qed.

Lemma prepare_message_results (cron : CronJobRow.t) (w : World) (scripts : list CronScript.t) :
  CronJobRow.scripts cron = Some scripts -> scripts <> [] ->
  scripts_enabled (env_mainConfig env (interactions w)) = true ->
  (prepare_message env cron w).1.1
  = resolveScriptTemplates (CronJobRow.message cron)
      (executeCronScripts env scripts
         (mkWorld (S (S (interactions w))) (jobsRepo w) (runsRepo w) [])).1.
Proof.
  intros Hs Hne Hcfg. unfold prepare_message. rewrite Hs.
  destruct scripts as [|s rest]; [done|].
  rewrite bind_eq. cbn [getMainConfig_daemon fst snd]. rewrite Hcfg. cbn [negb].
  rewrite !bind_eq. cbn [log fst snd].
  set (ws := emit _ (emit _ w)).
  rewrite (executeCronScripts_interactions (s :: rest) ws
             (mkWorld (S (S (interactions w))) (jobsRepo w) (runsRepo w) [])) by done.
  by destruct (0 <? _).
Qed.

Lemma tick_crons_idle (now : Date.t) (crons : list CronJobRow.t) (st : TickState) (w : World) :
  (forall cron, In cron crons -> shouldExecute (lastRun st) now cron = false) ->
  tick_crons env now st crons w = (st, w).
Proof.
  induction crons as [|cron rest IH]; intros H; [done|].
  cbn [tick_crons]. rewrite bind_eq. unfold tick_cron.
  rewrite (H cron) by (by left). cbn [ret fst snd]. apply IH.
  intros c Hc. apply H. by right.
Qed.

End MoreTick.

(** X11: a tick attempts every due job once, in the order of the store,
    whatever the earlier attempts of the tick came to: there is one
    delivery and one run recorded for each due job, in that order. *)
Theorem X11_every_due_job_attempted
    (env : Env) (now : Date.t) (lastRun0 : gmap string Z) (w : World) :
  let out := cronTick_at env now lastRun0 w in
  exists events : list Event,
    trace out.2 = trace w ++ events
    /\ map (fun d => d.1.1) (delivered events)
       = map CronJobRow.session (due_jobs now lastRun0 (jobsRepo w))
    /\ map CronRunRow.cronName (recorded events)
       = map CronJobRow.name (due_jobs now lastRun0 (jobsRepo w))
    /\ (forall k, started k events
                  = length (List.filter (has_name k) (due_jobs now lastRun0 (jobsRepo w))))
    /\ out.1 = marks now lastRun0 (jobsRepo w).
Proof.
  cbv zeta.
  destruct (cronTick_at_spec env now lastRun0 w)
    as (attempts & scan & dels & H1 & H2 & H3 & H4 & H5 & H6 & H7 & H8 & H9 & H10 & H11
        & H12 & H13 & H14).
  cbv zeta in *. exists (scan ++ dels). split; [done|].
  split; [|split; [|split; [exact H13 | exact H2]]].
  - autorewrite with readings. rewrite H11, !app_nil_r, <- H1.
    apply (f_equal (map fst)) in H8. rewrite !map_map in H8. cbn [fst] in H8.
    rewrite map_map. exact H8.
  - autorewrite with readings. rewrite H10, H7, !app_nil_r, <- H1.
    rewrite !map_map. clear -H14. induction H14 as [|a l [Ha _] _ IH]; [done|].
    cbn. by rewrite Ha, IH.
Qed.

(** X12: a tick at which no job of the store is due does nothing: the
    stores, the trace and the map of the closure are as before. *)
Theorem X12_idle_tick_changes_nothing
    (env : Env) (now : Date.t) (lastRun0 : gmap string Z) (w : World) :
  (forall cron, In cron (jobsRepo w) -> shouldExecute lastRun0 now cron = false) ->
  cronTick_at env now lastRun0 w = (lastRun0, w).
Proof.
  intros H. unfold cronTick_at. rewrite !bind_eq. cbn [getCrons fst snd].
  rewrite (tick_crons_idle env now (jobsRepo w) (mkTickState lastRun0 []) w H). done.
Qed.

Lemma X12_idle_tick_changes_nothing_witness :
  cronTick_at silent_env a_date {[ "report" := 28333334 ]} (world_with [script_job])
  = ({[ "report" := 28333334 ]}, world_with [script_job]).
Proof.
  apply (X12_idle_tick_changes_nothing silent_env a_date {[ "report" := 28333334 ]}
           (world_with [script_job])).
  intros cron [<- | []]. vm_compute. reflexivity.
Defined.

(** X15: what an attempt records.  A due job gets one delivery and one run;
    the run is a success without error whose message is the text
    delivered when the delivery is fulfilled, and a failure otherwise,
    whose error is the message of the error thrown (or the thrown value as
    a string), or the text of the timeout when the timer fired first. *)
Theorem X15_attempt_record
    (env : Env) (now : Date.t) (st : TickState) (cron : CronJobRow.t) (w : World) :
  shouldExecute (lastRun st) now cron = true ->
  let out := tick_cron env now st cron w in
  exists (sent : string) (outcome : InjectOutcome) (run : CronRunRow.t) (events : list Event),
    trace out.2 = trace w ++ events
    /\ delivered events = [(CronJobRow.session cron, sent, outcome)]
    /\ recorded events = [run]
    /\ runsRepo out.2 = runsRepo w ++ [run]
    /\ CronRunRow.cronName run = CronJobRow.name cron
    /\ CronRunRow.session run = CronJobRow.session cron
    /\ CronRunRow.status run = (if is_fulfilled outcome then success else failure)
    /\ CronRunRow.error run = delivery_error (CronJobRow.name cron) outcome
    /\ (is_fulfilled outcome = true -> CronRunRow.message run = sent).
Proof.
  intros Hdue. cbv zeta. unfold tick_cron. rewrite Hdue, bind_eq. cbn [ret fst snd].
  apply execute_cron_record.
Qed.

Lemma X15_attempt_record_witness :
  exists (sent : string) (outcome : InjectOutcome) (run : CronRunRow.t) (events : list Event),
    trace (tick_cron rejecting_env a_date (mkTickState ∅ []) once_job (world_with [once_job])).2
    = trace (world_with [once_job]) ++ events
    /\ delivered events = [(CronJobRow.session once_job, sent, outcome)]
    /\ recorded events = [run]
    /\ runsRepo (tick_cron rejecting_env a_date (mkTickState ∅ []) once_job
                           (world_with [once_job])).2
       = runsRepo (world_with [once_job]) ++ [run]
    /\ CronRunRow.cronName run = CronJobRow.name once_job
    /\ CronRunRow.session run = CronJobRow.session once_job
    /\ CronRunRow.status run = (if is_fulfilled outcome then success else failure)
    /\ CronRunRow.error run = delivery_error (CronJobRow.name once_job) outcome
    /\ (is_fulfilled outcome = true -> CronRunRow.message run = sent).
Proof.
  apply (X15_attempt_record rejecting_env a_date (mkTickState ∅ []) once_job
           (world_with [once_job])).
  vm_compute. reflexivity.
Defined.

(** X16: when the flag of the configuration is set, a due job with scripts
    has every script run, in the order of its list and whatever each of
    them settles to, and the text delivered is the template resolved with
    the results of these scripts: the results that [executeCronScripts]
    gives for the list when it starts at the fifth interaction of the
    attempt, after the start is logged, the clock and the configuration
    are read and the count of the scripts is logged. *)
Theorem X16_scripts_run_when_enabled
    (env : Env) (now : Date.t) (st : TickState) (cron : CronJobRow.t) (w : World)
    (scripts : list CronScript.t) :
  shouldExecute (lastRun st) now cron = true ->
  CronJobRow.scripts cron = Some scripts ->
  scripts <> [] ->
  (forall n, scripts_enabled (env_mainConfig env n) = true) ->
  let out := tick_cron env now st cron w in
  let results :=
    (executeCronScripts env scripts
       (mkWorld (4 + interactions w) (jobsRepo w) (runsRepo w) [])).1 in
  exists (outcome : InjectOutcome) (events : list Event),
    trace out.2 = trace w ++ events
    /\ executed events = map CronScript.command scripts
    /\ length results = length scripts
    /\ delivered events
       = [(CronJobRow.session cron,
           resolveScriptTemplates (CronJobRow.message cron) results, outcome)].
Proof.
  intros Hdue Hscripts Hne Hcfg. cbv zeta. unfold tick_cron. rewrite Hdue, bind_eq.
  cbn [ret fst snd].
  destruct (execute_cron_trace env cron (toRemove st) w) as (tail & Te & Td & Htrace).
  cbv zeta in Htrace.
  set (w1 := advance _) in *. set (p := prepare_message env cron w1) in *.
  destruct (prepare_message_spec env cron w1)
    as (pev & Ptr & _ & _ & Pd & _ & _ & _ & Pcase).
  cbv zeta in Ptr, Pcase. fold p in Ptr, Pcase.
  pose proof (prepare_message_enabled env cron w1 scripts Hscripts Hne (Hcfg _)) as Hsome.
  pose proof (prepare_message_results env cron w1 scripts Hscripts Hne (Hcfg _)) as Hsent.
  fold p in Hsome, Hsent.
  destruct Pcase as [[Hp _] | (ss & rs & n & Hss & _ & _ & Hp & Hlen & Hex)].
  { rewrite Hp in Hsome. done. }
  rewrite Hscripts in Hss. injection Hss as <-.
  exists (env_inject env (interactions p.2) (CronJobRow.session cron) p.1.1).
  eexists. split; [apply (Htrace pev Ptr)|].
  autorewrite with readings. rewrite Hex, Te, Pd, Td. cbn. rewrite !app_nil_r.
  split; [done|]. split.
  { unfold executeCronScripts.
    destruct (executeCronScripts_from_imap env scripts []
                (mkWorld (S (S (S (S (interactions w))))) (jobsRepo w) (runsRepo w) []))
      as [-> _].
    cbn [app]. by rewrite length_imap. }
  by rewrite Hsent.
Qed.

Lemma X16_scripts_run_when_enabled_witness :
  exists (outcome : InjectOutcome) (events : list Event),
    trace (tick_cron rejecting_env a_date (mkTickState ∅ []) script_job
                     (world_with [script_job])).2
    = trace (world_with [script_job]) ++ events
    /\ executed events = map CronScript.command [CronScript.mk "x" "echo 42" None None]
    /\ length (executeCronScripts rejecting_env [CronScript.mk "x" "echo 42" None None]
                 (mkWorld (4 + interactions (world_with [script_job]))
                          (jobsRepo (world_with [script_job]))
                          (runsRepo (world_with [script_job])) [])).1
       = length [CronScript.mk "x" "echo 42" None None]
    /\ delivered events
       = [(CronJobRow.session script_job,
           resolveScriptTemplates (CronJobRow.message script_job)
             (executeCronScripts rejecting_env [CronScript.mk "x" "echo 42" None None]
                (mkWorld (4 + interactions (world_with [script_job]))
                         (jobsRepo (world_with [script_job]))
                         (runsRepo (world_with [script_job])) [])).1,
           outcome)].
Proof.
  apply (X16_scripts_run_when_enabled rejecting_env a_date (mkTickState ∅ []) script_job
           (world_with [script_job]) [CronScript.mk "x" "echo 42" None None]).
  - vm_compute. reflexivity.
  - reflexivity.
  - discriminate.
  - intros n. reflexivity.
Defined.
(** *** One-time names and the history over a run *)

Section OneTime.

Variable k : string.

Implicit Types (lr : gmap string Z) (crons : list CronJobRow.t) (now : Date.t).

Lemma shouldExecute_one_time lr now (cron : CronJobRow.t) :
  one_time cron ->
  shouldExecute lr now cron
  = (default 0 (CronJobRow.runAt cron) <=? Date.getTime now)
    && negb (fired lr (CronJobRow.name cron)).
Proof. unfold one_time, shouldExecute. by intros ->. Qed.

(** Once the name [k] reads as set in the map, no one-time job of that
    name is due. *)
Lemma due_jobs_fired now crons : forall lr,
  (forall job, In job crons -> CronJobRow.name job = k -> one_time job) ->
  fired lr k = true ->
  List.filter (has_name k) (due_jobs now lr crons) = []
  /\ marks now lr crons !! k = lr !! k.
Proof.
  induction crons as [|cron rest IH]; intros lr Hone Hset; [done|].
  cbn [due_jobs marks].
  assert (Hrest : forall job, In job rest -> CronJobRow.name job = k -> one_time job)
    by (intros job Hin; apply Hone; by right).
  destruct (has_name k cron) eqn:Hk.
  - apply has_name_true in Hk.
    rewrite shouldExecute_one_time by (apply Hone; [by left | done]).
    rewrite Hk, Hset. cbn [negb]. rewrite andb_false_r. by apply IH.
  - pose proof Hk as Hne. apply has_name_false in Hne.
    destruct (shouldExecute lr now cron).
    + cbn [List.filter]. rewrite Hk.
      destruct (IH (<[CronJobRow.name cron := minute_bucket (Date.getTime now)]> lr) Hrest)
        as [H1 H2].
      { rewrite <- Hset. apply fired_ext. by rewrite lookup_insert_ne. }
      split; [exact H1|]. by rewrite H2, lookup_insert_ne.
    + by apply IH.
Qed.

Lemma due_jobs_one_time now crons : forall lr,
  (forall job, In job crons -> CronJobRow.name job = k -> one_time job) ->
  minute_bucket (Date.getTime now) <> 0 ->
  (List.filter (has_name k) (due_jobs now lr crons) = []
   /\ marks now lr crons !! k = lr !! k)
  \/ (length (List.filter (has_name k) (due_jobs now lr crons)) = 1%nat
      /\ fired lr k = false
      /\ fired (marks now lr crons) k = true).
Proof.
  induction crons as [|cron rest IH]; intros lr Hone Hb; [by left|].
  cbn [due_jobs marks].
  assert (Hrest : forall job, In job rest -> CronJobRow.name job = k -> one_time job)
    by (intros job Hin; apply Hone; by right).
  destruct (has_name k cron) eqn:Hk.
  - pose proof Hk as Heq. apply has_name_true in Heq.
    rewrite shouldExecute_one_time by (apply Hone; [by left | done]).
    rewrite Heq.
    destruct (_ <=? _); cbn [andb]; [|by apply IH].
    destruct (fired lr k) eqn:Hset; cbn [negb].
    { left. by apply due_jobs_fired. }
    right.
    assert (Hmark : fired (<[k := minute_bucket (Date.getTime now)]> lr) k = true).
    { rewrite (fired_marked _ _ (minute_bucket (Date.getTime now)))
        by apply lookup_insert_eq.
      by apply negb_true_iff, Z.eqb_neq. }
    destruct (due_jobs_fired now rest (<[k := minute_bucket (Date.getTime now)]> lr) Hrest Hmark)
      as [H1 H2].
    cbn [List.filter]. rewrite Hk. cbn [length]. rewrite H1.
    split; [done|]. split; [done|].
    rewrite <- Hmark. by apply fired_ext.
  - pose proof Hk as Hne. apply has_name_false in Hne.
    destruct (shouldExecute lr now cron); [|by apply IH].
    cbn [List.filter]. rewrite Hk.
    destruct (IH (<[CronJobRow.name cron := minute_bucket (Date.getTime now)]> lr) Hrest Hb)
      as [[H1 H2] | (H1 & H2 & H3)].
    + left. split; [exact H1|]. by rewrite H2, lookup_insert_ne.
    + right. split; [exact H1|]. split; [|exact H3].
      rewrite <- H2. symmetry. apply fired_ext. by rewrite lookup_insert_ne.
Qed.

Lemma addCron_one_time (job : CronJobRow.t) (w : World) :
  (forall j, In j (jobsRepo w) -> CronJobRow.name j = k -> one_time j) ->
  (CronJobRow.name job = k -> one_time job) ->
  forall j, In j (jobsRepo (addCron job w).2) -> CronJobRow.name j = k -> one_time j.
Proof.
  intros Hw Hjob j. cbn [addCron snd jobsRepo].
  destruct (existsb _ _).
  - rewrite in_map_iff. intros (old & Hj & Hin).
    destruct (has_name _ old); [by subst j | subst j; by apply Hw].
  - rewrite in_app_iff. intros [Hin | [<- | []]]; [by apply Hw | done].
Qed.

Lemma removeCron_one_time (name : string) (w : World) :
  (forall j, In j (jobsRepo w) -> CronJobRow.name j = k -> one_time j) ->
  forall j, In j (jobsRepo (removeCron name w).2) -> CronJobRow.name j = k -> one_time j.
Proof.
  intros Hw j. cbn [removeCron snd jobsRepo]. rewrite List.filter_In.
  intros [Hin _]. by apply Hw.
Qed.

Variable env : Env.

Hypothesis clock_past_first_minute :
  forall n, minute_bucket (Date.getTime (env_newDate env n)) <> 0.

Lemma run_one_time (steps : list Step) : forall lr (w : World),
  one_time_name k steps w ->
  (started_total k (run env steps lr w).1.1 <= 1)%nat
  /\ (fired lr k = true -> started_total k (run env steps lr w).1.1 = O).
Proof.
  induction steps as [|step rest IH]; intros lr w [Hstore Hadd];
    [cbn; split; [lia | done]|].
  assert (Hadd' : forall job, In (StepAddCron job) rest -> CronJobRow.name job = k -> one_time job)
    by (intros job Hin; apply Hadd; by right).
  destruct step as [|job|name]; cbn [run].
  - unfold cronTick. rewrite bind_eq. cbn [newDate fst snd restart_trace interactions].
    pose proof (clock_past_first_minute (interactions w)) as Hb.
    set (now := env_newDate env (interactions w)) in *.
    set (w0 := advance _).
    destruct (cronTick_at_spec env now lr w0)
      as (attempts & scan & dels & H1 & H2 & H3 & H4 & H5 & H6 & H7 & H8 & H9 & H10 & H11
          & H12 & H13 & H14).
    cbv zeta in *.
    destruct (cronTick_at env now lr w0) as [lr1 w1] eqn:Htick. cbn [fst snd] in *.
    assert (Hstore1 : forall j, In j (jobsRepo w1) -> CronJobRow.name j = k -> one_time j).
    { intros j. rewrite H5. intros Hin%without_In. by apply Hstore. }
    specialize (IH lr1 w1 (conj Hstore1 Hadd')).
    destruct (run env rest lr1 w1) as [[reports lr2] w2]. cbn [fst snd] in *.
    cbn [started_total report_now report_events].
    rewrite H3. change (trace w0) with (@nil Event). cbn [app]. rewrite H13.
    change (jobsRepo w0) with (jobsRepo w) in *.
    destruct (due_jobs_one_time now (jobsRepo w) lr Hstore Hb) as [[G1 G2] | (G1 & G2 & G3)].
    + rewrite G1. cbn [length]. rewrite H2 in IH.
      destruct IH as [I1 I2]. rewrite (fired_ext _ _ _ G2) in I2. cbn. split; done.
    + rewrite G1. rewrite H2 in IH. destruct IH as [I1 I2].
      rewrite (I2 G3). split; [done|]. intros Hset. by rewrite Hset in G2.
  - apply IH. split; [|done].
    apply addCron_one_time; [done|]. apply Hadd. by left.
  - apply IH. split; [|done].
    by apply removeCron_one_time.
Qed.

End OneTime.

Lemma runs_of_attempts (k : string) (attempts : list (CronJobRow.t * CronRunRow.t)) :
  Forall (fun a => CronRunRow.cronName a.2 = CronJobRow.name a.1
                   /\ CronRunRow.session a.2 = CronJobRow.session a.1) attempts ->
  length (List.filter (run_of k) (map snd attempts))
  = length (List.filter (has_name k) (map fst attempts)).
Proof.
  induction 1 as [|a l [Ha _] _ IH]; [done|].
  cbn [map List.filter]. unfold run_of at 1, has_name at 1. rewrite Ha.
  destruct (String.eqb _ _); cbn [length]; by rewrite IH.
Qed.

Lemma run_history (env : Env) (k : string) (steps : list Step) :
  forall (lr : gmap string Z) (w : World),
  exists new : list CronRunRow.t,
    runsRepo (run env steps lr w).2 = runsRepo w ++ new
    /\ length (List.filter (run_of k) new) = started_total k (run env steps lr w).1.1.
Proof.
  induction steps as [|step rest IH]; intros lr w.
  { exists []. cbn. by rewrite app_nil_r. }
  destruct step as [|job|name]; cbn [run].
  - unfold cronTick. rewrite bind_eq. cbn [newDate fst snd restart_trace interactions].
    set (now := env_newDate env (interactions w)).
    set (w0 := advance _).
    destruct (cronTick_at_spec env now lr w0)
      as (attempts & scan & dels & H1 & H2 & H3 & H4 & H5 & H6 & H7 & H8 & H9 & H10 & H11
          & H12 & H13 & H14).
    cbv zeta in *.
    destruct (cronTick_at env now lr w0) as [lr1 w1] eqn:Htick. cbn [fst snd] in *.
    destruct (IH lr1 w1) as (new & N1 & N2).
    destruct (run env rest lr1 w1) as [[reports lr2] w2]. cbn [fst snd] in *.
    exists (map snd attempts ++ new).
    rewrite N1, H4. change (runsRepo w0) with (runsRepo w). rewrite <- app_assoc.
    split; [done|].
    cbn [started_total report_events]. rewrite H3. change (trace w0) with (@nil Event).
    cbn [app]. rewrite H13, <- H1, List.filter_app, length_app, N2.
    by rewrite runs_of_attempts.
  - destruct (IH lr (addCron job w).2) as (new & N1 & N2). by exists new.
  - destruct (IH lr (removeCron name w).2) as (new & N1 & N2). by exists new.
Qed.

(** X13: a one-time name is started at most once by a tick loop.  In a run
    of ticks, with jobs added and removed in between, where every job of
    the name [k] has its time set and no tick reads the clock in the first
    minute of the epoch, the name is started at most once: a failed
    attempt is not repeated, and a job added again under the name of one
    that has fired is not started. *)
Theorem X13_one_time_name_started_once
    (env : Env) (steps : list Step) (w : World) (k : string) :
  one_time_name k steps w ->
  (forall n, minute_bucket (Date.getTime (env_newDate env n)) <> 0) ->
  (started_total k (run env steps createCronTickLoop w).1.1 <= 1)%nat.
Proof.
  intros Hone Hclock.
  apply (run_one_time k env Hclock steps createCronTickLoop w Hone).
Qed.

Lemma X13_one_time_name_started_once_witness :
  (started_total "once-1"
     (run rejecting_env [StepTick; StepAddCron once_job; StepTick] createCronTickLoop
          (world_with [once_job])).1.1 <= 1)%nat.
Proof.
  apply (X13_one_time_name_started_once rejecting_env
           [StepTick; StepAddCron once_job; StepTick] (world_with [once_job]) "once-1").
  - split.
    + intros job [<- | []] _. reflexivity.
    + intros job [H | [H | [H | []]]] _; try discriminate H. injection H as <-. reflexivity.
  - intros n. vm_compute. discriminate.
Defined.

(** X14: the scheduler only appends to the history.  Over a run of ticks,
    with jobs added and removed in between, the runs held before are kept
    as they were, in their places, and for every name the runs added are
    as many as the times the name was started. *)
Theorem X14_history_appended
    (env : Env) (steps : list Step) (lastRun0 : gmap string Z) (w : World) (k : string) :
  exists new : list CronRunRow.t,
    runsRepo (run env steps lastRun0 w).2 = runsRepo w ++ new
    /\ length (List.filter (run_of k) new) = started_total k (run env steps lastRun0 w).1.1.
Proof. apply run_history. Qed.
(** *** Jobs that never fire *)

Lemma shouldExecute_unschedulable (lr : gmap string Z) (now : Date.t) (cron : CronJobRow.t) :
  unschedulable cron -> shouldExecute lr now cron = false.
Proof.
  intros [Hrec Hbad]. unfold shouldExecute. rewrite Hrec.
  unfold shouldRunCron. destruct (parseCronSchedule _); [done|]. apply andb_false_r.
Qed.

Lemma due_jobs_unschedulable (k : string) (now : Date.t) (crons : list CronJobRow.t) :
  forall lr : gmap string Z,
  (forall job, In job crons -> CronJobRow.name job = k -> unschedulable job) ->
  List.filter (has_name k) (due_jobs now lr crons) = [].
Proof.
  induction crons as [|cron rest IH]; intros lr Hbad; [done|].
  cbn [due_jobs].
  assert (Hrest : forall job, In job rest -> CronJobRow.name job = k -> unschedulable job)
    by (intros job Hin; apply Hbad; by right).
  destruct (has_name k cron) eqn:Hk.
  - apply has_name_true in Hk.
    rewrite shouldExecute_unschedulable by (apply Hbad; [by left | done]). by apply IH.
  - destruct (shouldExecute lr now cron); [|by apply IH].
    cbn [List.filter]. rewrite Hk. by apply IH.
Qed.

Lemma addCron_unschedulable (k : string) (job : CronJobRow.t) (w : World) :
  (forall j, In j (jobsRepo w) -> CronJobRow.name j = k -> unschedulable j) ->
  (CronJobRow.name job = k -> unschedulable job) ->
  forall j, In j (jobsRepo (addCron job w).2) -> CronJobRow.name j = k -> unschedulable j.
Proof.
  intros Hw Hjob j. cbn [addCron snd jobsRepo].
  destruct (existsb _ _).
  - rewrite in_map_iff. intros (old & Hj & Hin).
    destruct (has_name _ old); [by subst j | subst j; by apply Hw].
  - rewrite in_app_iff. intros [Hin | [<- | []]]; [by apply Hw | done].
Qed.

Lemma run_unschedulable (env : Env) (k : string) (steps : list Step) :
  forall (lr : gmap string Z) (w : World),
  unschedulable_name k steps w ->
  started_total k (run env steps lr w).1.1 = O.
Proof.
  induction steps as [|step rest IH]; intros lr w [Hstore Hadd]; [done|].
  assert (Hadd' : forall job, In (StepAddCron job) rest -> CronJobRow.name job = k
                              -> unschedulable job)
    by (intros job Hin; apply Hadd; by right).
  destruct step as [|job|name]; cbn [run].
  - unfold cronTick. rewrite bind_eq. cbn [newDate fst snd restart_trace interactions].
    set (now := env_newDate env (interactions w)).
    set (w0 := advance _).
    destruct (cronTick_at_spec env now lr w0)
      as (attempts & scan & dels & H1 & H2 & H3 & H4 & H5 & H6 & H7 & H8 & H9 & H10 & H11
          & H12 & H13 & H14).
    cbv zeta in *.
    destruct (cronTick_at env now lr w0) as [lr1 w1] eqn:Htick. cbn [fst snd] in *.
    assert (Hstore1 : forall j, In j (jobsRepo w1) -> CronJobRow.name j = k -> unschedulable j).
    { intros j. rewrite H5. intros Hin%without_In. by apply Hstore. }
    specialize (IH lr1 w1 (conj Hstore1 Hadd')).
    destruct (run env rest lr1 w1) as [[reports lr2] w2]. cbn [fst snd] in *.
    cbn [started_total report_now report_events].
    rewrite H3. change (trace w0) with (@nil Event). cbn [app]. rewrite H13.
    change (jobsRepo w0) with (jobsRepo w) in *.
    by rewrite (due_jobs_unschedulable k now (jobsRepo w) lr Hstore), IH.
  - apply IH. split; [|done].
    apply addCron_unschedulable; [done|]. apply Hadd. by left.
  - apply IH. split; [|done].
    intros j. cbn [removeCron snd jobsRepo]. rewrite List.filter_In.
    intros [Hin _]. by apply Hstore.
Qed.

(** *** The store of jobs *)

Lemma find_replaced (job : CronJobRow.t) (jobs : list CronJobRow.t) (other : string) :
  other <> CronJobRow.name job ->
  List.find (has_name other)
            (map (fun old => if has_name (CronJobRow.name job) old then job else old) jobs)
  = List.find (has_name other) jobs.
Proof.
  intros Hne. induction jobs as [|old rest IH]; [done|].
  cbn [map List.find].
  destruct (has_name (CronJobRow.name job) old) eqn:Hold.
  - apply has_name_true in Hold.
    assert (H1 : has_name other job = false) by (apply has_name_false; congruence).
    assert (H2 : has_name other old = false) by (apply has_name_false; congruence).
    by rewrite H1, H2.
  - destruct (has_name other old); [done | exact IH].
Qed.

Lemma find_replaced_same (job : CronJobRow.t) (jobs : list CronJobRow.t) :
  existsb (has_name (CronJobRow.name job)) jobs = true ->
  List.find (has_name (CronJobRow.name job))
            (map (fun old => if has_name (CronJobRow.name job) old then job else old) jobs)
  = Some job.
Proof.
  induction jobs as [|old rest IH]; [done|].
  cbn [existsb map List.find].
  destruct (has_name (CronJobRow.name job) old) eqn:Hold.
  - intros _. assert (H : has_name (CronJobRow.name job) job = true) by by apply has_name_true.
    by rewrite H.
  - rewrite Hold. exact IH.
Qed.

Lemma find_absent (name : string) (jobs : list CronJobRow.t) :
  existsb (has_name name) jobs = false <-> List.find (has_name name) jobs = None.
Proof.
  induction jobs as [|old rest IH]; [done|].
  cbn [existsb List.find]. destruct (has_name name old); [done | exact IH].
Qed.

Lemma names_replaced (job : CronJobRow.t) (jobs : list CronJobRow.t) :
  map CronJobRow.name
      (map (fun old => if has_name (CronJobRow.name job) old then job else old) jobs)
  = map CronJobRow.name jobs.
Proof.
  induction jobs as [|old rest IH]; [done|].
  cbn [map]. rewrite IH. destruct (has_name _ old) eqn:Hold; [|done].
  apply has_name_true in Hold. by rewrite Hold.
Qed.

Lemma existsb_names (name : string) (jobs : list CronJobRow.t) :
  existsb (has_name name) jobs = false -> ~ In name (map CronJobRow.name jobs).
Proof.
  induction jobs as [|old rest IH]; [by intros _ []|].
  cbn [existsb map]. intros [Hold Hrest]%orb_false_iff [Heq | Hin].
  - apply has_name_false in Hold. done.
  - by apply IH.
Qed.

Lemma find_removed (name other : string) (jobs : list CronJobRow.t) :
  List.find (has_name other) (List.filter (fun job => negb (has_name name job)) jobs)
  = if String.eqb other name then None else List.find (has_name other) jobs.
Proof.
  induction jobs as [|old rest IH]; [by destruct (String.eqb _ _)|].
  cbn [List.filter List.find].
  destruct (has_name name old) eqn:Hold; cbn [negb].
  - rewrite IH. destruct (String.eqb_spec other name) as [-> | Hne]; [done|].
    apply has_name_true in Hold.
    assert (H : has_name other old = false) by (apply has_name_false; congruence).
    by rewrite H.
  - cbn [List.find]. rewrite IH.
    destruct (String.eqb_spec other name) as [-> | Hne]; [by rewrite Hold|].
    done.
Qed.

Lemma find_app_first {A : Type} (f : A -> bool) (l1 l2 : list A) :
  List.find f (l1 ++ l2)
  = match List.find f l1 with
    | Some x => Some x
    | None => List.find f l2
    end.
Proof.
  induction l1 as [|x l1 IH]; [done|]. cbn [app List.find]. by destruct (f x).
Qed.

(** X17: [addCron] puts the job in the place of the job of its name, or
    adds it when there is none: afterwards the job is the one found under
    its name, every other name finds what it found before, names that
    were unique stay so, and the history is as it was. *)
Theorem X17_addCron_replaces_by_name (job : CronJobRow.t) (w : World) :
  let w' := (addCron job w).2 in
  (getCron (CronJobRow.name job) w').1 = Some job
  /\ (forall other, other <> CronJobRow.name job -> (getCron other w').1 = (getCron other w).1)
  /\ (NoDup (map CronJobRow.name (jobsRepo w)) -> NoDup (map CronJobRow.name (jobsRepo w')))
  /\ length (jobsRepo w')
     = match (getCron (CronJobRow.name job) w).1 with
       | Some _ => length (jobsRepo w)
       | None => S (length (jobsRepo w))
       end
  /\ runsRepo w' = runsRepo w.
Proof.
  cbv zeta. unfold getCron. cbn [addCron fst snd jobsRepo runsRepo].
  destruct (existsb (has_name (CronJobRow.name job)) (jobsRepo w)) eqn:Hex.
  - split; [by apply find_replaced_same|].
    split; [intros other Hne; by apply find_replaced|].
    split; [by rewrite names_replaced|].
    split; [|done]. rewrite length_map.
    destruct (List.find _ (jobsRepo w)) eqn:Hfind; [done|].
    apply find_absent in Hfind. congruence.
  - pose proof Hex as Hnone. apply find_absent in Hnone.
    split.
    { rewrite find_app_first, Hnone. cbn [List.find].
      assert (H : has_name (CronJobRow.name job) job = true) by by apply has_name_true.
      by rewrite H. }
    split.
    { intros other Hne. rewrite find_app_first.
      destruct (List.find (has_name other) (jobsRepo w)); [done|].
      cbn [List.find].
      assert (H : has_name other job = false) by (apply has_name_false; congruence).
      by rewrite H. }
    split.
    { intros Hnd. rewrite map_app. cbn [map]. apply NoDup_app. split; [done|].
      split; [|apply NoDup_singleton].
      intros x Hin Hx. apply list_elem_of_In in Hin, Hx. destruct Hx as [<- | []].
      by apply (existsb_names _ _ Hex). }
    split; [|done]. rewrite Hnone, length_app. cbn. lia.
Qed.

(** X18: the tool [cron_cancel] answers with an error exactly when no job
    of the name is stored; afterwards no job is found under the name,
    every other name finds what it found before, and the history of the
    job is kept. *)
Theorem X18_cron_cancel_removes_by_name (name : string) (w : World) :
  let out := cron_cancel name w in
  (isError out.1 = true <-> (getCron name w).1 = None)
  /\ result_text out.1
     = (if isError out.1 then "Cron job '" +:+ name +:+ "' not found"
        else "Cron job '" +:+ name +:+ "' cancelled")
  /\ (getCron name out.2).1 = None
  /\ (forall other, other <> name -> (getCron other out.2).1 = (getCron other w).1)
  /\ runsRepo out.2 = runsRepo w.
Proof.
  cbv zeta. unfold cron_cancel. rewrite bind_eq. unfold getCron.
  cbn [removeCron fst snd].
  assert (Hafter : forall o : ToolResult * World,
            jobsRepo o.2 = List.filter (fun job => negb (has_name name job)) (jobsRepo w) ->
            List.find (has_name name) (jobsRepo o.2) = None
            /\ (forall other, other <> name ->
                  List.find (has_name other) (jobsRepo o.2)
                  = List.find (has_name other) (jobsRepo w))).
  { intros o ->. split.
    - by rewrite find_removed, String.eqb_refl.
    - intros other Hne. rewrite find_removed.
      by destruct (String.eqb_spec other name). }
  destruct (existsb (has_name name) (jobsRepo w)) eqn:Hex; cbn [negb ret fst snd isError
    result_text runsRepo].
  - split.
    { split; [done|]. intros Hnone%find_absent. congruence. }
    split; [done|]. destruct (Hafter (mkToolResult "" false, mkWorld (S (interactions w))
      (List.filter (fun job => negb (has_name name job)) (jobsRepo w)) (runsRepo w)
      (trace w ++ [EvDeleteJob name true])) eq_refl) as [A B]. cbn [snd jobsRepo] in A, B.
    done.
  - split.
    { split; [|done]. intros _. by apply find_absent. }
    split; [done|]. destruct (Hafter (mkToolResult "" false, mkWorld (S (interactions w))
      (List.filter (fun job => negb (has_name name job)) (jobsRepo w)) (runsRepo w)
      (trace w ++ [EvDeleteJob name false])) eq_refl) as [A B]. cbn [snd jobsRepo] in A, B.
    done.
Qed.

(** X19: nothing checks the schedule of a job when it is stored, and a
    recurring job whose schedule [parseCronSchedule] refuses is never
    started: in a run of ticks, with jobs added and removed in between,
    a name whose jobs are all such is started no time. *)
Theorem X19_unparsable_schedule_never_started
    (env : Env) (steps : list Step) (lastRun0 : gmap string Z) (w : World) (k : string) :
  unschedulable_name k steps w ->
  started_total k (run env steps lastRun0 w).1.1 = O.
Proof. apply run_unschedulable. Qed.

Lemma X19_unparsable_schedule_never_started_witness :
  started_total "nightly"
    (run silent_env [StepTick; StepAddCron bad_schedule_job; StepTick] createCronTickLoop
         (world_with [bad_schedule_job])).1.1 = O.
Proof.
  apply (X19_unparsable_schedule_never_started silent_env
           [StepTick; StepAddCron bad_schedule_job; StepTick] createCronTickLoop
           (world_with [bad_schedule_job]) "nightly").
  split.
  - intros job [<- | []] _. split; [reflexivity | vm_compute; exact I].
  - intros job [H | [H | [H | []]]] _; try discriminate H. injection H as <-.
    split; [reflexivity | vm_compute; exact I].
Defined.
(** *** The arguments of [wopr cron add] *)

Lemma lookup_after (done_ todo : list string) (a : string) :
  (done_ ++ a :: todo) !! S (length done_) = head todo.
Proof.
  induction done_ as [|d done_ IH]; [by destruct todo|]. exact IH.
Qed.

Lemma lookup_before (done_ todo : list string) :
  ((0 <? length done_)%nat
   && match (done_ ++ todo) !! pred (length done_) with
      | Some b => String.eqb b "--scripts-file"
      | None => false
      end)
  = match last done_ with
    | Some b => String.eqb b "--scripts-file"
    | None => false
    end.
Proof.
  destruct done_ as [|d done_] using rev_ind; [done|].
  rewrite last_snoc, length_app. cbn [length]. rewrite Nat.add_1_r. cbn [pred].
  rewrite <- app_assoc. cbn [app].
  rewrite list_lookup_middle by done. done.
Qed.

Lemma filter_args_words (rest : list string) : forall (todo done_ : list string) (flags : AddFlags),
  rest = done_ ++ todo ->
  filter_args rest (length done_) todo flags = filter_words (last done_) todo flags.
Proof.
  induction todo as [|a todo IH]; intros done_ flags Hrest; [done|].
  assert (Hnext : rest = (done_ ++ [a]) ++ todo) by (by rewrite <- app_assoc).
  assert (Hlen : S (length done_) = length (done_ ++ [a]))
    by (rewrite length_app; cbn; lia).
  assert (Hlast : last (done_ ++ [a]) = Some a) by apply last_snoc.
  assert (H1 : rest !! S (length done_) = head todo)
    by (rewrite Hrest; apply lookup_after).
  pose proof (lookup_before done_ (a :: todo)) as H2. rewrite <- Hrest in H2.
  cbn [filter_args filter_words].
  rewrite H1, H2, !Hlen, !(IH (done_ ++ [a])) by exact Hnext. rewrite Hlast. done.
Qed.

Lemma filter_words_switches (todo : list string) : forall (prev : option string) (flags : AddFlags),
  match prev with
  | Some b => String.eqb b "--scripts-file"
  | None => false
  end = false ->
  no_scripts_file todo ->
  filter_words prev todo flags
  = (List.filter (fun a => negb (is_switch a)) todo,
     mkAddFlags (flag_now flags || has_word "--now" todo)
                (flag_once flags || has_word "--once" todo)
                (scriptsFile flags)).
Proof.
  induction todo as [|a todo IH]; intros prev flags Hprev Hno.
  { cbn. rewrite !orb_false_r. by destruct flags. }
  assert (Ha : String.eqb a "--scripts-file" = false).
  { apply String.eqb_neq, Hno. by left. }
  assert (Hrest : no_scripts_file todo) by (intros b Hb; apply Hno; by right).
  cbn [filter_words List.filter has_word existsb]. unfold is_switch at 1.
  rewrite !(String.eqb_sym _ a).
  destruct (String.eqb a "--now") eqn:Hnow.
  { rewrite (IH (Some a) _ Ha Hrest). cbn [flag_now flag_once scriptsFile orb negb].
    apply String.eqb_eq in Hnow. subst a. cbn. by rewrite orb_true_r. }
  destruct (String.eqb a "--once") eqn:Honce.
  { rewrite (IH (Some a) _ Ha Hrest). cbn [flag_now flag_once scriptsFile orb negb].
    by rewrite orb_true_r. }
  rewrite Ha, Hprev. cbn [andb orb negb].
  by rewrite (IH (Some a) _ Ha Hrest).
Qed.

Lemma filter_words_scripts_file (pre : list string) (path : string) (post : list string) :
  forall (prev : option string) (flags : AddFlags),
  match prev with
  | Some b => String.eqb b "--scripts-file"
  | None => false
  end = false ->
  no_scripts_file pre -> no_scripts_file (path :: post) ->
  JS.truthy_string path = true ->
  filter_words prev (pre ++ "--scripts-file" :: path :: post) flags
  = (List.filter (fun a => negb (is_switch a)) (pre ++ post),
     mkAddFlags (flag_now flags || has_word "--now" (pre ++ path :: post))
                (flag_once flags || has_word "--once" (pre ++ path :: post))
                (Some path)).
Proof.
  induction pre as [|a pre IH]; intros prev flags Hprev Hpre Hpost Hpath.
  - cbn [app filter_words head JS.truthy_opt_string]. rewrite Hpath.
    change (String.eqb "--scripts-file" "--now") with false.
    change (String.eqb "--scripts-file" "--once") with false.
    change (String.eqb "--scripts-file" "--scripts-file") with true.
    cbn [andb flag_now flag_once].
    assert (Hp : String.eqb path "--scripts-file" = false).
    { apply String.eqb_neq, Hpost. by left. }
    assert (Hrest : no_scripts_file post) by (intros b Hb; apply Hpost; by right).
    cbn [has_word existsb]. rewrite !(String.eqb_sym _ path).
    destruct (String.eqb path "--now") eqn:Hnow.
    { rewrite (filter_words_switches post (Some path) _ Hp Hrest).
      cbn [flag_now flag_once scriptsFile orb negb].
      apply String.eqb_eq in Hnow. subst path. cbn. by rewrite orb_true_r. }
    destruct (String.eqb path "--once") eqn:Honce.
    { rewrite (filter_words_switches post (Some path) _ Hp Hrest).
      cbn [flag_now flag_once scriptsFile orb]. by rewrite orb_true_r. }
    rewrite Hp. cbn [andb orb].
    by rewrite (filter_words_switches post (Some path) _ Hp Hrest).
  - assert (Ha : String.eqb a "--scripts-file" = false).
    { apply String.eqb_neq, Hpre. by left. }
    assert (Hrest : no_scripts_file pre) by (intros b Hb; apply Hpre; by right).
    cbn [app filter_words List.filter has_word existsb]. unfold is_switch at 1.
    rewrite !(String.eqb_sym _ a).
    destruct (String.eqb a "--now") eqn:Hnow.
    { rewrite (IH (Some a) _ Ha Hrest Hpost Hpath).
      cbn [flag_now flag_once scriptsFile orb negb].
      apply String.eqb_eq in Hnow. subst a. cbn. by rewrite orb_true_r. }
    destruct (String.eqb a "--once") eqn:Honce.
    { rewrite (IH (Some a) _ Ha Hrest Hpost Hpath).
      cbn [flag_now flag_once scriptsFile orb negb]. by rewrite orb_true_r. }
    rewrite Ha, Hprev. cbn [andb orb negb].
    by rewrite (IH (Some a) _ Ha Hrest Hpost Hpath).
Qed.

(** X20: without [--scripts-file] among the arguments of [wopr cron add],
    the words kept are the arguments other than [--now] and [--once], in
    their order, and each of the two flags is set exactly when its word is
    among the arguments, wherever it stands: before the name, or inside
    the message, which then lacks the word. *)
Theorem X20_add_switches_anywhere (rest : list string) :
  no_scripts_file rest ->
  add_filter rest
  = (List.filter (fun a => negb (is_switch a)) rest,
     mkAddFlags (has_word "--now" rest) (has_word "--once" rest) None).
Proof.
  intros Hno. unfold add_filter.
  rewrite (filter_args_words rest rest [] _ eq_refl).
  by rewrite (filter_words_switches rest None _ eq_refl Hno).
Qed.

Lemma X20_add_switches_anywhere_witness :
  add_filter ["daily"; "0 9 * * *"; "--once"; "main"; "run"; "--now"; "please"]
  = (["daily"; "0 9 * * *"; "main"; "run"; "please"], mkAddFlags true true None).
Proof.
  apply (X20_add_switches_anywhere
           ["daily"; "0 9 * * *"; "--once"; "main"; "run"; "--now"; "please"]).
  intros a Ha. repeat (destruct Ha as [<- | Ha]; [discriminate|]). destruct Ha.
Defined.

(** X21: [--scripts-file] with a path after it may stand anywhere among
    the arguments of [wopr cron add]: both words are left out of the words
    kept and the path is the file of the scripts.  The path is any word
    that is not empty and not [--scripts-file]; the two switches are read
    wherever they stand, also when one of them stands as the path. *)
Theorem X21_add_scripts_file_anywhere (pre : list string) (path : string) (post : list string) :
  no_scripts_file pre -> no_scripts_file (path :: post) ->
  path <> "" ->
  add_filter (pre ++ "--scripts-file" :: path :: post)
  = (List.filter (fun a => negb (is_switch a)) (pre ++ post),
     mkAddFlags (has_word "--now" (pre ++ path :: post))
                (has_word "--once" (pre ++ path :: post))
                (Some path)).
Proof.
  intros Hpre Hpost Hpath. unfold add_filter.
  rewrite (filter_args_words _ (pre ++ "--scripts-file" :: path :: post) [] _ eq_refl).
  rewrite (filter_words_scripts_file pre path post None _ eq_refl Hpre Hpost); [done|].
  unfold JS.truthy_string. by apply negb_true_iff, String.eqb_neq.
Qed.

Lemma X21_add_scripts_file_anywhere_witness :
  add_filter (["daily"; "0 9 * * *"] ++ "--scripts-file" :: "probes.json" :: ["main"; "status"])
  = (["daily"; "0 9 * * *"; "main"; "status"], mkAddFlags false false (Some "probes.json")).
Proof.
  apply (X21_add_scripts_file_anywhere ["daily"; "0 9 * * *"] "probes.json" ["main"; "status"]).
  - intros a Ha. repeat (destruct Ha as [<- | Ha]; [discriminate|]). destruct Ha.
  - intros a Ha. repeat (destruct Ha as [<- | Ha]; [discriminate|]). destruct Ha.
  - discriminate.
Defined.
(** *** Time specifications *)

Lemma mul_int (a b : Z) :
  0 <= a * b < 2 ^ 53 ->
  Number_mul (Number.Fin a 0) (Number.Fin b 0) = Number.Fin (a * b) 0.
Proof.
  intros H. unfold Number_mul. cbn [Z.of_nat Nat.add]. change (2 ^ 0) with 1.
  apply (of_Z_exact _ H).
Qed.

Lemma ltb_int (a b : Z) : Number.ltb (Number.Fin a 0) (Number.Fin b 0) = (a <? b).
Proof. unfold Number.ltb. cbn [Z.of_nat]. change (2 ^ 0) with 1. by rewrite !Z.mul_1_r. Qed.

Lemma digit_tests (c : ascii) :
  is_digit c = true ->
  Ascii.eqb c "n" = false /\ Ascii.eqb c "+" = false /\ is_unit c = false.
Proof.
  destruct c as [[] [] [] [] [] [] [] []]; vm_compute; intros H;
    first [discriminate H | repeat split].
Qed.

Lemma unit_tests (u : ascii) :
  is_unit u = true -> is_digit u = false /\ 1000 <= unit_ms u <= 86400000.
Proof.
  destruct u as [[] [] [] [] [] [] [] []]; vm_compute; intros H;
    first [discriminate H | repeat split; discriminate].
Qed.

Lemma leading_digits_app (ds : string) (u : ascii) (rest : string) :
  string_forall is_digit ds = true -> is_digit u = false ->
  leading_digits (ds +:+ String u rest) = (ds, String u rest).
Proof.
  intros Hds Hu. induction ds as [|c ds IH].
  - change ("" +:+ String u rest) with (String u rest). cbn [leading_digits]. by rewrite Hu.
  - cbn [string_forall] in Hds. apply andb_true_iff in Hds as [Hc Hds].
    rewrite append_cons. cbn [leading_digits]. by rewrite Hc, (IH Hds).
Qed.

Lemma numeral_from_bound (s : string) : forall acc v : Z,
  0 <= acc -> numeral_from acc s = Some v -> v < (acc + 1) * 10 ^ Z.of_nat (String.length s).
Proof.
  induction s as [|c s IH]; intros acc v Hacc; cbn [numeral_from String.length].
  - intros [= <-]. change (10 ^ Z.of_nat 0) with 1. lia.
  - destruct (is_digit c) eqn:Hc; [|discriminate]. intros Hv.
    unfold is_digit in Hc. apply andb_true_iff in Hc as [H1 H2].
    apply Nat.leb_le in H1, H2.
    apply IH in Hv; [|lia].
    rewrite Nat2Z.inj_succ, Z.pow_succ_r by lia.
    assert (Hp : 0 < 10 ^ Z.of_nat (String.length s)) by (apply Z.pow_pos_nonneg; lia).
    nia.
Qed.

(** X22: a time of the form [+N] and a unit is that long after the
    reading of the clock: [N] seconds, minutes, hours or days for the
    units [s], [m], [h] and [d], for a numeral [N] of any number of
    digits, as long as the sum is below [2^53]. *)
Theorem X22_relative_time (clock : Clock) (ds : string) (v : Z) (u : ascii) :
  numeral ds = Some v ->
  is_unit u = true ->
  0 <= clock_now clock ->
  clock_now clock + v * unit_ms u < 2 ^ 53 ->
  parseTimeSpec clock ("+" +:+ ds +:+ String u "")
  = Return (Number.int (clock_now clock + v * unit_ms u)).
Proof.
  intros Hnum Hu Hnow Hsum.
  destruct (numeral_spec _ _ Hnum) as (c & s' & Hds & Hc & Hall & _ & Hv).
  destruct (unit_tests u Hu) as [Hud Hms].
  assert (Hprod : 0 <= v * unit_ms u < 2 ^ 53) by nia.
  assert (Hsmall : 0 <= v < 2 ^ 53) by nia.
  unfold parseTimeSpec.
  change ("+" +:+ ds +:+ String u "") with (String "+" (ds +:+ String u "")).
  change (String.eqb (String "+" (ds +:+ String u "")) "now") with false.
  assert (E : JS.startsWith "+" (String "+" (ds +:+ String u "")) = true).
  { unfold JS.startsWith. cbn [String.prefix].
    destruct (ascii_dec "+" "+"); [by destruct (ds +:+ String u "") | done]. }
  rewrite E. cbv iota. unfold match_relative.
  rewrite (leading_digits_app ds u "" Hall Hud). rewrite Hds at 1. rewrite Hu, <- Hds.
  cbv zeta iota beta.
  rewrite (parseInt10_numeral _ _ Hnum), !of_Z_exact by lia.
  unfold Number.int. rewrite mul_int, add_int by lia. done.
Qed.

Lemma X22_relative_time_witness :
  parseTimeSpec a_clock ("+" +:+ "90" +:+ String "m" "")
  = Return (Number.int (clock_now a_clock + 90 * unit_ms "m")).
Proof.
  apply (X22_relative_time a_clock "90" 90 "m").
  - reflexivity.
  - reflexivity.
  - vm_compute. discriminate.
  - vm_compute. reflexivity.
Defined.

(** X23: a time of 10 to 13 digits is an epoch: its value is taken as
    seconds when it is below [10^12], and as milliseconds otherwise,
    whatever the clock reads. *)
Theorem X23_epoch_time (clock : Clock) (ds : string) (v : Z) :
  numeral ds = Some v ->
  (10 <= String.length ds <= 13)%nat ->
  parseTimeSpec clock ds
  = Return (Number.int (if v <? 10 ^ 12 then v * 1000 else v)).
Proof.
  intros Hnum [Hlo Hhi].
  destruct (numeral_spec _ _ Hnum) as (c & s' & Hds & Hc & Hall & _ & Hv).
  destruct (digit_tests c Hc) as (Hn & Hplus & _).
  assert (Hbound : v < 10 ^ 13).
  { rewrite Hds in Hnum. cbn [numeral] in Hnum. rewrite <- Hds in Hnum.
    apply numeral_from_bound in Hnum; [|done].
    assert (10 ^ Z.of_nat (String.length ds) <= 10 ^ 13)
      by (apply Z.pow_le_mono_r; lia). lia. }
  unfold parseTimeSpec.
  assert (E1 : String.eqb ds "now" = false).
  { rewrite Hds. cbn [String.eqb]. by rewrite Hn. }
  assert (E2 : JS.startsWith "+" ds = false).
  { rewrite Hds. unfold JS.startsWith. cbn [String.prefix].
    destruct (ascii_dec "+" c) as [<- | _]; [discriminate Hc | done]. }
  assert (E3 : test_epoch ds = true).
  { unfold test_epoch. rewrite Hall. cbn [andb].
    apply andb_true_iff. split; apply Nat.leb_le; lia. }
  rewrite E1, E2, E3. cbv zeta iota.
  rewrite (parseInt10_numeral _ _ Hnum), of_Z_exact by lia.
  unfold Number.int. rewrite ltb_int.
  destruct (Z.ltb_spec v (10 ^ 12)) as [Hsec | Hms]; [|done].
  rewrite mul_int by lia. done.
Qed.

Lemma X23_epoch_time_witness :
  parseTimeSpec a_clock "1700000000"
  = Return (Number.int (if 1700000000 <? 10 ^ 12 then 1700000000 * 1000 else 1700000000)).
Proof.
  apply (X23_epoch_time a_clock "1700000000" 1700000000).
  - reflexivity.
  - cbn. lia.
Defined.
(** ** Two results of one name *)

Section Duplicates.

Implicit Types (T R s x y p : string) (c t : ascii).

Lemma prefix_empty_r T : String.prefix T "" = true -> T = "".
Proof. by destruct T. Qed.

Lemma prefix_cons_inv t T c s :
  String.prefix (String t T) (String c s) = true -> t = c /\ String.prefix T s = true.
Proof. cbn [String.prefix]. by destruct (ascii_dec t c). Qed.

Lemma prefix_cons t T s : String.prefix T s = true -> String.prefix (String t T) (String t s) = true.
Proof. cbn [String.prefix]. by destruct (ascii_dec t t). Qed.

Lemma prefix_trans T : forall p s,
  String.prefix T p = true -> String.prefix p s = true -> String.prefix T s = true.
Proof.
  induction T as [|t T IH]; intros p s HT Hp; [by destruct s|].
  destruct p as [|c p]; [done|]. destruct s as [|d s]; [done|].
  apply prefix_cons_inv in HT as [-> HT]. apply prefix_cons_inv in Hp as [-> Hp].
  apply prefix_cons. by apply (IH p).
Qed.

Lemma prefix_includes T s : String.prefix T s = true -> JS.includes T s = true.
Proof. intros H. destruct s; cbn [JS.includes]; by rewrite H. Qed.

Lemma includes_cons T c s : JS.includes T s = true -> JS.includes T (String c s) = true.
Proof. intros H. cbn [JS.includes]. rewrite H. apply orb_true_r. Qed.

Lemma includes_slice T (n : nat) : forall s,
  JS.includes T (JS.slice n s) = true -> JS.includes T s = true.
Proof.
  induction n as [|n IH]; intros s; [done|].
  destruct s as [|c s]; [done|]. cbn [JS.slice]. intros H. by apply includes_cons, IH.
Qed.

Lemma length_slice (n : nat) : forall s, (String.length (JS.slice n s) <= String.length s)%nat.
Proof.
  induction n as [|n IH]; intros s; [done|]. destruct s as [|c s]; [done|].
  cbn [JS.slice String.length]. specialize (IH s). lia.
Qed.

Lemma split_from_slice sep : forall s (skip : nat),
  JS.split_from sep skip s = JS.split_from sep 0 (JS.slice skip s).
Proof.
  induction s as [|c s IH]; intros skip; [by destruct skip|].
  destruct skip as [|k]; [done|]. cbn [JS.split_from JS.slice]. apply IH.
Qed.

(** No piece of a split holds the token [T], when the split is at [T]
    itself, or when the string split does not hold it; and the first
    piece is a prefix of the string. *)
Lemma pieces_absent T sep (n : nat) : forall s,
  (String.length s <= n)%nat ->
  sep = T \/ JS.includes T s = false ->
  T <> "" ->
  Forall (fun p => JS.includes T p = false) (JS.split_from sep 0 s)
  /\ exists p rest, JS.split_from sep 0 s = p :: rest /\ String.prefix p s = true.
Proof.
  induction n as [|n IH]; intros s Hlen Hcase HT.
  { destruct s; [|cbn in Hlen; lia]. split; [|by exists "", []].
    constructor; [|done]. destruct T; done. }
  destruct s as [|c s].
  { split; [|by exists "", []]. constructor; [|done]. destruct T; done. }
  cbn [String.length] in Hlen. cbn [JS.split_from].
  destruct (String.prefix sep (String c s)) eqn:Hsep.
  - rewrite split_from_slice.
    destruct (IH (JS.slice (String.length sep - 1) s)) as [Hall _].
    { pose proof (length_slice (String.length sep - 1) s). lia. }
    { destruct Hcase as [-> | Habs]; [by left | right].
      destruct (JS.includes T (JS.slice _ s)) eqn:E; [|done].
      apply includes_slice in E. apply (includes_cons _ c) in E. congruence. }
    { done. }
    split; [|by exists "", (JS.split_from sep 0 (JS.slice (String.length sep - 1) s))].
    constructor; [by destruct T | exact Hall].
  - destruct (IH s) as [Hall (p & rest & Hsplit & Hp)]; [lia| |done|].
    { destruct Hcase as [-> | Habs]; [by left | right].
      destruct (JS.includes T s) eqn:E; [|done].
      apply (includes_cons _ c) in E. congruence. }
    rewrite Hsplit in Hall |- *. apply Forall_cons in Hall as [Hpiece Hrest].
    split; [|exists (String c p), rest; split; [done | by apply prefix_cons]].
    constructor; [|exact Hrest].
    cbn [JS.includes]. rewrite Hpiece, orb_false_r.
    destruct (String.prefix T (String c p)) eqn:E; [|done].
    assert (Hpre : String.prefix T (String c s) = true)
      by (apply (prefix_trans T (String c p)); [done | by apply prefix_cons]).
    destruct Hcase as [-> | Habs]; [congruence|].
    apply prefix_includes in Hpre. congruence.
Qed.

(** A token starts with an opening brace and ends with a closing one. *)
Lemma placeholder_shape (r : CronScriptResult.t) :
  (exists T1, placeholder r = String "{" T1) /\ (exists T0, placeholder r = T0 +:+ "}").
Proof.
  split.
  - by exists ("{" +:+ CronScriptResult.name r +:+ "}}").
  - exists ("{{" +:+ CronScriptResult.name r +:+ "}"). unfold placeholder.
    by rewrite !append_assoc.
Qed.

Lemma prefix_split T y : forall R,
  String.prefix T (R +:+ y) = true -> String.prefix T R = true \/ String.prefix R T = true.
Proof.
  induction T as [|t T IH]; intros R H; [left; by destruct R|].
  destruct R as [|r R]; [by right|]. rewrite append_cons in H.
  apply prefix_cons_inv in H as [-> H].
  destruct (IH R H) as [H1 | H1]; [left | right]; by apply prefix_cons.
Qed.

Lemma prefix_last c T0 : forall R,
  String.prefix (T0 +:+ String c "") R = true -> no_char c R = false.
Proof.
  unfold no_char. induction T0 as [|t T0 IH]; intros R H.
  - change ("" +:+ String c "") with (String c "") in H.
    destruct R as [|r R]; [done|]. apply prefix_cons_inv in H as [<- _].
    cbn [string_forall]. by rewrite Ascii.eqb_refl.
  - rewrite append_cons in H. destruct R as [|r R]; [done|].
    apply prefix_cons_inv in H as [<- H]. cbn [string_forall].
    rewrite (IH R H). apply andb_false_r.
Qed.

Lemma includes_tail R t T : JS.includes R (String t T) = false -> JS.includes R T = false.
Proof. cbn [JS.includes]. by intros [_ ?]%orb_false_iff. Qed.

Lemma ends_tail c t T :
  (exists T0, String t T = T0 +:+ String c "") -> T = "" \/ exists T0, T = T0 +:+ String c "".
Proof.
  intros [[|t0 T0] H].
  - left. change ("" +:+ String c "") with (String c "") in H. by injection H.
  - right. exists T0. rewrite append_cons in H. by injection H.
Qed.

(** A token that is a prefix of a text followed by a fresh text lies in
    the text: it cannot end in the fresh text, which has no closing
    brace, nor go through it, which does not occur in the token. *)
Lemma prefix_into_fresh R y : forall T x,
  R <> "" -> no_char "}" R = true -> JS.includes R T = false ->
  T = "" \/ (exists T0, T = T0 +:+ "}") ->
  String.prefix T (x +:+ R +:+ y) = true -> String.prefix T x = true.
Proof.
  intros T x HR Hclose. revert T. induction x as [|c x IH]; intros T Hin Hend Hp.
  - change ("" +:+ R +:+ y) with (R +:+ y) in Hp.
    destruct Hend as [-> | [T0 ->]]; [done|].
    apply prefix_split in Hp as [Hp | Hp].
    + apply prefix_last in Hp. congruence.
    + apply prefix_includes in Hp. congruence.
  - destruct T as [|t T]; [done|]. rewrite append_cons in Hp.
    apply prefix_cons_inv in Hp as [-> Hp]. apply prefix_cons, IH; [| |done].
    + by eapply includes_tail.
    + destruct Hend as [Hend | Hend]; [done|]. by eapply ends_tail.
Qed.

Lemma includes_fresh_head c T1 y : forall R,
  no_char c R = true ->
  JS.includes (String c T1) (R +:+ y) = true -> JS.includes (String c T1) y = true.
Proof.
  unfold no_char. induction R as [|r R IH]; intros Hopen H; [done|].
  cbn [string_forall] in Hopen. apply andb_true_iff in Hopen as [Hr Hopen].
  rewrite append_cons in H. cbn [JS.includes] in H. apply orb_true_iff in H as [Hp | Hi].
  - apply prefix_cons_inv in Hp as [-> _]. by rewrite Ascii.eqb_refl in Hr.
  - by apply IH.
Qed.

(** Around a fresh text, the token lies before it or after it. *)
Lemma includes_around_fresh T R y : forall x,
  (exists T1, T = String "{" T1) -> (exists T0, T = T0 +:+ "}") ->
  fresh_text T R ->
  JS.includes T x = false -> JS.includes T y = false ->
  JS.includes T (x +:+ R +:+ y) = false.
Proof.
  intros x [T1 Hopen] Hend (HR & Hno_open & Hno_close & Hin) Hx Hy.
  destruct (JS.includes T (x +:+ R +:+ y)) eqn:E; [|done]. exfalso.
  induction x as [|c x IH].
  - change ("" +:+ R +:+ y) with (R +:+ y) in E. rewrite Hopen in E, Hy.
    apply includes_fresh_head in E; [congruence | done].
  - rewrite append_cons in E. cbn [JS.includes] in E, Hx.
    apply orb_false_iff in Hx as [Hpx Hix].
    apply orb_true_iff in E as [Hp | Hi]; [|by apply IH].
    rewrite <- append_cons in Hp.
    apply prefix_into_fresh in Hp; [congruence | done | done | done | by right].
Qed.

Lemma token_nonempty T : (exists T1, T = String "{" T1) -> T <> "".
Proof. by intros [T1 ->]. Qed.

Lemma join_fresh T R (pieces : list string) :
  (exists T1, T = String "{" T1) -> (exists T0, T = T0 +:+ "}") ->
  fresh_text T R ->
  Forall (fun p => JS.includes T p = false) pieces ->
  JS.includes T (JS.join R pieces) = false.
Proof.
  intros Hopen Hend HR. induction 1 as [|p rest Hp Hrest IH].
  { destruct Hopen as [T1 ->]. done. }
  destruct rest as [|q rest]; [done|].
  change (JS.join R (p :: q :: rest)) with (p +:+ R +:+ JS.join R (q :: rest)).
  by apply includes_around_fresh.
Qed.

(** After the turn of a result whose text is fresh for the token [T], the
    token is absent, when it is the token of the result or was absent
    before. *)
Lemma resolve_step_fresh T s (r : CronScriptResult.t) :
  (exists T1, T = String "{" T1) -> (exists T0, T = T0 +:+ "}") ->
  fresh_text T (replacement r) ->
  placeholder r = T \/ JS.includes T s = false ->
  JS.includes T (resolve_step s r) = false.
Proof.
  intros Hopen Hend HR Hcase. unfold resolve_step. apply join_fresh; [done | done | done|].
  assert (Hsplit : JS.split (placeholder r) s = JS.split_from (placeholder r) 0 s) by done.
  rewrite Hsplit.
  by destruct (pieces_absent T (placeholder r) (String.length s) s (le_n _) Hcase
                 (token_nonempty T Hopen)).
Qed.

Lemma resolve_fresh T (rs : list CronScriptResult.t) : forall s,
  (exists T1, T = String "{" T1) -> (exists T0, T = T0 +:+ "}") ->
  Forall (fun r => fresh_text T (replacement r)) rs ->
  JS.includes T s = false ->
  JS.includes T (resolveScriptTemplates s rs) = false.
Proof.
  induction rs as [|r rs IH]; intros s Hopen Hend Hall Hs; [done|].
  apply Forall_cons in Hall as [Hr Hrs]. rewrite resolve_cons.
  apply IH; [done | done | done|]. apply resolve_step_fresh; [done | done | done | by right].
Qed.

Lemma includes_no_first_char c T a :
  no_char c a = true -> JS.includes (String c T) a = false.
Proof.
  unfold no_char. induction a as [|x a IH]; [done|]. cbn [string_forall JS.includes].
  intros [Hx Ha]%andb_true_iff. rewrite (IH Ha), orb_false_r. cbn [String.prefix].
  destruct (ascii_dec c x) as [-> | _]; [by rewrite Ascii.eqb_refl in Hx | done].
Qed.

End Duplicates.

(** C2, amended: replacements are applied one result after the other over
    the accumulating string, so of two results of one name the earlier
    one wins.  When the texts put in by the earlier result and by the
    results between the two are fresh for the token of the name (not
    empty, without brace, and not a part of the token), no occurrence of
    the token is left when the turn of the later result comes, and the
    later result changes nothing: the resolved text is the one obtained
    without it.  In particular a message made of a text without opening
    brace, the token, and a text without the token resolves to the first
    text, the text of the earlier result, and the last text. *)
Theorem C2_earlier_result_wins
    (m : string) (pre mid post : list CronScriptResult.t) (r1 r2 : CronScriptResult.t) :
  CronScriptResult.name r1 = CronScriptResult.name r2 ->
  Forall (fun r => fresh_text (placeholder r1) (replacement r)) (r1 :: mid) ->
  JS.includes (placeholder r1) (resolveScriptTemplates m (pre ++ r1 :: mid)) = false
  /\ resolveScriptTemplates m (pre ++ r1 :: mid ++ r2 :: post)
     = resolveScriptTemplates m (pre ++ r1 :: mid ++ post)
  /\ (forall a b,
        no_char "{" a = true -> JS.includes (placeholder r1) b = false ->
        resolveScriptTemplates (a +:+ placeholder r1 +:+ b) [r1; r2]
        = a +:+ replacement r1 +:+ b).
Proof.
  intros Hname Hfresh.
  destruct (placeholder_shape r1) as [Hopen Hend].
  apply Forall_cons in Hfresh as [Hr1 Hmid].
  assert (Habsent : JS.includes (placeholder r1) (resolveScriptTemplates m (pre ++ r1 :: mid))
                    = false).
  { rewrite resolve_app, resolve_cons. apply resolve_fresh; [done | done | done|].
    apply resolve_step_fresh; [done | done | done | by left]. }
  split; [exact Habsent|]. split.
  - replace (pre ++ r1 :: mid ++ r2 :: post) with ((pre ++ r1 :: mid) ++ r2 :: post)
      by (by rewrite <- app_assoc).
    replace (pre ++ r1 :: mid ++ post) with ((pre ++ r1 :: mid) ++ post)
      by (by rewrite <- app_assoc).
    rewrite 2!(resolve_app m (pre ++ r1 :: mid)), resolve_cons.
    rewrite resolve_step_absent; [reflexivity|].
    by rewrite <- (placeholder_same_name _ _ Hname).
  - intros a b Ha Hb.
    assert (Hstep : resolve_step (a +:+ placeholder r1 +:+ b) r1 = a +:+ replacement r1 +:+ b).
    { unfold resolve_step at 1, JS.split, placeholder.
      change ("{{" +:+ ?n) with (String "{" (String "{" n)).
      rewrite split_from_before by done.
      rewrite join_cons by apply split_from_nonempty.
      change (String "{" (String "{" (CronScriptResult.name r1 +:+ "}}")))
        with (placeholder r1).
      by rewrite (split_from_absent _ _ Hb). }
    cbn [resolveScriptTemplates fold_left]. rewrite Hstep.
    apply resolve_step_absent. rewrite <- (placeholder_same_name _ _ Hname).
    apply includes_around_fresh; [done | done | done | | done].
    unfold placeholder. change ("{{" +:+ ?n) with (String "{" (String "{" n)).
    by apply includes_no_first_char.
Qed.

Lemma C2_earlier_result_wins_witness :
  JS.includes (placeholder result_A)
              (resolveScriptTemplates "a {{x}} b {{x}}" ([] ++ result_A :: [])) = false
  /\ resolveScriptTemplates "a {{x}} b {{x}}" ([] ++ result_A :: [] ++ result_B :: [])
     = resolveScriptTemplates "a {{x}} b {{x}}" ([] ++ result_A :: [] ++ [])
  /\ (forall a b,
        no_char "{" a = true -> JS.includes (placeholder result_A) b = false ->
        resolveScriptTemplates (a +:+ placeholder result_A +:+ b) [result_A; result_B]
        = a +:+ replacement result_A +:+ b).
Proof.
  apply (C2_earlier_result_wins "a {{x}} b {{x}}" [] [] [] result_A result_B).
  - reflexivity.
  - constructor; [|constructor]. repeat split; discriminate || reflexivity.
Defined.
(** *** Fields that are not of the grammar *)

(** The shape of a field of the grammar. *)
Lemma spec_field_cases (min max : Z) (f : string) :
  spec_field min max f ->
  f = "*"
  \/ JS.startsWith "*/" f = true
  \/ JS.includes "," f = true
  \/ (JS.includes "-" f = true /\ starts_with_digit f)
  \/ (exists v, numeral f = Some v).
Proof.
  intros [| ds n Hnum Hn | items Hlen Hall | a b va vb Ha Hb H1 H2 H3 | ds v Hnum Hv].
  - by left.
  - right. left. apply prefix_app.
  - right. right. left. destruct items as [|a [|b rest]]; cbn in Hlen; try lia.
    rewrite join_cons2. change ("," +:+ ?x) with (String "," x). apply includes_char_app.
  - right. right. right. left. split.
    + change ("-" +:+ b) with (String "-" b). apply includes_char_app.
    + apply starts_with_digit_app. by eapply numeral_starts_with_digit.
  - right. right. right. right. by exists v.
Qed.

Lemma trailing_text_not_valid : ~ spec_valid_schedule trailing_text.
Proof.
  intros (f0 & f1 & f2 & f3 & f4 & Hfields & Hf0 & _).
  vm_compute in Hfields. injection Hfields as <- _ _ _ _.
  apply spec_field_cases in Hf0 as [H | [H | [H | [[H _] | [v H]]]]];
    vm_compute in H; discriminate H.
Qed.

Lemma open_range_not_valid : ~ spec_valid_schedule open_range.
Proof.
  intros (f0 & f1 & f2 & f3 & f4 & Hfields & Hf0 & _).
  vm_compute in Hfields. injection Hfields as <- _ _ _ _.
  apply spec_field_cases in Hf0 as [H | [H | [H | [[_ H] | [v H]]]]];
    try (vm_compute in H; discriminate H).
  destruct H as (c & s & [= <- _] & Hc). vm_compute in Hc. discriminate Hc.
Qed.

(** C3, as stated, fails on a schedule with a numeral followed by text.
    The schedule [5abc * * * *] is no expression of the grammar, and
    [shouldRunCron] answers [true] for it at five past the hour: the
    single value of a field is read with [parseInt], which stops at the
    first character that is no digit, so that the schedule matches the
    dates that [5 * * * *] matches. *)
Theorem C3_malformed_schedule_matches :
  ~ spec_valid_schedule trailing_text
  /\ shouldRunCron trailing_text five_past = true
  /\ (forall date, shouldRunCron trailing_text date = shouldRunCron "5 * * * *" date).
Proof.
  split; [exact trailing_text_not_valid|]. split; [vm_compute; reflexivity|].
  intros date. unfold shouldRunCron.
  assert (H : parseCronSchedule trailing_text = parseCronSchedule "5 * * * *")
    by (vm_compute; reflexivity).
  by rewrite H.
Qed.

(** C8, as stated, fails on fields that are not of the grammar: the
    parser returns for [5abc * * * *], with the minute 5, and for
    [-5 * * * *], with the minutes 0 to 5, and neither is made of five
    valid fields.  The single value is read with [parseInt], which stops
    at the first character that is no digit, and the ends of a range with
    [Number], for which the empty text is 0. *)
Theorem C8_malformed_fields_accepted :
  ~ spec_valid_schedule trailing_text
  /\ (exists cron, parseCronSchedule trailing_text = Return cron
                   /\ minute cron = [Number.int 5])
  /\ ~ spec_valid_schedule open_range
  /\ (exists cron, parseCronSchedule open_range = Return cron
                   /\ minute cron = map Number.int [0; 1; 2; 3; 4; 5]).
Proof.
  split; [exact trailing_text_not_valid|].
  split; [eexists; split; vm_compute; reflexivity|].
  split; [exact open_range_not_valid|].
  eexists; split; vm_compute; reflexivity.
Qed.
